(** * Aruba Central API client: a shallow embedding of [lambda_py/api_client.py]

    The development follows the class [ArubaApiClient]: Python values as
    they come out of [json.loads], the client object and the outside world
    (clock, vendor API) as one explicit state, and the methods as
    computations in a small state-and-exception monad.  The fetchers of
    the ingestion handlers that drive the client ([_fetch_all_aps],
    [_fetch_ap_details], [_fetch_device_status_events]) are embedded the
    same way.

    Idealisations, stated once:
    - Python floats ([min_interval], delays, the clock) are exact rationals;
    - a response body is kept as what [json.loads(raw.decode())] makes of it;
    - the vendor API is a script: the n-th physical exchange receives the
      n-th scripted response, and the exchange itself takes no time;
    - logging is left out. *)

From Stdlib Require Import String Ascii List ZArith QArith Qminmax Lia Lqa Bool.
Import ListNotations.

Set Warnings "-register-all".

Local Open Scope string_scope.
Local Open Scope Z_scope.

(* ================================================================== *)
(** ** Python values *)

Module Py.

(** A value produced by [json.loads]; [JNull] is Python's [None] and a
    [JDict] keeps its insertion order, as a Python [dict] does. *)
Inductive json : Type :=
| JNull
| JBool (b : bool)
| JNum (q : Q)
| JStr (s : string)
| JList (l : list json)
| JDict (kv : list (string * json)).

Definition pydict := list (string * json).

(** Truth value of a Python object ([if x:], [not x], [x or y]). *)
Definition truthy (v : json) : bool :=
  match v with
  | JNull => false
  | JBool b => b
  | JNum q => negb (Qeq_bool q 0%Q)
  | JStr s => negb (s =? EmptyString)%string
  | JList l => match l with [] => false | _ => true end
  | JDict kv => match kv with [] => false | _ => true end
  end.

Definition str_truthy (s : string) : bool := negb (s =? EmptyString)%string.

(** [isinstance(v, list)]. *)
Definition is_list (v : json) : bool :=
  match v with JList _ => true | _ => false end.

(** [d.get(k)] on a dict: the value of the first (only) binding of [k]. *)
Fixpoint dict_get (d : pydict) (k : string) : option json :=
  match d with
  | [] => None
  | (k', v) :: d' => if (k' =? k)%string then Some v else dict_get d' k
  end.

(** [k in d]. *)
Definition dict_has (d : pydict) (k : string) : bool :=
  match dict_get d k with Some _ => true | None => false end.

(** [d[k] = v]: an existing key keeps its position. *)
Fixpoint dict_set (d : pydict) (k : string) (v : json) : pydict :=
  match d with
  | [] => [(k, v)]
  | (k', v') :: d' =>
      if (k' =? k)%string then (k, v) :: d' else (k', v') :: dict_set d' k v
  end.

(** [d.setdefault(k, v)], for its effect on [d]. *)
Definition setdefault (d : pydict) (k : string) (v : json) : pydict :=
  if dict_has d k then d else dict_set d k v.

(** [d.get(k)] as a Python value: [None] when the key is missing. *)
Definition get_or_none (d : pydict) (k : string) : json :=
  match dict_get d k with Some v => v | None => JNull end.

(** [for v in js.values(): if isinstance(v, list): return v]. *)
Fixpoint first_list_value (d : pydict) : option (list json) :=
  match d with
  | [] => None
  | (_, JList l) :: _ => Some l
  | _ :: d' => first_list_value d'
  end.

(** [s.lower()], on ASCII letters. *)
Definition lower_ascii (c : ascii) : ascii :=
  let n := nat_of_ascii c in
  if ((65 <=? n) && (n <=? 90))%nat then ascii_of_nat (n + 32) else c.

Fixpoint lower (s : string) : string :=
  match s with
  | EmptyString => EmptyString
  | String c s' => String (lower_ascii c) (lower s')
  end.

(** [needle in s] for strings. *)
Fixpoint contains (needle s : string) : bool :=
  if prefix needle s then true
  else match s with
       | EmptyString => false
       | String _ s' => contains needle s'
       end.

End Py.
Import Py.

(* ================================================================== *)
(** ** Exceptions, requests, responses *)

(** The value of [e.headers.get("Retry-After")] when the header is present:
    its text, and the finite number [float(text)] yields, if it parses. *)
Record header_value := { hv_text : string; hv_float : option Q }.

(** The exceptions that travel through the client.  [RuntimeError] keeps
    the exception its message was formatted from. *)
Inductive exn : Type :=
| HTTPError (code : Z) (retry_after : option header_value) (body : string)
| URLError (reason : string)
| RuntimeError (msg : string) (cause : option exn)
| ValueError (msg : string)
| JSONDecodeError
| UnicodeDecodeError
| TypeError (msg : string)
| OtherException (name : string).

(** Bytes returned by [resp.read()], kept as what
    [json.loads(raw.decode())] does with them: a value, a text that is not
    JSON, or bytes that are not UTF-8. *)
Inductive bytes : Type :=
| Json (js : json)
| NotJson (text : string)
| NotUtf8.

(** What one [urllib.request.urlopen] can do. *)
Inductive response : Type :=
| RespOk (raw : bytes)
| RespHTTPError (code : Z) (retry_after : option header_value) (body : string)
| RespURLError (reason : string)
| RespOther (name : string).

(** A header value: plain text, [f"Bearer {token}"], or
    ["Basic " + b64(client_id:client_secret)]. *)
Inductive hval : Type :=
| HText (s : string)
| HBearer (token : json)
| HBasic (client_id client_secret : string).

Definition headers := list (string * hval).

(** [f"{base}{endpoint}?{urlencode(params)}"], kept in parts. *)
Record url := { u_base : string; u_endpoint : string; u_query : pydict }.

Record request := {
  full_url : url;
  req_headers : headers;
  method : option string;
  data : option (list (string * string))
}.

Definition Request (u : url) (h : headers) : request :=
  {| full_url := u; req_headers := h; method := None; data := None |}.

(* ================================================================== *)
(** ** The client object and the world *)

Inductive event : Type :=
| EvSleep (seconds : Q)
| EvSend (req : request) (attempt : Z).

(** What the constructor fixes: its arguments and the environment
    variables it reads. *)
Record config := {
  client_id : option string;
  client_secret : string;
  customer_id : option string;
  base_url : string;
  oauth_token_url : string;
  page_limit : Z;                (* min(page_limit, 100) *)
  page_delay_seconds : Q;
  early_expiry_buffer : Z;
  max_retries : Z;
  max_backoff : Q;               (* ARUBA_MAX_BACKOFF_SEC *)
  max_pages_per_call : Z         (* ARUBA_MAX_PAGES_PER_CALL *)
}.

Record state := {
  cfg : config;
  (* mutable fields of the client *)
  _access_token : json;
  _expires_at : option Q;
  min_interval : Q;              (* starts at ARUBA_MIN_REQUEST_INTERVAL_SEC *)
  _last_request_ts : Q;
  (* the world: clock, scripted vendor API, and what has happened so far *)
  clock : Q;
  script : list response;
  trace : list event
}.

Definition set_token (tok : json) (st : state) : state :=
  {| cfg := cfg st; _access_token := tok; _expires_at := _expires_at st;
     min_interval := min_interval st;
     _last_request_ts := _last_request_ts st;
     clock := clock st; script := script st; trace := trace st |}.

Definition set_expires_at (e : option Q) (st : state) : state :=
  {| cfg := cfg st; _access_token := _access_token st; _expires_at := e;
     min_interval := min_interval st;
     _last_request_ts := _last_request_ts st;
     clock := clock st; script := script st; trace := trace st |}.

Definition set_min_interval (m : Q) (st : state) : state :=
  {| cfg := cfg st; _access_token := _access_token st;
     _expires_at := _expires_at st; min_interval := m;
     _last_request_ts := _last_request_ts st;
     clock := clock st; script := script st; trace := trace st |}.

Definition set_last_request_ts (t : Q) (st : state) : state :=
  {| cfg := cfg st; _access_token := _access_token st;
     _expires_at := _expires_at st; min_interval := min_interval st;
     _last_request_ts := t;
     clock := clock st; script := script st; trace := trace st |}.

(** The world's part: time passes, a response is consumed, an event is
    recorded. *)
Definition set_world (c : Q) (s : list response) (t : list event)
  (st : state) : state :=
  {| cfg := cfg st; _access_token := _access_token st;
     _expires_at := _expires_at st; min_interval := min_interval st;
     _last_request_ts := _last_request_ts st;
     clock := c; script := s; trace := t |}.

(** The constructor's arguments ([request_timeout] plays no part in the
    model) and the environment variables it reads, each kept as the value
    [float()] or [int()] makes of it. *)
Record arguments := {
  arg_client_id : option string;
  arg_client_secret : string;
  arg_customer_id : option string;
  arg_base_url : string;
  arg_oauth_token_url : option string;
  arg_page_limit : Z;
  arg_early_expiry_buffer : Z;
  arg_page_delay_seconds : Q;
  arg_max_retries : Z
}.

Record environ := {
  ARUBA_MIN_REQUEST_INTERVAL_SEC : option Q;
  ARUBA_MAX_BACKOFF_SEC : option Q;
  ARUBA_MAX_PAGES_PER_CALL : option Z;
  ARUBA_OAUTH_TOKEN_URL : option string
}.

(** [s.rstrip("/")]. *)
Fixpoint rstrip_slash (s : string) : string :=
  match s with
  | EmptyString => EmptyString
  | String c s' =>
      let r := rstrip_slash s' in
      if (r =? EmptyString)%string && (c =? "/")%char then EmptyString
      else String c r
  end.

Definition getenv {A} (v : option A) (default : A) : A :=
  match v with Some x => x | None => default end.

(** [ArubaApiClient.__init__], in a world whose clock reads [now] and whose
    vendor will answer with [responses]. *)
Definition __init__ (a : arguments) (env : environ) (now : Q)
  (responses : list response) : state :=
  let base := rstrip_slash (arg_base_url a) in
  let given := match arg_oauth_token_url a with
               | Some u => str_truthy u
               | None => false
               end in
  let from_env := match ARUBA_OAUTH_TOKEN_URL env with
                  | Some u => str_truthy u
                  | None => false
                  end in
  let token_url0 :=
    if given then getenv (arg_oauth_token_url a) EmptyString
    else (base ++ "/oauth2/token")%string in
  let token_url1 :=
    if from_env then getenv (ARUBA_OAUTH_TOKEN_URL env) EmptyString
    else token_url0 in
  let token_url :=
    if contains "/oauth2/token" token_url1 && contains "api.central" base
       && negb from_env && negb given
    then "https://sso.common.cloud.hpe.com/as/token.oauth2"
    else token_url1 in
  {| cfg := {| client_id := arg_client_id a;
               client_secret := arg_client_secret a;
               customer_id := arg_customer_id a;
               base_url := base;
               oauth_token_url := token_url;
               page_limit := Z.min (arg_page_limit a) 100;
               page_delay_seconds := arg_page_delay_seconds a;
               early_expiry_buffer := arg_early_expiry_buffer a;
               max_retries := arg_max_retries a;
               max_backoff := getenv (ARUBA_MAX_BACKOFF_SEC env) 30%Q;
               max_pages_per_call := getenv (ARUBA_MAX_PAGES_PER_CALL env) 60 |};
     _access_token := JNull;
     _expires_at := None;
     min_interval := getenv (ARUBA_MIN_REQUEST_INTERVAL_SEC env) 0.5%Q;
     _last_request_ts := 0.0%Q;
     clock := now;
     script := responses;
     trace := [] |}.

(* ================================================================== *)
(** ** The monad: state, Python exceptions, and the model's own stops *)

(** A run of the model stops short of Python's behaviour in two ways: the
    script has no response left, or the recursion budget is used up.
    Neither is an exception: no [except] clause sees them. *)
Inductive stop : Type := NoResponse | OutOfFuel.

Inductive Res (A : Type) : Type :=
| Ret (a : A)
| Raise (e : exn)
| Abort (why : stop).
Arguments Ret {A} a.
Arguments Raise {A} e.
Arguments Abort {A} why.

Definition M (A : Type) : Type := state -> Res A * state.

Definition ret {A} (a : A) : M A := fun st => (Ret a, st).

Definition raise {A} (e : exn) : M A := fun st => (Raise e, st).

Definition abort {A} (w : stop) : M A := fun st => (Abort w, st).

Definition bind {A B} (m : M A) (k : A -> M B) : M B :=
  fun st =>
    match m st with
    | (Ret a, st') => k a st'
    | (Raise e, st') => (Raise e, st')
    | (Abort w, st') => (Abort w, st')
    end.

(** [try: m  except Exception as e: h e]. *)
Definition try_except {A} (m : M A) (h : exn -> M A) : M A :=
  fun st =>
    match m st with
    | (Raise e, st') => h e st'
    | other => other
    end.

Definition get : M state := fun st => (Ret st, st).

Definition modify (f : state -> state) : M unit := fun st => (Ret tt, f st).

Declare Scope py_scope.
Delimit Scope py_scope with py.
Notation "x <- m ;; k" := (bind m (fun x => k))
  (at level 61, m at next level, right associativity) : py_scope.
Notation "m ;; k" := (bind m (fun _ => k))
  (at level 61, right associativity) : py_scope.
Local Open Scope py_scope.

(** [json.loads(raw.decode())]. *)
Definition json_loads (raw : bytes) : M json :=
  match raw with
  | Json js => ret js
  | NotJson _ => raise JSONDecodeError
  | NotUtf8 => raise UnicodeDecodeError
  end.

(** [when c m]: a one-armed [if]. *)
Definition when (c : bool) (m : M unit) : M unit := if c then m else ret tt.

(* ================================================================== *)
(** ** Time *)

Definition Qltb (a b : Q) : bool :=
  match (a ?= b)%Q with Lt => true | _ => false end.

(** [time.time()] and [datetime.now(timezone.utc)] read the same clock. *)
Definition time_time : M Q := fun st => (Ret (clock st), st).

(** The state after sleeping [d] seconds. *)
Definition slept (d : Q) (st : state) : state :=
  set_world (clock st + d)%Q (script st) (trace st ++ [EvSleep d])%list st.

(** The state after [req] went out and the vendor's next response, which
    leaves [rest] in the script, came back. *)
Definition sent (req : request) (attempt : Z) (rest : list response)
  (st : state) : state :=
  set_world (clock st) rest (trace st ++ [EvSend req attempt])%list st.

(** [time.sleep(d)]: a negative length is a [ValueError]. *)
Definition time_sleep (d : Q) : M unit :=
  fun st =>
    if Qltb d 0%Q then (Raise (ValueError "sleep length must be non-negative"), st)
    else (Ret tt, slept d st).

(** [urllib.request.urlopen(req)] followed by [resp.read()]: the exchange is
    recorded and the next scripted response comes back. *)
Definition urlopen (req : request) (attempt : Z) : M response :=
  fun st =>
    match script st with
    | [] => (Abort NoResponse, st)
    | r :: rest => (Ret r, sent req attempt rest st)
    end.

(* ================================================================== *)
(** ** Core HTTP: [_headers], [_do_request], [_authenticate] *)

(** [self._headers()], read off the client as it is now. *)
Definition _headers (st : state) : headers :=
  let h := [("Accept", HText "application/json");
            ("Authorization", HBearer (_access_token st))] in
  match customer_id (cfg st) with
  | Some c => if str_truthy c then (h ++ [("X-Customer-Id", HText c)])%list else h
  | None => h
  end.

(** [urllib.request.Request(req.full_url, headers=..., method=req.method)]:
    the body of the original request is not carried over. *)
Definition rebuild (req : request) (h : headers) : request :=
  {| full_url := full_url req; req_headers := h; method := method req;
     data := None |}.

(** The [with self._lock:] block: wait out what is left of the minimum
    interval, then stamp the request. *)
Definition throttle : M unit :=
  st <- get ;;
  let wait := (min_interval st - (clock st - _last_request_ts st))%Q in
  when (Qltb 0%Q wait) (time_sleep wait) ;;
  now <- time_time ;;
  modify (set_last_request_ts now).

(** The state [throttle] leaves, and the state after the exchange that
    follows it in [_do_request]. *)
Definition throttled (st : state) : state :=
  let wait := (min_interval st - (clock st - _last_request_ts st))%Q in
  let st1 := if Qltb 0%Q wait then slept wait st else st in
  set_last_request_ts (clock st1) st1.

Definition exchanged (req : request) (attempt : Z) (rest : list response)
  (st : state) : state :=
  sent req attempt rest (throttled st).

(** [status in (429, 500, 502, 503, 504)]. *)
Definition retriable_status (status : Z) : bool :=
  existsb (Z.eqb status) [429; 500; 502; 503; 504].

(** The body of a 401 names a token problem. *)
Definition token_problem (body : string) : bool :=
  let lowered := lower body in
  contains "invalid access token" lowered || contains "unauthorized" lowered.

(** [min((2 ** (attempt - 1)) * self.min_interval, self.max_backoff)];
    [attempt] starts at 1 and only grows, so the power is an integer. *)
Definition backoff_delay (attempt : Z) (interval max_backoff : Q) : Q :=
  Qmin (inject_Z (2 ^ (attempt - 1)) * interval)%Q max_backoff.

(** [min((2 ** (attempt - 1)) * self.min_interval * 2, self.max_backoff)]. *)
Definition backoff_429 (attempt : Z) (interval max_backoff : Q) : Q :=
  Qmin (inject_Z (2 ^ (attempt - 1)) * interval * 2)%Q max_backoff.

(** The delay slept on a 429. *)
Definition delay_429 (retry_after : option header_value) (attempt : Z)
  (interval max_backoff : Q) : Q :=
  match retry_after with
  | Some hv =>
      if str_truthy (hv_text hv) then
        match hv_float hv with
        | Some d => d          (* float(retry_after) *)
        | None => 5.0%Q        (* except ValueError *)
        end
      else backoff_429 attempt interval max_backoff
  | None => backoff_429 attempt interval max_backoff
  end.

(** [self.min_interval = min(self.min_interval * 1.25, 5.0)]. *)
Definition inflate (interval : Q) : Q := Qmin (interval * 1.25)%Q 5.0%Q.

Definition inflate_interval (st : state) : state :=
  set_min_interval (inflate (min_interval st)) st.

Definition reauth_msg : string := "[auth] re-auth after 401 failed".

(** The token endpoint's answer lacks a token:
    [not js or "access_token" not in js]. *)
Definition lacks_access_token (js : json) : M bool :=
  if negb (truthy js) then ret true
  else match js with
       | JDict kv => ret (negb (dict_has kv "access_token"))
       | JList l =>
           ret (negb (existsb (fun v => match v with
                                        | JStr s => (s =? "access_token")%string
                                        | _ => false
                                        end) l))
       | JStr s => ret (negb (contains "access_token" s))
       | _ => raise (TypeError "argument is not iterable")
       end.

(** [timedelta(seconds=ttl)] accepts numbers only. *)
Definition seconds_of (ttl : json) : M Q :=
  match ttl with
  | JNum q => ret q
  | JBool b => ret (if b then 1 else 0)%Q
  | _ => raise (TypeError "unsupported type for timedelta seconds component")
  end.

(** [_authenticate], with the transport it posts through left open: the
    method calls [_do_request], which calls it back on a 401. *)
Definition _authenticate_with (do_request : request -> Z -> M bytes) : M unit :=
  st <- get ;;
  if negb (str_truthy (client_secret (cfg st))) then
    raise (RuntimeError "Missing client_secret (ARUBA_CLIENT_SECRET)" None)
  else
    match client_id (cfg st) with
    | None
    | Some EmptyString =>
        (* token-as-bearer fallback: no network round trip *)
        modify (set_token (JStr (client_secret (cfg st)))) ;;
        now <- time_time ;;
        modify (set_expires_at (Some (now + 7200)%Q))
    | Some cid =>
        let token_url :=
          {| u_base := oauth_token_url (cfg st); u_endpoint := EmptyString;
             u_query := [] |} in
        let _post_token (data : list (string * string)) (h : headers)
          : M json :=
          try_except
            (raw <- do_request
                      {| full_url := token_url; req_headers := h;
                         method := Some "POST"; data := Some data |} 1 ;;
             json_loads raw)
            (fun _ => ret JNull) in
        let primary_headers :=
          [("Content-Type", HText "application/x-www-form-urlencoded");
           ("Accept", HText "application/json")] in
        let data_primary :=
          [("grant_type", "client_credentials"); ("client_id", cid);
           ("client_secret", client_secret (cfg st))] in
        js <- _post_token data_primary primary_headers ;;
        missing <- lacks_access_token js ;;
        js <- (if missing then
                 let basic_headers :=
                   [("Content-Type", HText "application/x-www-form-urlencoded");
                    ("Accept", HText "application/json");
                    ("Authorization", HBasic cid (client_secret (cfg st)))] in
                 let data_basic :=
                   [("grant_type", "client_credentials"); ("client_id", cid)] in
                 _post_token data_basic basic_headers
               else ret js) ;;
        missing <- lacks_access_token js ;;
        if missing then
          raise (RuntimeError "Auth failed after retries" None)
        else
          match js with
          | JDict kv =>
              modify (set_token (get_or_none kv "access_token")) ;;
              ttl <- seconds_of (match dict_get kv "expires_in" with
                                 | Some v => v
                                 | None => JNum 7200
                                 end) ;;
              now <- time_time ;;
              modify (set_expires_at (Some (now + ttl)%Q))
          | _ => raise (TypeError "indices must be integers")
          end
    end.

(** What [_do_request] does with the outcome of one [urlopen]: the body
    of its [try], with the method itself ([do_request]) left open for the
    retries. *)
Definition on_response (do_request : request -> Z -> M bytes)
  (req : request) (attempt : Z) (resp : response) : M bytes :=
  match resp with
  | RespOk raw => ret raw
  | RespHTTPError status retry_after body =>
      let e := HTTPError status retry_after body in
      let retriable := retriable_status status in
      if (status =? 401) && (attempt =? 1) && token_problem body then
        (* clear the token, re-authenticate, rebuild, retry *)
        try_except
          (modify (set_token JNull) ;;
           modify (set_expires_at None) ;;
           _authenticate_with do_request ;;
           (* Rebuild headers with new token *)
           st <- get ;;
           let new_req := rebuild req (_headers st) in
           (* the bytes of the retry are never None *)
           do_request new_req (attempt + 1))
          (fun reauth_err => raise (RuntimeError reauth_msg (Some reauth_err)))
      else
        (if status =? 429 then
           st <- get ;;
           time_sleep (delay_429 retry_after attempt (min_interval st)
                                 (max_backoff (cfg st))) ;;
           (* Increase base interval slightly to reduce future 429s *)
           modify inflate_interval
         else ret tt) ;;
        st <- get ;;
        if retriable && (attempt <? max_retries (cfg st)) then
          let backoff := backoff_delay attempt (min_interval st)
                                       (max_backoff (cfg st)) in
          when (negb (status =? 429)) (time_sleep backoff) ;;
          do_request req (attempt + 1)
        else raise e
  | RespURLError reason =>
      st <- get ;;
      if attempt <? max_retries (cfg st) then
        let backoff := backoff_delay attempt (min_interval st)
                                     (max_backoff (cfg st)) in
        time_sleep backoff ;;
        do_request req (attempt + 1)
      else raise (URLError reason)
  | RespOther name => raise (OtherException name)
  end.

(** [_do_request(req, attempt)].  [fuel] bounds the depth of the calls; each
    call that gets as far as the network consumes one scripted response. *)
Fixpoint _do_request (fuel : nat) (req : request) (attempt : Z) : M bytes :=
  match fuel with
  | O => abort OutOfFuel
  | S fuel' =>
      throttle ;;
      resp <- urlopen req attempt ;;
      on_response (_do_request fuel') req attempt resp
  end.

Definition _authenticate (fuel : nat) : M unit :=
  _authenticate_with (_do_request fuel).

(** [_ensure_token]: the cached token is kept while
    [now + early_expiry_buffer < expires_at]. *)
Definition token_fresh (st : state) : bool :=
  truthy (_access_token st) &&
  match _expires_at st with
  | Some e => Qltb (clock st + inject_Z (early_expiry_buffer (cfg st)))%Q e
  | None => false
  end.

Definition _ensure_token (fuel : nat) : M unit :=
  st <- get ;;
  if token_fresh st then ret tt else _authenticate fuel.

(* ================================================================== *)
(** ** The unified cursor/offset collector *)

(** What a call of the [annotate] callback leaves behind: the item as the
    callback mutated it, whether it returned or raised. *)
Inductive annotated : Type :=
| Returned (it : json)
| Raised (e : exn) (it : json).

Definition callback := option (json -> annotated).

(** [if annotate: try: annotate(it) except Exception: pass], then the item
    that is appended. *)
Definition run_annotate (annotate : callback) (it : json) : json :=
  match annotate with
  | None => it
  | Some f => match f it with
              | Returned it' => it'
              | Raised _ it' => it'
              end
  end.

(** The callback of [list_clients_single_site]:
    [lambda c: c.setdefault("_site_id", site_id) if site_id else None]. *)
Definition annotate_site_id (site_id : string) (c : json) : annotated :=
  if str_truthy site_id then
    match c with
    | JDict d => Returned (JDict (setdefault d "_site_id" (JStr site_id)))
    | _ => Raised (OtherException "AttributeError") c
    end
  else Returned c.

(** [k in js and isinstance(js[k], list)], with [js[k]]. *)
Definition list_at (d : pydict) (k : string) : option (list json) :=
  match dict_get d k with
  | Some (JList l) => Some l
  | _ => None
  end.

(** [for k in root_keys: if k in js and isinstance(js[k], list): return js[k]]. *)
Fixpoint first_root_key (root_keys : list string) (d : pydict)
  : option (list json) :=
  match root_keys with
  | [] => None
  | k :: ks => match list_at d k with
               | Some l => Some l
               | None => first_root_key ks d
               end
  end.

Definition _extract_items (root_keys : list string) (js : json) : list json :=
  match js with
  | JDict d =>
      (* Prioritize 'items' for client list extraction *)
      match list_at d "items" with
      | Some l => l
      | None =>
          (* Fallback to other root keys *)
          match first_root_key root_keys d with
          | Some l => l
          | None =>
              match first_list_value d with
              | Some l => l
              | None =>
                  match dict_get d "data" with
                  | Some (JDict dd) => [JDict dd]
                  | _ => []
                  end
              end
          end
      end
  | JList l => l
  | _ => []
  end.

(** [js.get("next") if isinstance(js, dict) else None]. *)
Definition next_of (js : json) : json :=
  match js with
  | JDict d => get_or_none d "next"
  | _ => JNull
  end.

(** [{k: params[k] for k in params.keys() if k in ("site-id", "siteId")}]. *)
Definition site_id_params (params : pydict) : pydict :=
  filter (fun kv => (fst kv =? "site-id")%string || (fst kv =? "siteId")%string)
         params.

Definition _build_url (st : state) (endpoint : string) (p : pydict) : url :=
  {| u_base := base_url (cfg st); u_endpoint := endpoint; u_query := p |}.

(** [max(self.min_interval, min(self.page_delay_seconds, 1.0))]. *)
Definition page_pause (st : state) : Q :=
  Qmax (min_interval st) (Qmin (page_delay_seconds (cfg st)) 1.0%Q).

(** [try: js = json.loads(raw.decode())  except Exception: ...]: the page,
    or [None] when the handler runs. *)
Definition try_loads (raw : bytes) : M (option json) :=
  try_except (js <- json_loads raw ;; ret (Some js)) (fun _ => ret None).

(** The [while next_token and page < self.max_pages_per_call] loop of
    [_cursor_or_offset_collect]; [n] bounds its iterations and [fuel] is
    handed to [_do_request]. *)
Fixpoint cursor_loop (fuel : nat) (endpoint : string) (root_keys : list string)
  (site_params : pydict) (annotate : callback) (per_page_site_delay : bool)
  (n : nat) (next_token : json) (page : Z) (collected : list json)
  : M (list json) :=
  st <- get ;;
  if truthy next_token && (page <? max_pages_per_call (cfg st)) then
    match n with
    | O => abort OutOfFuel
    | S n' =>
        (* Only send 'next' (and site id if present), NOT 'limit' *)
        let paging_params := ("next", next_token) :: site_params in
        let cursor_url := _build_url st endpoint paging_params in
        raw <- _do_request fuel (Request cursor_url (_headers st)) 1 ;;
        parsed <- try_loads raw ;;
        match parsed with
        | None => ret collected                                   (* break *)
        | Some js =>
            let page := page + 1 in
            let items := _extract_items root_keys js in
            match items with
            | [] => ret collected                                 (* break *)
            | _ =>
                let collected :=
                  (collected ++ map (run_annotate annotate) items)%list in
                let next_token := next_of js in
                (if per_page_site_delay
                 then st <- get ;; time_sleep (page_pause st)
                 else ret tt) ;;
                cursor_loop fuel endpoint root_keys site_params annotate
                            per_page_site_delay n' next_token page collected
            end
        end
    end
  else ret collected.

Definition _cursor_or_offset_collect (fuel : nat) (endpoint : string)
  (root_keys : list string) (params : pydict) (annotate : callback)
  (per_page_site_delay : bool) : M (list json) :=
  st <- get ;;
  let limit := Z.min (page_limit (cfg st)) 100 in
  let base_params := setdefault params "limit" (JNum (inject_Z limit)) in
  (* Issue first request *)
  let url := _build_url st endpoint base_params in
  raw <- _do_request fuel (Request url (_headers st)) 1 ;;
  parsed <- try_loads raw ;;
  match parsed with
  | None => ret []
  | Some js =>
      let page := 1 in
      let items := _extract_items root_keys js in
      let collected := map (run_annotate annotate) items in
      let next_token := next_of js in
      (* Save original site identifier params for paging *)
      cursor_loop fuel endpoint root_keys (site_id_params params) annotate
                  per_page_site_delay fuel next_token page collected
  end.

(* ================================================================== *)
(** ** Public listings built on the collector *)

(** [list_sites]; [sort_expr] is [ARUBA_SITES_SORT], stripped. *)
Definition list_sites (fuel : nat) (sort_expr : string) : M (list json) :=
  let params := if str_truthy sort_expr then [("sort", JStr sort_expr)] else [] in
  _cursor_or_offset_collect fuel "/network-monitoring/v1alpha1/sites-health"
    ["sites"; "items"; "data"] params None false.

(** The [for label, base in variants] loop of [list_clients_single_site]:
    the first variant that yields items wins. *)
Fixpoint collect_variants (fuel : nat) (site_id : string)
  (variants : list pydict) : M (list json) :=
  match variants with
  | [] => ret []
  | base :: rest =>
      items <- _cursor_or_offset_collect fuel
                 "/network-monitoring/v1alpha1/clients"
                 ["clients"; "items"; "data"] base
                 (Some (annotate_site_id site_id)) true ;;
      match items with
      | [] => collect_variants fuel site_id rest
      | _ => ret items
      end
  end.

(** [list_clients_single_site]; [try_global] is [ARUBA_CLIENTS_TRY_GLOBAL]. *)
Definition list_clients_single_site (fuel : nat) (try_global : bool)
  (site_id : string) : M (list json) :=
  let variants := [[("site-id", JStr site_id)]; [("siteId", JStr site_id)]] in
  collect_variants fuel site_id
    (if try_global then (variants ++ [[]])%list else variants).

(* ================================================================== *)
(** ** [_get_json] and the offset loop [_paged_collect] *)

Definition _get_json (fuel : nat) (endpoint : string) (params : pydict)
  : M json :=
  _ensure_token fuel ;;
  st <- get ;;
  let url := _build_url st endpoint params in
  raw <- _do_request fuel (Request url (_headers st)) 1 ;;
  try_except (json_loads raw)
    (fun e => match e with
              | JSONDecodeError => ret (JDict [])
              | _ => raise e
              end).

(** [{**base_params, "limit": self.page_limit, "offset": offset}]. *)
Definition offset_params (base_params : pydict) (limit offset : Z) : pydict :=
  dict_set (dict_set base_params "limit" (JNum (inject_Z limit)))
           "offset" (JNum (inject_Z offset)).

(** [(offset / self.page_limit) + 1 >= self.max_pages_per_call], with
    Python's true division. *)
Definition page_cap_reached (offset limit max_pages : Z) : bool :=
  Qle_bool (inject_Z max_pages) (inject_Z offset / inject_Z limit + 1)%Q.

(** The [while True] loop of [_paged_collect]. *)
Fixpoint paged_loop (fuel : nat) (endpoint : string) (base_params : pydict)
  (root_keys : list string) (n : nat) (offset : Z) (collected : list json)
  : M (list json) :=
  match n with
  | O => abort OutOfFuel
  | S n' =>
      st <- get ;;
      let limit := page_limit (cfg st) in
      js <- _get_json fuel endpoint (offset_params base_params limit offset) ;;
      match js with
      | JDict d =>
          let items :=
            match first_root_key root_keys d with
            | Some l => Some l
            | None => first_list_value d      (* fallback: any list value *)
            end in
          match items with
          | None | Some [] => ret collected
          | Some l =>
              let collected := (collected ++ l)%list in
              if limit =? 0 then raise (OtherException "ZeroDivisionError")
              else if page_cap_reached offset limit
                                       (max_pages_per_call (cfg st))
              then ret collected
              else
                st <- get ;;
                time_sleep (Qmax (min_interval st) 0.5%Q) ;;
                paged_loop fuel endpoint base_params root_keys n'
                           (offset + limit) collected
          end
      | _ => ret collected
      end
  end.

Definition _paged_collect (fuel : nat) (endpoint : string)
  (base_params : pydict) (root_keys : list string) : M (list json) :=
  paged_loop fuel endpoint base_params root_keys fuel 0 [].

(* ================================================================== *)
(** ** [list_devices]: cursor pagination with deduplication *)

(** [a or b]. *)
Definition py_or (a b : json) : json := if truthy a then a else b.

(** [==] between the values that can be set members here: strings, and
    numbers with [True == 1]. *)
Definition py_eqb (a b : json) : bool :=
  let num v := match v with
               | JNum q => Some q
               | JBool b => Some (if b then 1 else 0)%Q
               | _ => None
               end in
  match a, b with
  | JStr s, JStr t => (s =? t)%string
  | JNull, JNull => true
  | _, _ => match num a, num b with
            | Some p, Some q => Qeq_bool p q
            | _, _ => false
            end
  end.

(** Lists and dicts cannot be hashed. *)
Definition hashable (v : json) : bool :=
  match v with JList _ | JDict _ => false | _ => true end.

(** [f"{v}"]: a string is itself; anything else is left to [py_str], the
    interpreter's [str]. *)
Definition format_value (py_str : json -> string) (v : json) : string :=
  match v with JStr s => s | _ => py_str v end.

(** The stable key of a device record; [d.get] needs a dict. *)
Definition device_key (py_str : json -> string) (d : json) : M json :=
  match d with
  | JDict kv =>
      let key :=
        py_or (get_or_none kv "id")
          (py_or (get_or_none kv "deviceId")
             (py_or (get_or_none kv "macAddress")
                (py_or (get_or_none kv "mac")
                   (get_or_none kv "serialNumber")))) in
      if truthy key then ret key
      else
        let name := py_or (get_or_none kv "deviceName") (get_or_none kv "name") in
        let ip4 := get_or_none kv "ipv4" in
        if truthy name || truthy ip4 then
          ret (JStr (format_value py_str (py_or name (JStr EmptyString)) ++ "|" ++
                     format_value py_str (py_or ip4 (JStr EmptyString))))
        else ret key
  | _ => raise (OtherException "AttributeError")
  end.

(** The [for d in page_items] loop: records with a key seen before are
    dropped, the others appended. *)
Fixpoint dedup_page (py_str : json -> string) (page_items : list json)
  (collected seen_keys : list json) : M (list json * list json) :=
  match page_items with
  | [] => ret (collected, seen_keys)
  | d :: rest =>
      key <- device_key py_str d ;;
      if truthy key then
        if hashable key then
          if existsb (py_eqb key) seen_keys then
            dedup_page py_str rest collected seen_keys           (* continue *)
          else
            dedup_page py_str rest (collected ++ [d])%list
                       (seen_keys ++ [key])%list
        else raise (TypeError "unhashable type")
      else dedup_page py_str rest (collected ++ [d])%list seen_keys
  end.

(** The page of a devices response. *)
Definition device_items (js : json) : list json :=
  match js with
  | JDict d =>
      match first_root_key ["devices"; "items"; "data"] d with
      | Some (it :: l) => it :: l
      | _ => match first_list_value d with
             | Some l => l
             | None => []
             end
      end
  | JList l => l
  | _ => []
  end.

(** [base_params]: the limit, and the sort expression of
    [ARUBA_DEVICE_SORT] when it is set. *)
Definition device_base_params (st : state) (sort_expr : string) : pydict :=
  let base := [("limit", JNum (inject_Z (Z.min (page_limit (cfg st)) 100)))] in
  if str_truthy sort_expr then (base ++ [("sort", JStr sort_expr)])%list
  else base.

Definition devices_endpoint : string := "/network-monitoring/v1alpha1/devices".

(** The parameters of a turn: [dict(base_params)], replaced by
    [{"next": next_token}] when [page > 1 and next_token]. *)
Definition device_params (st : state) (sort_expr : string) (page : Z)
  (next_token : json) : pydict :=
  if (1 <? page) && truthy next_token then [("next", next_token)]
  else device_base_params st sort_expr.

(** The [while True] loop of [list_devices]; [page] counts the turns made
    so far. *)
Fixpoint devices_loop (py_str : json -> string) (fuel : nat)
  (sort_expr : string) (n : nat) (page : Z) (next_token : json)
  (collected seen_keys : list json) : M (list json) :=
  match n with
  | O => abort OutOfFuel
  | S n' =>
      let page := page + 1 in
      st <- get ;;
      let params := device_params st sort_expr page next_token in
      let url := _build_url st devices_endpoint params in
      raw <- _do_request fuel (Request url (_headers st)) 1 ;;
      parsed <- try_loads raw ;;
      match parsed with
      | None => ret collected                                       (* break *)
      | Some js =>
          match device_items js with
          | [] => ret collected                                     (* break *)
          | page_items =>
              cs <- dedup_page py_str page_items collected seen_keys ;;
              let collected := fst cs in
              let seen_keys := snd cs in
              let new_next := next_of js in
              if negb (truthy new_next) then ret collected          (* break *)
              else
                st <- get ;;
                if max_pages_per_call (cfg st) <=? page then ret collected
                else
                  time_sleep (page_pause st) ;;
                  devices_loop py_str fuel sort_expr n' page new_next
                               collected seen_keys
          end
      end
  end.

Definition list_devices (py_str : json -> string) (fuel : nat)
  (sort_expr : string) : M (list json) :=
  devices_loop py_str fuel sort_expr fuel 0 JNull [] [].

(* ================================================================== *)
(** ** Relations between the state before and after a run *)

(** A relation between the state before and after a run that every step of
    the client respects.  [ok_req] says which requests may go out. *)
Class Respects (R : state -> state -> Prop) (ok_req : request -> Prop)
  : Prop := {
  R_refl : forall st, R st st;
  R_trans : forall a b c, R a b -> R b c -> R a c;
  R_set_token : forall tok st, R st (set_token tok st);
  R_set_expires_at : forall e st, R st (set_expires_at e st);
  R_set_last_request_ts : forall t st, R st (set_last_request_ts t st);
  R_inflate : forall st, R st (inflate_interval st);
  R_sleep : forall d st, R st (slept d st);
  R_send : forall req a r rest st,
    ok_req req -> script st = r :: rest -> R st (sent req a rest st);
  ok_rebuild : forall req h, ok_req req -> ok_req (rebuild req h);
  ok_post : forall req, method req = Some "POST" -> ok_req req
}.

(** Whatever the outcome, the run of [m] is a step of [R]. *)
Definition keeps (R : state -> state -> Prop) {A} (m : M A) : Prop :=
  forall st, R st (snd (m st)).

(** [min_interval] does not drop, and stays under the ceiling, provided it
    starts between 0 and the ceiling. *)
Definition interval_grows (st st' : state) : Prop :=
  (0 <= min_interval st <= 5)%Q ->
  (min_interval st <= min_interval st' <= 5)%Q.

(** The run appends events to the trace, and every request it sends is
    one that [ok] allows. *)
Definition event_ok (ok : request -> Prop) (ev : event) : Prop :=
  match ev with
  | EvSend req _ => ok req
  | EvSleep _ => True
  end.

Definition emits (ok : request -> Prop) (st st' : state) : Prop :=
  exists evs, trace st' = (trace st ++ evs)%list /\ Forall (event_ok ok) evs.

(** A request is either a POST (only the token endpoint is posted to) or
    a GET whose query parameters satisfy [allowed]. *)
Definition goes_to (allowed : pydict -> Prop) (req : request) : Prop :=
  method req = Some "POST" \/ allowed (u_query (full_url req)).


(* ================================================================== *)
(** ** Item extraction as the specification words it *)

(** The specification's order: each root key in the order given, then the
    first array-valued field, then the body itself when it is a list,
    otherwise nothing. *)
Definition spec_extract_items (root_keys : list string) (js : json)
  : list json :=
  match js with
  | JDict d =>
      match first_root_key root_keys d with
      | Some l => l
      | None => match first_list_value d with
                | Some l => l
                | None => []
                end
      end
  | JList l => l
  | _ => []
  end.

(* ================================================================== *)
(** ** The 429 delay as the specification words it *)



(** The state in which [_authenticate] starts after a stale-token 401:
    the exchange done, token and expiry cleared. *)
Definition after_401 (req : request) (rest : list response) (st : state)
  : state :=
  set_expires_at None (set_token JNull (exchanged req 1 rest st)).

(** The attempt numbers of the requests sent, in order. *)
Definition attempts (tr : list event) : list Z :=
  flat_map (fun ev => match ev with
                      | EvSend _ a => [a]
                      | EvSleep _ => []
                      end) tr.


(** The query parameters of the requests sent, in order. *)
Definition queries (tr : list event) : list pydict :=
  flat_map (fun ev => match ev with
                      | EvSend req _ => [u_query (full_url req)]
                      | EvSleep _ => []
                      end) tr.

(** The [Authorization] headers of the requests sent, in order. *)
Definition authorizations (tr : list event) : list (option hval) :=
  flat_map (fun ev => match ev with
                      | EvSend req _ =>
                          [option_map snd
                             (find (fun h => (fst h =? "Authorization")%string)
                                   (req_headers req))]
                      | EvSleep _ => []
                      end) tr.

(* ================================================================== *)
(** ** Cursor pagination over a list of pages *)



(* ================================================================== *)
(** ** Fuel *)

(** The script does not grow. *)
Definition script_shrinks (st st' : state) : Prop :=
  (length (script st') <= length (script st))%nat.

(** Started with at most [b] responses left, [m] does not run out of fuel,
    and leaves at most [b] responses. *)
Definition within (b : nat) {A} (m : M A) : Prop :=
  forall st,
    (length (script st) <= b)%nat ->
    fst (m st) <> Abort OutOfFuel
    /\ (length (script (snd (m st))) <= b)%nat.

(* ================================================================== *)
(** ** A process lifetime: calls on one client, one after the other *)

Inductive call : Type :=
| CallDoRequest (req : request) (attempt : Z)
| CallAuthenticate
| CallEnsureToken
| CallGetJson (endpoint : string) (params : pydict)
| CallCollect (endpoint : string) (root_keys : list string) (params : pydict)
              (annotate : callback) (per_page_site_delay : bool)
| CallPagedCollect (endpoint : string) (base_params : pydict)
                   (root_keys : list string)
| CallListDevices (py_str : json -> string) (sort_expr : string)
| CallListSites (sort_expr : string)
| CallListClients (try_global : bool) (site_id : string)
| Idle (elapsed : Q) (responses : list response).
    (* between calls: time passes, the vendor's future answers change *)

Definition run_call (fuel : nat) (c : call) (st : state) : state :=
  match c with
  | CallDoRequest req attempt => snd (_do_request fuel req attempt st)
  | CallAuthenticate => snd (_authenticate fuel st)
  | CallEnsureToken => snd (_ensure_token fuel st)
  | CallGetJson endpoint params => snd (_get_json fuel endpoint params st)
  | CallCollect endpoint root_keys params annotate delay =>
      snd (_cursor_or_offset_collect fuel endpoint root_keys params annotate
             delay st)
  | CallPagedCollect endpoint base_params root_keys =>
      snd (_paged_collect fuel endpoint base_params root_keys st)
  | CallListDevices py_str sort_expr =>
      snd (list_devices py_str fuel sort_expr st)
  | CallListSites sort_expr => snd (list_sites fuel sort_expr st)
  | CallListClients try_global site_id =>
      snd (list_clients_single_site fuel try_global site_id st)
  | Idle elapsed responses =>
      set_world (clock st + elapsed)%Q responses (trace st) st
  end.

Definition run_calls (fuel : nat) (calls : list call) (st : state) : state :=
  fold_left (fun s c => run_call fuel c s) calls st.

(* ================================================================== *)
(** ** A callback whose exceptions are made returns *)


(* ================================================================== *)
(** ** Concrete clients and worlds used in the examples *)

Module Sample.

(** A client using its secret as a bearer token (no [client_id]). *)
Definition bearer_cfg : config :=
  {| client_id := None; client_secret := "tok"; customer_id := None;
     base_url := "https://example"; oauth_token_url := "https://example/oauth2/token";
     page_limit := 2; page_delay_seconds := 2.0%Q; early_expiry_buffer := 300;
     max_retries := 3; max_backoff := 30%Q; max_pages_per_call := 60 |}.

(** A client doing the client-credentials grant. *)
Definition oauth_cfg : config :=
  {| client_id := Some "cid"; client_secret := "csec"; customer_id := Some "cust";
     base_url := "https://example"; oauth_token_url := "https://example/oauth2/token";
     page_limit := 2; page_delay_seconds := 2.0%Q; early_expiry_buffer := 300;
     max_retries := 3; max_backoff := 30%Q; max_pages_per_call := 60 |}.

(** A client just constructed: no token, the default interval, and a
    vendor API that will answer with [responses]. *)
Definition fresh (c : config) (responses : list response) : state :=
  {| cfg := c; _access_token := JNull; _expires_at := None;
     min_interval := 0.5%Q; _last_request_ts := 0%Q;
     clock := 1000%Q; script := responses; trace := [] |}.

(** A client holding token [tok] that expires [ttl] seconds from now. *)
Definition holding (c : config) (tok : string) (ttl : Q)
  (responses : list response) : state :=
  {| cfg := c; _access_token := JStr tok; _expires_at := Some (1000 + ttl)%Q;
     min_interval := 0.5%Q; _last_request_ts := 0%Q;
     clock := 1000%Q; script := responses; trace := [] |}.

Definition item (n : Z) : json := JDict [("id", JNum (inject_Z n))].

Definition token_reply : response :=
  RespOk (Json (JDict [("access_token", JStr "NEW");
                       ("expires_in", JNum 3600)])).

Definition get_request (endpoint : string) (q : pydict) (tok : json) : request :=
  Request {| u_base := "https://example"; u_endpoint := endpoint; u_query := q |}
          [("Accept", HText "application/json"); ("Authorization", HBearer tok)].

(** A resource request as [_cursor_or_offset_collect] builds it. *)
Definition sites_request (tok : json) : request :=
  get_request "/sites" [("limit", JNum 2)] tok.

(** A 429 whose [Retry-After] is a number of seconds. *)
Definition throttled_3s : response :=
  RespHTTPError 429 (Some {| hv_text := "3"; hv_float := Some 3%Q |}) "slow down".




Definition one_page : bytes :=
  Json (JDict [("items", JList [item 1])]).


(** A 401 as the vendor sends it for a stale token. *)
Definition stale_token : response :=
  RespHTTPError 401 None "error: Unauthorized".

Definition unavailable : response := RespHTTPError 503 None EmptyString.

(** The world in which re-authentication is followed by a second 401. *)
Definition twice_unauthorized : state :=
  fresh bearer_cfg [stale_token; stale_token].

(** The world in which the request rebuilt after re-authentication meets a
    503 and then succeeds. *)
Definition unauthorized_then_503 : state :=
  fresh bearer_cfg [stale_token; unavailable; RespOk one_page].

(** A client configured with [ARUBA_MIN_REQUEST_INTERVAL_SEC = m]. *)
Definition with_interval (m : Q) (responses : list response) : state :=
  {| cfg := bearer_cfg; _access_token := JStr "tok";
     _expires_at := Some 8200%Q; min_interval := m; _last_request_ts := 0%Q;
     clock := 1000%Q; script := responses; trace := [] |}.

(** A vendor that pages by offset: a full page of two without [next], a
    short page of one, then nothing. *)
Definition offset_vendor : list response :=
  [RespOk (Json (JDict [("items", JList [item 1; item 2])]));
   RespOk (Json (JDict [("items", JList [item 3])]));
   RespOk (Json (JDict [("items", JList [])]))].

(** A vendor that pages by cursor. *)
Definition cursor_vendor : list response :=
  [RespOk (Json (JDict [("items", JList [item 1; item 2]);
                        ("next", JStr "c1")]));
   RespOk (Json (JDict [("items", JList [item 3; item 4]);
                        ("next", JStr "c2")]));
   RespOk (Json (JDict [("items", JList [item 5])]))].

(** The run of [_cursor_or_offset_collect] against the offset vendor,
    with a page size of 2, and the run of [_paged_collect] against it. *)
Definition offset_run : Res (list json) * state :=
  _cursor_or_offset_collect 5 "/sites" ["sites"; "items"; "data"] [] None
    false (holding bearer_cfg "tok" 3600 offset_vendor).

Definition paged_run : Res (list json) * state :=
  _paged_collect 5 "/sites" [] ["sites"; "items"; "data"]
    (holding bearer_cfg "tok" 3600 offset_vendor).

(** A vendor that rejects the first request, issues a token, and serves
    the page. *)
Definition strict_vendor : list response :=
  [stale_token; token_reply; RespOk one_page].

(** Runs on a client just constructed (OAuth credentials, no token yet). *)
Definition first_collect : Res (list json) * state :=
  list_sites 5 EmptyString (fresh oauth_cfg strict_vendor).

Definition first_list_devices : Res (list json) * state :=
  list_devices (fun _ => "?") 5 EmptyString (fresh oauth_cfg strict_vendor).

Definition first_get_json : Res json * state :=
  _get_json 5 "/sites" [] (fresh oauth_cfg [token_reply; RespOk one_page]).

(** A client in the middle of a cursor run whose next page is an HTML
    error page. *)
Definition before_malformed : state :=
  holding bearer_cfg "tok" 3600
    [RespOk (NotJson "<html>error</html>");
     RespOk (Json (JDict [("items", JList [item 9])]))].

(** A client holding a token that expires in 400 seconds, and one whose
    token expires in 300 seconds. *)
Definition expiring_400 : state := holding oauth_cfg "OLD" 400 [token_reply].

Definition expiring_300 : state := holding oauth_cfg "OLD" 300 [token_reply].

End Sample.

(* ================================================================== *)
(** ** The public [get] and [get_switch_interfaces] *)

(** [ArubaApiClient.get]; no parameters is the empty dict. *)
Definition client_get (fuel : nat) (endpoint : string) (params : pydict)
  : M json :=
  _get_json fuel endpoint params.

Definition interfaces_endpoint (serial : string) : string :=
  "/network-monitoring/v1alpha1/switch/" ++ serial ++ "/interfaces".

(** [get_switch_interfaces(serial, site_id)]: the first of the keys
    [interfaces], [items], [data] that holds a list, the body itself when
    it is a list, and the empty list on any exception. *)
Definition get_switch_interfaces (fuel : nat) (serial : string)
  (site_id : json) : M (list json) :=
  let endpoint := interfaces_endpoint serial in
  let params := if truthy site_id then [("site-id", site_id)] else [] in
  try_except
    (js <- _get_json fuel endpoint params ;;
     match js with
     | JDict d =>
         match first_root_key ["interfaces"; "items"; "data"] d with
         | Some l => ret l
         | None => ret []
         end
     | JList l => ret l
     | _ => ret []
     end)
    (fun _ => ret []).

(* ================================================================== *)
(** ** [list_all_clients] *)

(** The callback of [list_clients_single_site] for a site identifier of
    any type, as [list_all_clients] hands over [site.get("id")]. *)
Definition annotate_site (site_id : json) (c : json) : annotated :=
  if truthy site_id then
    match c with
    | JDict d => Returned (JDict (setdefault d "_site_id" site_id))
    | _ => Raised (OtherException "AttributeError") c
    end
  else Returned c.

Fixpoint collect_variants_for (fuel : nat) (site_id : json)
  (variants : list pydict) : M (list json) :=
  match variants with
  | [] => ret []
  | base :: rest =>
      items <- _cursor_or_offset_collect fuel
                 "/network-monitoring/v1alpha1/clients"
                 ["clients"; "items"; "data"] base
                 (Some (annotate_site site_id)) true ;;
      match items with
      | [] => collect_variants_for fuel site_id rest
      | _ => ret items
      end
  end.

(** [list_clients_single_site(sid)] for the identifier found in a site
    record. *)
Definition list_clients_for (fuel : nat) (try_global : bool) (site_id : json)
  : M (list json) :=
  let variants := [[("site-id", site_id)]; [("siteId", site_id)]] in
  collect_variants_for fuel site_id
    (if try_global then (variants ++ [[]])%list else variants).

(** [c[k] = v]: only a dict takes an item under a string key. *)
Definition set_item (k : string) (v : json) (c : json) : M json :=
  match c with
  | JDict d => ret (JDict (dict_set d k v))
  | _ => raise (TypeError "object does not support item assignment")
  end.

(** [for c in clients: c[k1] = v1; c[k2] = v2; ...], the records being
    changed in place. *)
Fixpoint tag_one (tags : list (string * json)) (c : json) : M json :=
  match tags with
  | [] => ret c
  | (k, v) :: tags' => c' <- set_item k v c ;; tag_one tags' c'
  end.

Fixpoint tag_all (tags : list (string * json)) (clients : list json)
  : M (list json) :=
  match clients with
  | [] => ret []
  | c :: rest =>
      c' <- tag_one tags c ;;
      rest' <- tag_all tags rest ;;
      ret (c' :: rest')
  end.

(** The [for attempt in range(2)] loop: the sites, or [None] when the
    method returns [[]] after the second failure. *)
Definition enumerate_sites (fuel : nat) (sort_expr : string)
  : M (option (list json)) :=
  try_except (sites <- list_sites fuel sort_expr ;; ret (Some sites))
    (fun _ =>
       try_except (sites <- list_sites fuel sort_expr ;; ret (Some sites))
         (fun _ => ret None)).

(** The [for idx, site in enumerate(sites, 1)] loop. *)
Fixpoint sites_loop (fuel : nat) (try_global : bool) (sites : list json)
  (all_clients : list json) : M (list json) :=
  match sites with
  | [] => ret all_clients
  | site :: rest =>
      match site with
      | JDict s =>
          let sid := get_or_none s "id" in
          if negb (truthy sid) then
            sites_loop fuel try_global rest all_clients          (* continue *)
          else
            (match all_clients with
             | [] => ret tt
             | _ => st <- get ;; time_sleep (page_delay_seconds (cfg st))
             end) ;;
            site_clients <- list_clients_for fuel try_global sid ;;
            let site_name := get_or_none s "name" in
            site_clients <- tag_all [("_site_id", sid);
                                     ("_site_name", site_name)]
                                    site_clients ;;
            sites_loop fuel try_global rest
                       (all_clients ++ site_clients)%list
      | _ => raise (OtherException "AttributeError")
      end
  end.

(** [list_all_clients(site_id_override)]; [sort_expr] and [try_global] are
    the environment variables [list_sites] and [list_clients_single_site]
    read. *)
Definition list_all_clients (fuel : nat) (sort_expr : string)
  (try_global : bool) (site_id_override : option string) : M (list json) :=
  let override := match site_id_override with
                  | Some s => s
                  | None => EmptyString
                  end in
  if str_truthy override then
    clients <- list_clients_single_site fuel try_global override ;;
    tag_all [("_site_id", JStr override)] clients
  else
    found <- enumerate_sites fuel sort_expr ;;
    match found with
    | None => ret []
    | Some sites => sites_loop fuel try_global sites []
    end.

(* ================================================================== *)
(** ** Callers in the ingestion handlers *)

(** [_fetch_all_aps] of [ap_ingestion_lambda_handler.py]; [endpoint] is
    [ARUBA_APS_LIST_ENDPOINT] and [page_size] is [ARUBA_PAGE_SIZE]. *)
Definition _fetch_all_aps (fuel : nat) (endpoint : string) (page_size : Z)
  : M (list json) :=
  let params := [("limit", JNum (inject_Z page_size))] in
  _cursor_or_offset_collect fuel endpoint ["items"; "aps"; "data"] params
    None false.

(** [_fetch_ap_details(serial)]; [serial] is the text [format] puts in
    the path. *)
Definition _fetch_ap_details (fuel : nat) (serial : string) : M json :=
  try_except
    (client_get fuel ("/network-monitoring/v1alpha1/aps/" ++ serial) [])
    (fun _ => ret (JDict [])).

(** The page of a status response in
    [device_status_v2_ingestion_handler.py]. *)
Definition status_items (js : json) : list json :=
  match js with
  | JList l => l
  | JDict d =>
      match first_root_key ["items"; "events"; "data"] d with
      | Some (it :: l) => it :: l
      | _ => match first_list_value d with
             | Some l => l
             | None => []
             end
      end
  | _ => []
  end.

(** The [while True] loop of [_fetch_device_status_events].  [exn_str] is
    the interpreter's [str] on exceptions; [fallback] is
    [ARUBA_DEVICE_STATUS_FALLBACK_V1ALPHA1]; a 404 with the fallback on
    returns the devices listing from inside the loop. *)
Fixpoint status_loop (exn_str : exn -> string) (py_str : json -> string)
  (fuel : nat) (sort_expr endpoint : string) (fallback : bool)
  (limit max_pages : Z) (n : nat) (page offset : Z) (events : list json)
  : M (list json) :=
  match n with
  | O => abort OutOfFuel
  | S n' =>
      let page := page + 1 in
      let params := [("limit", JNum (inject_Z limit));
                     ("offset", JNum (inject_Z offset))] in
      st <- get ;;
      let url := _build_url st endpoint params in
      _ensure_token fuel ;;
      st <- get ;;
      let req := Request url (_headers st) in
      outcome <-
        try_except
          (raw <- _do_request fuel req 1 ;; ret (inl raw))
          (fun e =>
             if contains "HTTP Error 404" (exn_str e) && fallback then
               try_except
                 (legacy <- list_devices py_str fuel sort_expr ;;
                  ret (inr legacy))
                 (fun _ => raise e)
             else raise e) ;;
      match outcome with
      | inr legacy_devices => ret legacy_devices
      | inl raw =>
          parsed <- try_loads raw ;;
          match parsed with
          | None => ret events                                      (* break *)
          | Some js =>
              let page_items := status_items js in
              let cnt := Z.of_nat (length page_items) in
              if cnt =? 0 then ret events                           (* break *)
              else
                let events := (events ++ page_items)%list in
                if (cnt <? limit) || (max_pages <=? page) then ret events
                else
                  st <- get ;;
                  time_sleep (page_delay_seconds (cfg st)) ;;
                  status_loop exn_str py_str fuel sort_expr endpoint fallback
                              limit max_pages n' page (offset + limit) events
          end
      end
  end.

(** [_fetch_device_status_events]; [use_v2] is
    [ARUBA_DEVICE_STATUS_USE_V2] and [endpoint] the endpoint the
    environment selects. *)
Definition _fetch_device_status_events (exn_str : exn -> string)
  (py_str : json -> string) (fuel : nat) (sort_expr : string)
  (use_v2 : bool) (endpoint : string) (fallback : bool) : M (list json) :=
  if negb use_v2 || contains "/v1alpha1/devices" endpoint then
    try_except (list_devices py_str fuel sort_expr) (fun _ => ret [])
  else
    st <- get ;;
    status_loop exn_str py_str fuel sort_expr endpoint fallback
                (page_limit (cfg st)) (max_pages_per_call (cfg st))
                fuel 0 0 [].

(* ================================================================== *)
(** ** Reasoning about one run *)

(** The outcome and the final state of running [m] from [st] satisfy [Q]. *)
Definition sat {A} (m : M A) (st : state) (Q : Res A -> state -> Prop)
  : Prop :=
  Q (fst (m st)) (snd (m st)).

(** [status in (500, 502, 503, 504)]: retriable, and not a 429. *)
Definition server_error (status : Z) : bool :=
  existsb (Z.eqb status) [500; 502; 503; 504].

(** The state after an exchange followed by the plain backoff sleep. *)
Definition after_backoff (req : request) (attempt : Z) (rest : list response)
  (st : state) : state :=
  slept (backoff_delay attempt (min_interval st) (max_backoff (cfg st)))
        (exchanged req attempt rest st).

(* ================================================================== *)
(** ** Resource requests and their attempts *)

(** A request for a resource: one built without a method (a GET), as
    opposed to the POSTs to the token endpoint. *)
Definition resource_send (ev : event) : bool :=
  match ev with
  | EvSend req _ => match method req with None => true | Some _ => false end
  | EvSleep _ => false
  end.

(** The attempt numbers of the resource requests sent, in order. *)
Definition resource_attempts (tr : list event) : list Z :=
  attempts (filter resource_send tr).

(** The number of resource requests that are a first attempt: the
    logical requests, one per page asked for. *)
Definition pages_requested (tr : list event) : nat :=
  length (filter (Z.eqb 1) (resource_attempts tr)).

Definition is_post (req : request) : Prop := method req = Some "POST".

(** The run keeps the configuration and sends no resource request. *)
Definition quiet (st st' : state) : Prop :=
  cfg st' = cfg st
  /\ exists evs, trace st' = (trace st ++ evs)%list
                 /\ resource_attempts evs = [].

(** The run keeps the configuration and its resource requests are
    attempts [a], [a + 1], ... without a gap, the last one at most
    [bound]. *)
Definition retries_from (a bound : Z) (st st' : state) : Prop :=
  cfg st' = cfg st
  /\ exists evs k,
       trace st' = (trace st ++ evs)%list
       /\ resource_attempts evs = map (fun i => a + Z.of_nat i) (seq 0 k)
       /\ a + Z.of_nat k - 1 <= bound.

(** The run keeps the configuration and asks for at most [c] pages. *)
Definition asks_at_most (c : nat) (st st' : state) : Prop :=
  cfg st' = cfg st
  /\ exists evs, trace st' = (trace st ++ evs)%list
                 /\ (pages_requested evs <= c)%nat.

(** Run from a state whose configuration is [cf], [m] keeps the
    configuration and asks for at most [c] pages. *)
Definition asks_in (cf : config) (c : nat) {A} (m : M A) : Prop :=
  forall st, cfg st = cf -> asks_at_most c st (snd (m st)).

(* ================================================================== *)
(** ** Token modes *)

(** The client has a secret and no client id: [_authenticate] takes the
    token-as-bearer branch. *)
Definition bearer_mode (c : config) : bool :=
  str_truthy (client_secret c)
  && match client_id c with
     | None => true
     | Some cid => negb (str_truthy cid)
     end.

(** The state that branch leaves: the secret as token, good for two
    hours. *)
Definition bearer_authenticated (st : state) : state :=
  set_expires_at (Some (clock st + 7200)%Q)
    (set_token (JStr (client_secret (cfg st))) st).


(** The two token requests of [_authenticate]: the form carrying the
    secret, and the retry with HTTP Basic credentials. *)
Definition token_url (c : config) : url :=
  {| u_base := oauth_token_url c; u_endpoint := EmptyString; u_query := [] |}.





(* ================================================================== *)
(** ** What a run returns *)

(** Whenever [m] returns, the value satisfies [P]. *)
Definition returns {A} (P : A -> Prop) (m : M A) : Prop :=
  forall st a, fst (m st) = Ret a -> P a.

(* ================================================================== *)
(** ** The stable key of a device record *)

(** The key [list_devices] computes for the record [kv]: the first
    non-empty of [id], [deviceId], [macAddress], [mac], [serialNumber],
    else [name|ipv4] when one of the two is there. *)
Definition stable_key (py_str : json -> string) (kv : pydict) : json :=
  let key :=
    py_or (get_or_none kv "id")
      (py_or (get_or_none kv "deviceId")
         (py_or (get_or_none kv "macAddress")
            (py_or (get_or_none kv "mac")
               (get_or_none kv "serialNumber")))) in
  if truthy key then key
  else
    let name := py_or (get_or_none kv "deviceName") (get_or_none kv "name") in
    let ip4 := get_or_none kv "ipv4" in
    if truthy name || truthy ip4 then
      JStr (format_value py_str (py_or name (JStr EmptyString)) ++ "|" ++
            format_value py_str (py_or ip4 (JStr EmptyString)))
    else key.

(** The record [d] has the non-empty key [k]. *)
Definition keyed (py_str : json -> string) (d k : json) : Prop :=
  exists kv, d = JDict kv /\ stable_key py_str kv = k /\ truthy k = true.

(** No two records of [l] that have a key have equal keys. *)
Definition distinct_keys (py_str : json -> string) (l : list json) : Prop :=
  forall i j d1 d2 k1 k2,
    (i < j)%nat ->
    nth_error l i = Some d1 -> nth_error l j = Some d2 ->
    keyed py_str d1 k1 -> keyed py_str d2 k2 ->
    py_eqb k2 k1 = false.

(** The record is a dict without a key. *)
Definition unkeyed (py_str : json -> string) (d : json) : bool :=
  match d with
  | JDict kv => negb (truthy (stable_key py_str kv))
  | _ => false
  end.

(* ================================================================== *)
(** ** Site tags on client records *)



(* ================================================================== *)
(** ** Requests of the status loop, trailing slashes, unset variables *)

(** The request of a turn of the status loop. *)
Definition status_request (st : state) (endpoint : string) (offset : Z)
  : request :=
  Request (_build_url st endpoint
             [("limit", JNum (inject_Z (page_limit (cfg st))));
              ("offset", JNum (inject_Z offset))])
          (_headers st).

(** [s.endswith("/")]. *)
Fixpoint ends_with_slash (s : string) : bool :=
  match s with
  | EmptyString => false
  | String c EmptyString => (c =? "/")%char
  | String _ s' => ends_with_slash s'
  end.

(** ["/" * k]. *)
Fixpoint slashes (k : nat) : string :=
  match k with
  | O => EmptyString
  | S k' => String "/" (slashes k')
  end.

(** An optional string that is [None] or empty. *)
Definition unset (v : option string) : bool :=
  match v with
  | Some s => negb (str_truthy s)
  | None => true
  end.

(* ================================================================== *)
(** ** Runs that meet no 429 *)

Definition is_429 (r : response) : bool :=
  match r with
  | RespHTTPError status _ _ => status =? 429
  | _ => false
  end.

(** If no 429 is among the responses to come, [min_interval] is after the
    run what it was before it, and no 429 is among the responses left. *)
Definition steady (st st' : state) : Prop :=
  existsb is_429 (script st) = false ->
  min_interval st' = min_interval st
  /\ existsb is_429 (script st') = false.

Definition steadily {A} (m : M A) : Prop :=
  forall st, steady st (snd (m st)).

(* ================================================================== *)
(** ** The request that enumerates the sites *)

(** The first request of [list_sites]. *)
Definition sites_request (sort_expr : string) (st : state) : request :=
  Request
    (_build_url st "/network-monitoring/v1alpha1/sites-health"
       (setdefault
          (if str_truthy sort_expr then [("sort", JStr sort_expr)] else [])
          "limit" (JNum (inject_Z (Z.min (page_limit (cfg st)) 100)))))
    (_headers st).

(** A response that [_do_request] raises at once, whatever the attempt:
    an HTTP error that is neither retriable nor a 401. *)
Definition fatal (r : response) : bool :=
  match r with
  | RespHTTPError status _ _ =>
      negb (retriable_status status) && negb (status =? 401)
  | _ => false
  end.

(* ================================================================== *)
(** ** Further clients and worlds used in the examples *)

Module Cases.

Definition forbidden : response := RespHTTPError 403 None "forbidden".

Definition not_found : response := RespHTTPError 404 None "Not Found".


Definition timed_out : response := RespURLError "timed out".

(** [str(e)], as far as the examples need it. *)
Definition exn_str (e : exn) : string :=
  match e with
  | HTTPError 404 _ _ => "HTTP Error 404: Not Found"
  | HTTPError _ _ _ => "HTTP Error"
  | _ => "error"
  end.

Definition py_str (v : json) : string := "?".

Definition no_env : environ :=
  {| ARUBA_MIN_REQUEST_INTERVAL_SEC := None; ARUBA_MAX_BACKOFF_SEC := None;
     ARUBA_MAX_PAGES_PER_CALL := None; ARUBA_OAUTH_TOKEN_URL := None |}.

(** The arguments the handlers pass, for a gateway host and a secret. *)
Definition gateway_args (secret : string) : arguments :=
  {| arg_client_id := Some "cid"; arg_client_secret := secret;
     arg_customer_id := None;
     arg_base_url := "https://apigw.api.central.example//";
     arg_oauth_token_url := None; arg_page_limit := 250;
     arg_early_expiry_buffer := 300; arg_page_delay_seconds := 2.0%Q;
     arg_max_retries := 3 |}.

(** A client constructed without a secret. *)
Definition no_secret : state :=
  __init__ (gateway_args EmptyString) no_env 1000%Q [RespOk Sample.one_page].

(** A client holding a token good for an hour. *)
Definition ready (responses : list response) : state :=
  Sample.holding Sample.bearer_cfg "tok" 3600 responses.

(** A vendor whose second page of devices repeats a record of the
    first. *)
Definition overlapping_devices : list response :=
  [RespOk (Json (JDict [("devices", JList [Sample.item 1; Sample.item 2]);
                        ("next", JStr "c1")]));
   RespOk (Json (JDict [("devices", JList [Sample.item 2; Sample.item 3])]))].

(** A page of two devices, the second without any key. *)
Definition mixed_page : list json :=
  [Sample.item 1; JDict [("model", JStr "x")]].

(** A page of one client record, as the vendor sends it. *)
Definition client_page : response :=
  RespOk (Json (JDict [("items", JList [JDict [("mac", JStr "aa")]])])).


(** A page of one status event: shorter than the page size of 2. *)
Definition status_page : json :=
  JDict [("events", JList [Sample.item 7])].

End Cases.

(* ================================================================== *)
(** * Proofs *)

(** ** Every step of the client respects a [Respects] relation *)

Section Keeps.

Context {R : state -> state -> Prop} {ok_req : request -> Prop}
        `{HR : Respects R ok_req}.

Lemma keeps_ret {A} (a : A) : keeps R (ret a).
Proof. intro st. apply R_refl. Qed.

Lemma keeps_raise {A} e : keeps R (@raise A e).
Proof. intro st. apply R_refl. Qed.

Lemma keeps_abort {A} w : keeps R (@abort A w).
Proof. intro st. apply R_refl. Qed.

Lemma keeps_get : keeps R get.
Proof. intro st. apply R_refl. Qed.

Lemma keeps_time_time : keeps R time_time.
Proof. intro st. apply R_refl. Qed.

Lemma keeps_bind {A B} (m : M A) (k : A -> M B) :
  keeps R m -> (forall a, keeps R (k a)) -> keeps R (bind m k).
Proof.
  intros Hm Hk st. unfold bind.
  specialize (Hm st). destruct (m st) as [[a | e | w] st1]; simpl in *; auto.
  eapply R_trans; [exact Hm | apply Hk].
Qed.

Lemma keeps_try_except {A} (m : M A) (h : exn -> M A) :
  keeps R m -> (forall e, keeps R (h e)) -> keeps R (try_except m h).
Proof.
  intros Hm Hh st. unfold try_except.
  specialize (Hm st). destruct (m st) as [[a | e | w] st1]; simpl in *; auto.
  eapply R_trans; [exact Hm | apply Hh].
Qed.

Lemma keeps_when c (m : M unit) : keeps R m -> keeps R (when c m).
Proof. intro Hm. destruct c; simpl; [exact Hm | apply keeps_ret]. Qed.

Lemma keeps_if {A} (c : bool) (m1 m2 : M A) :
  keeps R m1 -> keeps R m2 -> keeps R (if c then m1 else m2).
Proof. destruct c; auto. Qed.

Lemma keeps_time_sleep d : keeps R (time_sleep d).
Proof.
  intro st. unfold time_sleep.
  destruct (Qltb d 0); simpl; [apply R_refl | apply R_sleep].
Qed.

Lemma keeps_urlopen req a : ok_req req -> keeps R (urlopen req a).
Proof.
  intros Hok st. unfold urlopen.
  destruct (script st) eqn:E; simpl; [apply R_refl | eapply R_send; eauto].
Qed.

Lemma keeps_set_token tok : keeps R (modify (set_token tok)).
Proof. intro st. apply R_set_token. Qed.

Lemma keeps_set_expires_at e : keeps R (modify (set_expires_at e)).
Proof. intro st. apply R_set_expires_at. Qed.

Lemma keeps_set_last_request_ts t : keeps R (modify (set_last_request_ts t)).
Proof. intro st. apply R_set_last_request_ts. Qed.

Lemma keeps_json_loads raw : keeps R (json_loads raw).
Proof. destruct raw; simpl; [apply keeps_ret | apply keeps_raise ..]. Qed.

Lemma keeps_try_loads raw : keeps R (try_loads raw).
Proof.
  unfold try_loads. apply keeps_try_except.
  - apply keeps_bind; [apply keeps_json_loads | intro; apply keeps_ret].
  - intro; apply keeps_ret.
Qed.

Lemma keeps_lacks_access_token js : keeps R (lacks_access_token js).
Proof.
  unfold lacks_access_token.
  destruct (negb (truthy js)); [apply keeps_ret |].
  destruct js; first [apply keeps_ret | apply keeps_raise].
Qed.

Lemma keeps_seconds_of ttl : keeps R (seconds_of ttl).
Proof. destruct ttl; simpl; first [apply keeps_ret | apply keeps_raise]. Qed.

Lemma keeps_throttle : keeps R throttle.
Proof.
  unfold throttle.
  apply keeps_bind; [apply keeps_get | intro st0].
  apply keeps_bind; [apply keeps_when, keeps_time_sleep | intros _].
  apply keeps_bind; [apply keeps_time_time | intro now].
  apply keeps_set_last_request_ts.
Qed.

(** [_authenticate] respects [R] when the transport it posts through
    does, on the POST requests it makes. *)
Lemma keeps_authenticate_with (dr : request -> Z -> M bytes) :
  (forall req a, method req = Some "POST" -> keeps R (dr req a)) ->
  keeps R (_authenticate_with dr).
Proof.
  intro Hdr. unfold _authenticate_with.
  apply keeps_bind; [apply keeps_get | intro st0].
  apply keeps_if; [apply keeps_raise |].
  assert (Hbearer : keeps R
            (modify (set_token (JStr (client_secret (cfg st0)))) ;;
             now <- time_time ;;
             modify (set_expires_at (Some (now + 7200)%Q)))).
  { apply keeps_bind; [apply keeps_set_token | intros _].
    apply keeps_bind; [apply keeps_time_time | intro now].
    apply keeps_set_expires_at. }
  assert (Hpost : forall req,
            method req = Some "POST" ->
            keeps R (try_except (raw <- dr req 1 ;; json_loads raw)
                              (fun _ => ret JNull))).
  { intros req Hm. apply keeps_try_except.
    - apply keeps_bind; [apply Hdr, Hm | apply keeps_json_loads].
    - intro; apply keeps_ret. }
  destruct (client_id (cfg st0)) as [cid |]; [| exact Hbearer].
  destruct cid as [| c cid']; [exact Hbearer |].
  apply keeps_bind; [apply Hpost; reflexivity | intro js].
  apply keeps_bind; [apply keeps_lacks_access_token | intro missing].
  apply keeps_bind.
  { apply keeps_if; [apply Hpost; reflexivity | apply keeps_ret]. }
  intro js'.
  apply keeps_bind; [apply keeps_lacks_access_token | intro missing'].
  apply keeps_if; [apply keeps_raise |].
  destruct js'; try apply keeps_raise.
  apply keeps_bind; [apply keeps_set_token | intros _].
  apply keeps_bind; [apply keeps_seconds_of | intro ttl].
  apply keeps_bind; [apply keeps_time_time | intro now].
  apply keeps_set_expires_at.
Qed.

Lemma keeps_on_response (dr : request -> Z -> M bytes) req attempt resp :
  (forall r a, ok_req r -> keeps R (dr r a)) ->
  ok_req req -> keeps R (on_response dr req attempt resp).
Proof.
  intros IH Hok. unfold on_response.
  destruct resp as [raw | status ra body | reason | name].
  - apply keeps_ret.
  - apply keeps_if.
    + apply keeps_try_except; [| intro; apply keeps_raise].
      apply keeps_bind; [apply keeps_set_token | intros _].
      apply keeps_bind; [apply keeps_set_expires_at | intros _].
      apply keeps_bind.
      { apply keeps_authenticate_with. intros r a Hm. apply IH, ok_post, Hm. }
      intros _.
      apply keeps_bind; [apply keeps_get | intro st1].
      apply IH, ok_rebuild, Hok.
    + apply keeps_bind.
      { apply keeps_if; [| apply keeps_ret].
        apply keeps_bind; [apply keeps_get | intro st1].
        apply keeps_bind; [apply keeps_time_sleep | intros _].
        intro st. apply R_inflate. }
      intros _.
      apply keeps_bind; [apply keeps_get | intro st1].
      apply keeps_if; [| apply keeps_raise].
      apply keeps_bind; [apply keeps_when, keeps_time_sleep | intros _].
      apply IH, Hok.
  - apply keeps_bind; [apply keeps_get | intro st1].
    apply keeps_if; [| apply keeps_raise].
    apply keeps_bind; [apply keeps_time_sleep | intros _].
    apply IH, Hok.
  - apply keeps_raise.
Qed.

Lemma keeps_do_request fuel : forall req attempt,
  ok_req req -> keeps R (_do_request fuel req attempt).
Proof.
  induction fuel as [| fuel IH]; intros req attempt Hok; simpl.
  - apply keeps_abort.
  - apply keeps_bind; [apply keeps_throttle | intros _].
    apply keeps_bind; [apply keeps_urlopen, Hok | intro resp].
    apply keeps_on_response; [exact IH | exact Hok].
Qed.

Lemma keeps_authenticate fuel : keeps R (_authenticate fuel).
Proof.
  apply keeps_authenticate_with. intros req a Hm.
  apply keeps_do_request, ok_post, Hm.
Qed.

Lemma keeps_ensure_token fuel : keeps R (_ensure_token fuel).
Proof.
  unfold _ensure_token.
  apply keeps_bind; [apply keeps_get | intro st0].
  apply keeps_if; [apply keeps_ret | apply keeps_authenticate].
Qed.

Lemma keeps_cursor_loop fuel endpoint root_keys site_params annotate delay :
  (forall tok st, truthy tok = true ->
     ok_req (Request (_build_url st endpoint (("next", tok) :: site_params))
                     (_headers st))) ->
  forall n next_token page collected,
    keeps R (cursor_loop fuel endpoint root_keys site_params annotate delay
                         n next_token page collected).
Proof.
  intros Hok n.
  induction n as [| n IH]; intros next_token page collected; simpl.
  - apply keeps_bind; [apply keeps_get | intro st0].
    apply keeps_if; [apply keeps_abort | apply keeps_ret].
  - apply keeps_bind; [apply keeps_get | intro st0].
    destruct (truthy next_token) eqn:Ht; simpl; [| apply keeps_ret].
    apply keeps_if; [| apply keeps_ret].
    apply keeps_bind; [apply keeps_do_request, Hok, Ht | intro raw].
    apply keeps_bind; [apply keeps_try_loads | intros [js |]].
    + destruct (_extract_items root_keys js); [apply keeps_ret |].
      apply keeps_bind; [| intros _; apply IH].
      apply keeps_if; [| apply keeps_ret].
      apply keeps_bind; [apply keeps_get | intro; apply keeps_time_sleep].
    + apply keeps_ret.
Qed.

Lemma keeps_get_json fuel endpoint params :
  (forall st, ok_req (Request (_build_url st endpoint params) (_headers st))) ->
  keeps R (_get_json fuel endpoint params).
Proof.
  intro Hok. unfold _get_json.
  apply keeps_bind; [apply keeps_ensure_token | intros _].
  apply keeps_bind; [apply keeps_get | intro st0].
  apply keeps_bind; [apply keeps_do_request, Hok | intro raw].
  apply keeps_try_except; [apply keeps_json_loads |].
  intro e. destruct e; first [apply keeps_ret | apply keeps_raise].
Qed.

Lemma keeps_collect fuel endpoint root_keys params annotate delay :
  (forall req, ok_req req) ->
  keeps R (_cursor_or_offset_collect fuel endpoint root_keys params annotate
             delay).
Proof.
  intro Hok. unfold _cursor_or_offset_collect.
  apply keeps_bind; [apply keeps_get | intro st0].
  apply keeps_bind; [apply keeps_do_request, Hok | intro raw].
  apply keeps_bind; [apply keeps_try_loads | intros [js |]].
  - apply keeps_cursor_loop. intros; apply Hok.
  - apply keeps_ret.
Qed.

Lemma keeps_list_sites fuel sort_expr :
  (forall req, ok_req req) -> keeps R (list_sites fuel sort_expr).
Proof. intro Hok. apply keeps_collect, Hok. Qed.

Lemma keeps_collect_variants fuel site_id variants :
  (forall req, ok_req req) ->
  keeps R (collect_variants fuel site_id variants).
Proof.
  intro Hok. induction variants as [| base rest IH]; simpl.
  - apply keeps_ret.
  - apply keeps_bind; [apply keeps_collect, Hok | intros [| it items]].
    + exact IH.
    + apply keeps_ret.
Qed.

Lemma keeps_list_clients fuel try_global site_id :
  (forall req, ok_req req) ->
  keeps R (list_clients_single_site fuel try_global site_id).
Proof. intro Hok. apply keeps_collect_variants, Hok. Qed.

Lemma keeps_paged_loop fuel endpoint base_params root_keys :
  (forall req, ok_req req) ->
  forall n offset collected,
    keeps R (paged_loop fuel endpoint base_params root_keys n offset collected).
Proof.
  intros Hok n.
  induction n as [| n IH]; intros offset collected; simpl.
  - apply keeps_abort.
  - apply keeps_bind; [apply keeps_get | intro st0].
    apply keeps_bind; [apply keeps_get_json; intro; apply Hok | intro js].
    destruct js; try apply keeps_ret.
    destruct (match first_root_key root_keys kv with
              | Some l => Some l
              | None => first_list_value kv
              end) as [[| it l] |]; try apply keeps_ret.
    apply keeps_if; [apply keeps_raise |].
    apply keeps_if; [apply keeps_ret |].
    apply keeps_bind; [apply keeps_get | intro st1].
    apply keeps_bind; [apply keeps_time_sleep | intros _; apply IH].
Qed.

Lemma keeps_paged_collect fuel endpoint base_params root_keys :
  (forall req, ok_req req) ->
  keeps R (_paged_collect fuel endpoint base_params root_keys).
Proof. intro Hok. apply keeps_paged_loop, Hok. Qed.

Lemma keeps_device_key py_str d : keeps R (device_key py_str d).
Proof.
  unfold device_key. destruct d; try apply keeps_raise.
  repeat (apply keeps_if); apply keeps_ret.
Qed.

Lemma keeps_dedup_page py_str page_items :
  forall collected seen_keys,
    keeps R (dedup_page py_str page_items collected seen_keys).
Proof.
  induction page_items as [| d rest IH]; intros collected seen_keys; simpl.
  - apply keeps_ret.
  - apply keeps_bind; [apply keeps_device_key | intro key].
    repeat (apply keeps_if); first [apply IH | apply keeps_raise].
Qed.


Lemma keeps_devices_loop_any py_str fuel sort_expr :
  (forall req, ok_req req) ->
  forall n page next_token collected seen_keys,
    keeps R (devices_loop py_str fuel sort_expr n page next_token collected
                          seen_keys).
Proof.
  intros Hok n.
  induction n as [| n IH]; intros page next_token collected seen_keys;
    cbn [devices_loop].
  - apply keeps_abort.
  - apply keeps_bind; [apply keeps_get | intro st0].
    apply keeps_bind; [apply keeps_do_request, Hok | intro raw].
    apply keeps_bind; [apply keeps_try_loads | intros [js |]];
      [| apply keeps_ret].
    destruct (device_items js) as [| it items]; [apply keeps_ret |].
    apply keeps_bind;
      [apply (keeps_dedup_page py_str (it :: items)) | intros [c s]].
    apply keeps_if; [apply keeps_ret |].
    apply keeps_bind; [apply keeps_get | intro st1].
    apply keeps_if; [apply keeps_ret |].
    apply keeps_bind; [apply keeps_time_sleep | intros _; apply IH].
Qed.

Lemma keeps_list_devices py_str fuel sort_expr :
  (forall req, ok_req req) ->
  keeps R (list_devices py_str fuel sort_expr).
Proof. intro Hok. apply keeps_devices_loop_any, Hok. Qed.

End Keeps.

(* ------------------------------------------------------------------ *)
(** ** Two instances: the throttle interval, and the trace of requests *)

Lemma inflate_bounds (m : Q) :
  (0 <= m <= 5)%Q -> (m <= inflate m <= 5)%Q.
Proof.
  intros [H0 H5]. unfold inflate, Qmin, GenericMinMax.gmin.
  destruct (Qcompare_spec (m * 1.25) 5.0) as [E | L | G]; lra.
Qed.

#[export] Instance interval_grows_respects :
  Respects interval_grows (fun _ => True).
Proof.
  split; unfold interval_grows; simpl; try (intros; lra); auto.
  intros st. apply inflate_bounds.
Qed.

Lemma goes_to_rebuild allowed req h :
  goes_to allowed req -> goes_to allowed (rebuild req h).
Proof. exact (fun H => H). Qed.

#[export] Instance emits_respects (allowed : pydict -> Prop) :
  Respects (emits (goes_to allowed)) (goes_to allowed).
Proof.
  split; unfold emits; simpl; intros.
  - exists []. rewrite app_nil_r. auto.
  - destruct H as (e1 & E1 & F1), H0 as (e2 & E2 & F2).
    exists (e1 ++ e2)%list. rewrite E2, E1, app_assoc.
    split; [reflexivity | apply Forall_app; auto].
  - exists []. rewrite app_nil_r. auto.
  - exists []. rewrite app_nil_r. auto.
  - exists []. rewrite app_nil_r. auto.
  - exists []. rewrite app_nil_r. auto.
  - exists [EvSleep d]. repeat constructor.
  - exists [EvSend req a].
    split; [reflexivity | constructor; [exact H | constructor]].
  - apply goes_to_rebuild; assumption.
  - left; assumption.
Qed.

(* ------------------------------------------------------------------ *)
(** ** Small facts about the building blocks *)

Lemma try_loads_eq raw st :
  try_loads raw st =
  (Ret (match raw with Json js => Some js | _ => None end), st).
Proof. destruct raw; reflexivity. Qed.




Lemma cursor_loop_no_next fuel endpoint root_keys sp annotate delay n
      next_token page collected st :
  truthy next_token = false ->
  cursor_loop fuel endpoint root_keys sp annotate delay n next_token page
              collected st = (Ret collected, st).
Proof. intro H. destruct n; simpl; unfold bind; simpl; rewrite H; reflexivity. Qed.


(** One turn of the loop, when the transport hands back a page. *)
Lemma cursor_loop_page fuel endpoint root_keys sp annotate delay n
      next_token page collected st raw st1 :
  truthy next_token = true ->
  page < max_pages_per_call (cfg st) ->
  _do_request fuel
    (Request (_build_url st endpoint (("next", next_token) :: sp)) (_headers st))
    1 st = (Ret raw, st1) ->
  cursor_loop fuel endpoint root_keys sp annotate delay (S n) next_token page
              collected st =
  match raw with
  | Json js =>
      match _extract_items root_keys js with
      | [] => (Ret collected, st1)
      | items =>
          ((if delay then st <- get ;; time_sleep (page_pause st) else ret tt) ;;
           cursor_loop fuel endpoint root_keys sp annotate delay n (next_of js)
             (page + 1) (collected ++ map (run_annotate annotate) items)%list)
            st1
      end
  | _ => (Ret collected, st1)
  end.
Proof.
  intros Ht Hp Hreq. apply Z.ltb_lt in Hp.
  simpl. unfold bind at 1. simpl. rewrite Ht, Hp. simpl.
  unfold bind at 1. rewrite Hreq.
  unfold bind at 1. rewrite try_loads_eq.
  destruct raw as [js | text |]; try reflexivity.
  destruct (_extract_items root_keys js); reflexivity.
Qed.

(** The first request of [_cursor_or_offset_collect], and what follows it. *)
Lemma collect_first_page fuel endpoint root_keys params annotate delay st
      raw st1 :
  _do_request fuel
    (Request (_build_url st endpoint
                (setdefault params "limit"
                   (JNum (inject_Z (Z.min (page_limit (cfg st)) 100)))))
             (_headers st))
    1 st = (Ret raw, st1) ->
  _cursor_or_offset_collect fuel endpoint root_keys params annotate delay st =
  match raw with
  | Json js =>
      cursor_loop fuel endpoint root_keys (site_id_params params) annotate
        delay fuel (next_of js) 1
        (map (run_annotate annotate) (_extract_items root_keys js)) st1
  | _ => (Ret [], st1)
  end.
Proof.
  intro Hreq. unfold _cursor_or_offset_collect.
  unfold bind at 1. simpl. unfold bind at 1. rewrite Hreq.
  unfold bind at 1. rewrite try_loads_eq.
  destruct raw; reflexivity.
Qed.

Lemma collect_first_fails fuel endpoint root_keys params annotate delay st :
  forall r st1,
  _do_request fuel
    (Request (_build_url st endpoint
                (setdefault params "limit"
                   (JNum (inject_Z (Z.min (page_limit (cfg st)) 100)))))
             (_headers st))
    1 st = (r, st1) ->
  (forall raw, r <> Ret raw) ->
  snd (_cursor_or_offset_collect fuel endpoint root_keys params annotate
         delay st) = st1.
Proof.
  intros r st1 Hreq Hr. unfold _cursor_or_offset_collect.
  unfold bind at 1. simpl. unfold bind at 1. rewrite Hreq.
  destruct r as [raw | e | w]; try reflexivity.
  exfalso. apply (Hr raw). reflexivity.
Qed.




(* ------------------------------------------------------------------ *)
(** ** Item extraction *)

Lemma first_root_key_some root_keys d l :
  first_root_key root_keys d = Some l <->
  exists ks1 k ks2,
    root_keys = (ks1 ++ k :: ks2)%list
    /\ Forall (fun k' => list_at d k' = None) ks1
    /\ list_at d k = Some l.
Proof.
  split.
  - induction root_keys as [| k ks IH]; simpl; [discriminate |].
    destruct (list_at d k) as [l' |] eqn:E.
    + intros [= <-]. exists [], k, ks. auto.
    + intro H. destruct (IH H) as (ks1 & k' & ks2 & -> & F & Hk).
      exists (k :: ks1), k', ks2. auto.
  - intros (ks1 & k & ks2 & -> & F & Hk).
    induction F as [| k' ks1 Hk' F IH]; simpl.
    + rewrite Hk. reflexivity.
    + rewrite Hk'. exact IH.
Qed.

Lemma first_root_key_none root_keys d :
  first_root_key root_keys d = None <->
  Forall (fun k => list_at d k = None) root_keys.
Proof.
  induction root_keys as [| k ks IH]; simpl.
  - split; auto.
  - destruct (list_at d k) eqn:E; split.
    + discriminate.
    + intro F. inversion F; subst. congruence.
    + intro H. constructor; [exact E | apply IH, H].
    + intro F. inversion F; subst. apply IH. assumption.
Qed.

Lemma first_list_value_some d l :
  first_list_value d = Some l <->
  exists d1 k d2,
    d = (d1 ++ (k, JList l) :: d2)%list
    /\ Forall (fun kv => is_list (snd kv) = false) d1.
Proof.
  split.
  - induction d as [| [k v] d IH]; simpl; [discriminate |].
    destruct v; try (intro H; destruct (IH H) as (d1 & k' & d2 & -> & F);
                     eexists ((k, _) :: d1), k', d2; split;
                     [reflexivity | constructor; [reflexivity | exact F]]).
    intros [= <-]. exists [], k, d. auto.
  - intros (d1 & k & d2 & -> & F).
    induction F as [| [k' v] d1 Hv F IH]; simpl; [reflexivity |].
    simpl in Hv. destruct v; try exact IH. discriminate.
Qed.

Lemma first_list_value_none d :
  first_list_value d = None <->
  Forall (fun kv => is_list (snd kv) = false) d.
Proof.
  induction d as [| [k v] d IH]; simpl.
  - split; auto.
  - split.
    + intro H. destruct v; try discriminate;
        (constructor; [reflexivity | apply IH, H]).
    + intro F. inversion F as [| ? ? Hv F']; subst. simpl in Hv.
      destruct v; try discriminate; apply IH, F'.
Qed.

Lemma list_at_no_lists d k :
  Forall (fun kv => is_list (snd kv) = false) d -> list_at d k = None.
Proof.
  unfold list_at. induction 1 as [| [k' v] d Hv F IH]; simpl; [reflexivity |].
  destruct (k' =? k)%string; [| exact IH].
  simpl in Hv. destruct v; try reflexivity. discriminate.
Qed.

(** C8, as the code has it.  Item extraction takes the [items] field first
    when it holds a list; failing that, the first root key, in the order
    given, that holds a list; failing that, the first list-valued field of
    the body, in the body's order; failing that, the [data] field wrapped
    in a one-element list when it is an object; a body that is a list is
    the page itself; anything else is an empty page. *)
Theorem extract_items_order (root_keys : list string) (js : json) :
  match js with
  | JDict d =>
      (forall l, list_at d "items" = Some l -> _extract_items root_keys js = l)
      /\ (list_at d "items" = None ->
          forall ks1 k ks2 l,
            root_keys = (ks1 ++ k :: ks2)%list ->
            Forall (fun k' => list_at d k' = None) ks1 ->
            list_at d k = Some l ->
            _extract_items root_keys js = l)
      /\ (list_at d "items" = None ->
          Forall (fun k => list_at d k = None) root_keys ->
          forall d1 k l d2,
            d = (d1 ++ (k, JList l) :: d2)%list ->
            Forall (fun kv => is_list (snd kv) = false) d1 ->
            _extract_items root_keys js = l)
      /\ (Forall (fun kv => is_list (snd kv) = false) d ->
          _extract_items root_keys js =
          match dict_get d "data" with
          | Some (JDict dd) => [JDict dd]
          | _ => []
          end)
  | JList l => _extract_items root_keys js = l
  | _ => _extract_items root_keys js = []
  end.
Proof.
  destruct js as [| b | q | s | l | d]; try reflexivity.
  simpl. repeat split.
  - intros l ->. reflexivity.
  - intros Hitems ks1 k ks2 l Hks F Hk. rewrite Hitems.
    assert (H : first_root_key root_keys d = Some l)
      by (apply first_root_key_some; eauto 6).
    rewrite H. reflexivity.
  - intros Hitems Hroot d1 k l d2 Hd F. rewrite Hitems.
    apply first_root_key_none in Hroot. rewrite Hroot.
    assert (H : first_list_value d = Some l)
      by (apply first_list_value_some; eauto 6).
    rewrite H. reflexivity.
  - intro F. rewrite (list_at_no_lists d "items" F).
    assert (Hroot : first_root_key root_keys d = None).
    { apply first_root_key_none, Forall_forall.
      intros k _. apply list_at_no_lists, F. }
    rewrite Hroot. apply first_list_value_none in F. rewrite F. reflexivity.
Qed.

Lemma extract_items_order_witness :
  _extract_items ["sites"; "items"; "data"]
    (JDict [("sites", JList [JStr "a"]); ("items", JList [JStr "b"])])
  = [JStr "b"]
  /\ _extract_items ["sites"; "data"]
       (JDict [("count", JNum 1); ("data", JList [JStr "c"])])
     = [JStr "c"].
Proof.
  split.
  - exact (proj1 (extract_items_order ["sites"; "items"; "data"]
                    (JDict [("sites", JList [JStr "a"]);
                            ("items", JList [JStr "b"])]))
                 [JStr "b"] eq_refl).
  - apply (proj1 (proj2 (extract_items_order ["sites"; "data"]
                    (JDict [("count", JNum 1); ("data", JList [JStr "c"])])))
                 eq_refl ["sites"] "data" [] [JStr "c"] eq_refl).
    + constructor; [reflexivity | constructor].
    + reflexivity.
Defined.

(** C8, as stated, fails: with root keys [sites, items, data] and a body
    holding lists under both [sites] and [items], the specification's
    order yields the [sites] list and the code yields the [items] list;
    and a body whose only field is an object under [data] is an empty page
    for the specification and a one-item page for the code. *)
Lemma extract_items_spec_counterexample :
  spec_extract_items ["sites"; "items"; "data"]
    (JDict [("sites", JList [JStr "a"]); ("items", JList [JStr "b"])])
  = [JStr "a"]
  /\ _extract_items ["sites"; "items"; "data"]
       (JDict [("sites", JList [JStr "a"]); ("items", JList [JStr "b"])])
     = [JStr "b"]
  /\ spec_extract_items ["sites"; "items"; "data"]
       (JDict [("data", JDict [("id", JStr "x")])])
     = []
  /\ _extract_items ["sites"; "items"; "data"]
       (JDict [("data", JDict [("id", JStr "x")])])
     = [JDict [("id", JStr "x")]].
Proof. repeat split. Qed.

(* ------------------------------------------------------------------ *)
(** ** The early-expiry buffer *)

Lemma Qltb_lt a b : Qltb a b = true <-> (a < b)%Q.
Proof.
  unfold Qltb. rewrite Qlt_alt. destruct (a ?= b)%Q; split; congruence.
Qed.

Lemma Qltb_ge a b : Qltb a b = false <-> (b <= a)%Q.
Proof.
  rewrite <- Bool.not_true_iff_false, Qltb_lt. split; intro H.
  - apply Qnot_lt_le, H.
  - apply Qle_not_lt, H.
Qed.

(** C7, as the code has it.  A cached token is returned untouched while
    [now + buffer < expires_at]: with a buffer of 300 seconds, a token
    expiring 400 seconds from now is a cache hit (no authentication); the
    client authenticates afresh exactly when the token expires 300 seconds
    from now or sooner. *)
Theorem ensure_token_buffer (fuel : nat) (st : state) (e : Q) :
  truthy (_access_token st) = true ->
  _expires_at st = Some e ->
  early_expiry_buffer (cfg st) = 300 ->
  ((e == clock st + 400)%Q -> _ensure_token fuel st = (Ret tt, st))
  /\ ((clock st + 300 < e)%Q -> _ensure_token fuel st = (Ret tt, st))
  /\ ((e <= clock st + 300)%Q ->
      _ensure_token fuel st = _authenticate fuel st).
Proof.
  intros Htok Hexp Hbuf.
  assert (Hhit : (clock st + 300 < e)%Q -> _ensure_token fuel st = (Ret tt, st)).
  { intro Hlt. unfold _ensure_token, bind, token_fresh. simpl.
    rewrite Htok, Hexp, Hbuf. simpl.
    replace (Qltb (clock st + inject_Z 300) e) with true; [reflexivity |].
    symmetry. apply Qltb_lt. exact Hlt. }
  repeat split.
  - intro He. apply Hhit. rewrite He. lra.
  - exact Hhit.
  - intro Hle. unfold _ensure_token, bind, token_fresh. simpl.
    rewrite Htok, Hexp, Hbuf. simpl.
    replace (Qltb (clock st + inject_Z 300) e) with false; [reflexivity |].
    symmetry. apply Qltb_ge. exact Hle.
Qed.

Lemma ensure_token_buffer_witness :
  _ensure_token 3 Sample.expiring_400 = (Ret tt, Sample.expiring_400)
  /\ _ensure_token 3 Sample.expiring_300 = _authenticate 3 Sample.expiring_300.
Proof.
  split.
  - apply (proj1 (ensure_token_buffer 3 Sample.expiring_400 (1000 + 400)%Q
                    eq_refl eq_refl eq_refl)).
    reflexivity.
  - apply (proj2 (proj2 (ensure_token_buffer 3 Sample.expiring_300
                           (1000 + 300)%Q eq_refl eq_refl eq_refl))).
    simpl. lra.
Defined.

(** C7, as stated, fails: with a token expiring 400 seconds from now and a
    buffer of 300 seconds, [_ensure_token] returns without touching the
    client or the network, whereas an authentication would have posted to
    the token endpoint and replaced the token. *)
Lemma ensure_token_400_counterexample :
  early_expiry_buffer (cfg Sample.expiring_400) = 300
  /\ _expires_at Sample.expiring_400
     = Some (clock Sample.expiring_400 + 400)%Q
  /\ _ensure_token 3 Sample.expiring_400 = (Ret tt, Sample.expiring_400)
  /\ _ensure_token 3 Sample.expiring_400 <> _authenticate 3 Sample.expiring_400
  /\ _access_token (snd (_authenticate 3 Sample.expiring_400)) = JStr "NEW"
  /\ attempts (trace (snd (_authenticate 3 Sample.expiring_400))) = [1].
Proof.
  vm_compute. repeat split; discriminate.
Qed.

(* ------------------------------------------------------------------ *)
(** ** The [annotate] callback *)





(** A run in which the callback raises on the second of three items of the
    first page: all three are collected, and the second page follows. *)
Example annotate_raises_mid_page :
  fst (_cursor_or_offset_collect 4 "/clients" ["clients"; "items"; "data"]
         [("site-id", JStr "s1")] (Some (annotate_site_id "s1")) false
         (Sample.holding Sample.bearer_cfg "tok" 3600
            [RespOk (Json (JDict [("items", JList [Sample.item 1; JStr "x";
                                                    Sample.item 2]);
                                  ("next", JStr "c1")]));
             RespOk (Json (JDict [("items", JList [Sample.item 3])]))]))
  = Ret [JDict [("id", JNum 1); ("_site_id", JStr "s1")];
         JStr "x";
         JDict [("id", JNum 2); ("_site_id", JStr "s1")];
         JDict [("id", JNum 3); ("_site_id", JStr "s1")]].
Proof. vm_compute. reflexivity. Qed.

(* ------------------------------------------------------------------ *)
(** ** Malformed pages *)

(** A turn of [list_devices] whose page does not parse. *)
Lemma devices_loop_malformed py_str fuel sort_expr n page next_token
      collected seen_keys st raw st1 :
  _do_request fuel
    (Request (_build_url st devices_endpoint
                (device_params st sort_expr (page + 1) next_token))
             (_headers st)) 1 st = (Ret raw, st1) ->
  (forall js, raw <> Json js) ->
  devices_loop py_str fuel sort_expr (S n) page next_token collected
               seen_keys st
  = (Ret collected, st1).
Proof.
  intros Hreq Hraw. cbn [devices_loop].
  unfold bind at 1. cbn [get]. unfold bind at 1. rewrite Hreq.
  unfold bind at 1. rewrite try_loads_eq.
  destruct raw as [js | text |]; try reflexivity.
  exfalso. apply (Hraw js). reflexivity.
Qed.

(** C9.  A page whose body does not parse as JSON ends the pagination call
    without an exception: on the first page the result is the empty list,
    on a later page the items collected so far; no further request is
    made (the state is the one the transport left).  The same holds for
    the turns of [list_devices]. *)
Theorem malformed_page_ends_pagination (fuel : nat) (endpoint : string)
  (root_keys : list string) (params : pydict) (annotate : callback)
  (delay : bool) :
  (forall st raw st1,
     _do_request fuel
       (Request (_build_url st endpoint
                   (setdefault params "limit"
                      (JNum (inject_Z (Z.min (page_limit (cfg st)) 100)))))
                (_headers st)) 1 st = (Ret raw, st1) ->
     (forall js, raw <> Json js) ->
     _cursor_or_offset_collect fuel endpoint root_keys params annotate delay st
     = (Ret [], st1))
  /\ (forall n next_token page collected st raw st1,
        truthy next_token = true ->
        page < max_pages_per_call (cfg st) ->
        _do_request fuel
          (Request (_build_url st endpoint
                      (("next", next_token) :: site_id_params params))
                   (_headers st)) 1 st = (Ret raw, st1) ->
        (forall js, raw <> Json js) ->
        cursor_loop fuel endpoint root_keys (site_id_params params) annotate
          delay (S n) next_token page collected st
        = (Ret collected, st1))
  /\ (forall py_str sort_expr n page next_token collected seen_keys st raw st1,
        _do_request fuel
          (Request (_build_url st devices_endpoint
                      (device_params st sort_expr (page + 1) next_token))
                   (_headers st)) 1 st = (Ret raw, st1) ->
        (forall js, raw <> Json js) ->
        devices_loop py_str fuel sort_expr (S n) page next_token collected
                     seen_keys st
        = (Ret collected, st1)).
Proof.
  split; [| split].
  - intros st raw st1 Hreq Hraw.
    rewrite (collect_first_page _ _ _ _ _ _ _ _ _ Hreq).
    destruct raw as [js | text |]; try reflexivity.
    exfalso. apply (Hraw js). reflexivity.
  - intros n next_token page collected st raw st1 Ht Hp Hreq Hraw.
    rewrite (cursor_loop_page _ _ _ _ _ _ _ _ _ _ _ _ _ Ht Hp Hreq).
    destruct raw as [js | text |]; try reflexivity.
    exfalso. apply (Hraw js). reflexivity.
  - intros. eapply devices_loop_malformed; eassumption.
Qed.

Lemma malformed_page_ends_pagination_witness :
  cursor_loop 3 "/sites" ["sites"] (site_id_params []) None false 1
    (JStr "c1") 1 [Sample.item 1] Sample.before_malformed
  = (Ret [Sample.item 1],
     snd (_do_request 3
            (Request (_build_url Sample.before_malformed "/sites"
                        [("next", JStr "c1")])
                     (_headers Sample.before_malformed))
            1 Sample.before_malformed)).
Proof.
  apply (proj1 (proj2 (malformed_page_ends_pagination 3 "/sites" ["sites"] []
                         None false))
           0%nat (JStr "c1") 1 [Sample.item 1] Sample.before_malformed
           (NotJson "<html>error</html>")).
  - reflexivity.
  - reflexivity.
  - vm_compute. reflexivity.
  - discriminate.
Defined.

(** A whole run: a good first page, then a malformed one.  The first
    page's items come back, as a value, and the third response is never
    asked for. *)
Example malformed_second_page :
  let run :=
    _cursor_or_offset_collect 4 "/sites" ["sites"; "items"; "data"] [] None
      false
      (Sample.holding Sample.bearer_cfg "tok" 3600
         [RespOk (Json (JDict [("sites", JList [Sample.item 1; Sample.item 2]);
                               ("next", JStr "c1")]));
          RespOk (NotJson "<html>error</html>");
          RespOk (Json (JDict [("sites", JList [Sample.item 3])]))]) in
  fst run = Ret [Sample.item 1; Sample.item 2]
  /\ script (snd run)
     = [RespOk (Json (JDict [("sites", JList [Sample.item 3])]))].
Proof. vm_compute. split; reflexivity. Qed.

(* ------------------------------------------------------------------ *)
(** ** One physical attempt of [_do_request] *)

Lemma time_sleep_nonneg d st :
  (0 <= d)%Q -> time_sleep d st = (Ret tt, slept d st).
Proof.
  intro H. unfold time_sleep.
  replace (Qltb d 0) with false; [reflexivity |].
  symmetry. apply Qltb_ge, H.
Qed.

Lemma throttle_eq st : throttle st = (Ret tt, throttled st).
Proof.
  unfold throttle, throttled, bind, get. simpl.
  destruct (Qltb 0 (min_interval st - (clock st - _last_request_ts st)))
    eqn:Hw; simpl.
  - apply Qltb_lt in Hw. rewrite time_sleep_nonneg by lra. reflexivity.
  - reflexivity.
Qed.

Lemma throttled_fields st :
  cfg (throttled st) = cfg st
  /\ _access_token (throttled st) = _access_token st
  /\ _expires_at (throttled st) = _expires_at st
  /\ min_interval (throttled st) = min_interval st
  /\ script (throttled st) = script st.
Proof.
  unfold throttled.
  destruct (Qltb 0 (min_interval st - (clock st - _last_request_ts st)));
    repeat split.
Qed.

Lemma exchange_eq req attempt st resp rest :
  script st = resp :: rest ->
  (throttle ;; urlopen req attempt) st = (Ret resp, exchanged req attempt rest st).
Proof.
  intro Hs. unfold bind. rewrite throttle_eq. unfold urlopen, exchanged.
  destruct (throttled_fields st) as (_ & _ & _ & _ & ->). rewrite Hs.
  reflexivity.
Qed.

Lemma do_request_unfold fuel req attempt st resp rest :
  script st = resp :: rest ->
  _do_request (S fuel) req attempt st
  = on_response (_do_request fuel) req attempt resp
      (exchanged req attempt rest st).
Proof.
  intro Hs. cbn [_do_request].
  unfold bind at 1. rewrite throttle_eq.
  unfold bind at 1. unfold urlopen at 1.
  destruct (throttled_fields st) as (_ & _ & _ & _ & ->). rewrite Hs.
  reflexivity.
Qed.

Lemma do_request_no_response fuel req attempt st :
  script st = [] ->
  _do_request (S fuel) req attempt st = (Abort NoResponse, throttled st).
Proof.
  intro Hs. cbn [_do_request]. unfold bind at 1. rewrite throttle_eq.
  unfold bind at 1. unfold urlopen at 1.
  destruct (throttled_fields st) as (_ & _ & _ & _ & ->). rewrite Hs.
  reflexivity.
Qed.

Lemma do_request_ok fuel req attempt st raw rest :
  script st = RespOk raw :: rest ->
  _do_request (S fuel) req attempt st = (Ret raw, exchanged req attempt rest st).
Proof. intro Hs. rewrite (do_request_unfold _ _ _ _ _ _ Hs). reflexivity. Qed.

Lemma exchanged_fields req attempt rest st :
  cfg (exchanged req attempt rest st) = cfg st
  /\ min_interval (exchanged req attempt rest st) = min_interval st
  /\ script (exchanged req attempt rest st) = rest
  /\ trace (exchanged req attempt rest st)
     = (trace (throttled st) ++ [EvSend req attempt])%list.
Proof.
  destruct (throttled_fields st) as (Hc & _ & _ & Hm & _).
  unfold exchanged, sent. cbn [cfg min_interval script trace set_world].
  auto.
Qed.

(* ------------------------------------------------------------------ *)
(** ** HTTP 429 *)




(* ------------------------------------------------------------------ *)
(** ** HTTP 401 *)

Lemma do_request_401_again fuel req attempt st ra body rest :
  script st = RespHTTPError 401 ra body :: rest ->
  attempt <> 1 ->
  _do_request (S fuel) req attempt st
  = (Raise (HTTPError 401 ra body), exchanged req attempt rest st).
Proof.
  intros Hs Ha. rewrite (do_request_unfold _ _ _ _ _ _ Hs). unfold on_response.
  apply Z.eqb_neq in Ha. rewrite Ha. reflexivity.
Qed.

(** C3, as the code has it.  A first attempt answered by a 401 whose body
    names a token problem makes the transport clear the cached token,
    call [_authenticate] once, rebuild the request with the new token and
    send it again as attempt 2; whatever goes wrong in that recovery is
    raised as the [re-auth after 401 failed] error.  A second 401 on the
    rebuilt request is raised at once, with no further request.  (The
    rebuilt request is an ordinary attempt 2: a 429, a 5xx or a network
    error on it is retried while [attempt < max_retries].) *)
Theorem do_request_on_401 (fuel : nat) (req : request) (st : state)
  (ra : option header_value) (body : string) (rest : list response) :
  script st = RespHTTPError 401 ra body :: rest ->
  token_problem body = true ->
  _do_request (S (S fuel)) req 1 st
  = try_except
      (_authenticate (S fuel) ;;
       st' <- get ;;
       _do_request (S fuel) (rebuild req (_headers st')) 2)
      (fun reauth_err => raise (RuntimeError reauth_msg (Some reauth_err)))
      (after_401 req rest st)
  /\ match fst (_do_request (S (S fuel)) req 1 st) with
     | Raise e => exists cause, e = RuntimeError reauth_msg (Some cause)
     | _ => True
     end
  /\ (forall e st2,
        _authenticate (S fuel) (after_401 req rest st) = (Raise e, st2) ->
        _do_request (S (S fuel)) req 1 st
        = (Raise (RuntimeError reauth_msg (Some e)), st2))
  /\ (forall st2 ra2 body2 rest2,
        _authenticate (S fuel) (after_401 req rest st) = (Ret tt, st2) ->
        script st2 = RespHTTPError 401 ra2 body2 :: rest2 ->
        _do_request (S (S fuel)) req 1 st
        = (Raise (RuntimeError reauth_msg (Some (HTTPError 401 ra2 body2))),
           exchanged (rebuild req (_headers st2)) 2 rest2 st2)).
Proof.
  intros Hs Hbody.
  assert (Heq : _do_request (S (S fuel)) req 1 st
                = try_except
                    (_authenticate (S fuel) ;;
                     st' <- get ;;
                     _do_request (S fuel) (rebuild req (_headers st')) 2)
                    (fun reauth_err =>
                       raise (RuntimeError reauth_msg (Some reauth_err)))
                    (after_401 req rest st)).
  { rewrite (do_request_unfold _ _ _ _ _ _ Hs). unfold on_response.
    change (401 =? 401) with true. change (1 =? 1) with true.
    rewrite Hbody. reflexivity. }
  split; [exact Heq |]. split; [| split].
  - rewrite Heq. unfold try_except.
    destruct ((_authenticate (S fuel) ;; _) (after_401 req rest st))
      as [[raw | e | w] st2]; simpl; eauto.
  - intros e st2 Hauth. rewrite Heq. unfold try_except, bind.
    rewrite Hauth. reflexivity.
  - intros st2 ra2 body2 rest2 Hauth Hs2. rewrite Heq.
    unfold try_except, bind. rewrite Hauth. cbn [get].
    rewrite (do_request_401_again _ _ _ _ _ _ _ Hs2) by discriminate.
    reflexivity.
Qed.

Lemma do_request_on_401_witness :
  _do_request 2 (Sample.sites_request JNull) 1 Sample.twice_unauthorized
  = (Raise (RuntimeError reauth_msg
              (Some (HTTPError 401 None "error: Unauthorized"))),
     exchanged
       (rebuild (Sample.sites_request JNull)
          (_headers (snd (_authenticate 1
                            (after_401 (Sample.sites_request JNull)
                               [Sample.stale_token]
                               Sample.twice_unauthorized)))))
       2 []
       (snd (_authenticate 1
               (after_401 (Sample.sites_request JNull) [Sample.stale_token]
                  Sample.twice_unauthorized)))).
Proof.
  apply (proj2 (proj2 (proj2
           (do_request_on_401 0 (Sample.sites_request JNull)
              Sample.twice_unauthorized None "error: Unauthorized"
              [Sample.stale_token] eq_refl eq_refl)))).
  - vm_compute. reflexivity.
  - reflexivity.
Defined.

(** After one 401 and one re-authentication, a second 401: two requests
    went out, the second with the new token, and the call fails. *)
Example second_401_is_final :
  attempts (trace (snd (_do_request 5 (Sample.sites_request JNull) 1
                          Sample.twice_unauthorized))) = [1; 2]
  /\ script (snd (_do_request 5 (Sample.sites_request JNull) 1
                    Sample.twice_unauthorized)) = [].
Proof. vm_compute. split; reflexivity. Qed.

(** C3, as stated, fails: after the 401 and the re-authentication the
    rebuilt request is not the last one.  Here it meets a 503, is retried
    as attempt 3, and the call succeeds: three requests for one logical
    call, where the claim allows two and an authentication error. *)
Lemma reauth_retry_loop_counterexample :
  fst (_do_request 5 (Sample.sites_request JNull) 1
         Sample.unauthorized_then_503) = Ret Sample.one_page
  /\ attempts (trace (snd (_do_request 5 (Sample.sites_request JNull) 1
                             Sample.unauthorized_then_503))) = [1; 2; 3].
Proof. vm_compute. split; reflexivity. Qed.

(* ------------------------------------------------------------------ *)
(** ** The throttle interval over a process lifetime *)

Lemma run_call_interval fuel c st : interval_grows st (run_call fuel c st).
Proof.
  destruct c; simpl.
  - apply keeps_do_request. exact I.
  - apply keeps_authenticate.
  - apply keeps_ensure_token.
  - apply keeps_get_json. intro. exact I.
  - apply keeps_collect. intro. exact I.
  - apply keeps_paged_collect. intro. exact I.
  - apply keeps_list_devices. intro. exact I.
  - apply keeps_list_sites. intro. exact I.
  - apply keeps_list_clients. intro. exact I.
  - unfold interval_grows. simpl. lra.
Qed.

Lemma run_calls_interval fuel calls :
  forall st, interval_grows st (run_calls fuel calls st).
Proof.
  unfold run_calls.
  induction calls as [| c calls IH]; intro st; simpl.
  - apply R_refl.
  - eapply R_trans; [apply run_call_interval | apply IH].
Qed.



(** The interval of that run: 4, then 5 after the first 429, and 5 from
    then on. *)
Example interval_reaches_ceiling :
  min_interval
    (run_calls 5 [CallDoRequest (Sample.sites_request (JStr "tok")) 1]
       (Sample.with_interval 4
          [Sample.throttled_3s; Sample.throttled_3s; RespOk Sample.one_page]))
  = 5.0%Q.
Proof. vm_compute. reflexivity. Qed.


(** The interval the constructor sets is the configured one, so a client
    configured within the band keeps its interval from dropping. *)
Lemma configured_interval_never_decreases fuel calls a env now responses m :
  ARUBA_MIN_REQUEST_INTERVAL_SEC env = Some m ->
  (0 <= m <= 5)%Q ->
  (m <= min_interval (run_calls fuel calls (__init__ a env now responses))
   <= 5)%Q.
Proof.
  intros Henv Hm.
  pose proof (run_calls_interval fuel calls (__init__ a env now responses))
    as H.
  unfold interval_grows in H.
  replace (min_interval (__init__ a env now responses)) with m in H
    by (simpl; rewrite Henv; reflexivity).
  apply H, Hm.
Qed.

(* ------------------------------------------------------------------ *)
(** ** A cursor run against a vendor that serves one page per request *)






(* ------------------------------------------------------------------ *)
(** ** Cursor mode *)



(** A cursor run of three pages, called with a [limit] and a [site-id]:
    the queries that went out, and what came back. *)
Example cursor_run :
  queries (trace (snd (_cursor_or_offset_collect 5 "/clients" ["clients"]
                         [("limit", JNum 50); ("site-id", JStr "s1")] None
                         false
                         (Sample.holding Sample.bearer_cfg "tok" 3600
                            Sample.cursor_vendor))))
  = [[("limit", JNum 50); ("site-id", JStr "s1")];
     [("next", JStr "c1"); ("site-id", JStr "s1")];
     [("next", JStr "c2"); ("site-id", JStr "s1")]]
  /\ fst (_cursor_or_offset_collect 5 "/clients" ["clients"]
            [("limit", JNum 50); ("site-id", JStr "s1")] None false
            (Sample.holding Sample.bearer_cfg "tok" 3600 Sample.cursor_vendor))
     = Ret [Sample.item 1; Sample.item 2; Sample.item 3; Sample.item 4;
            Sample.item 5].
Proof. vm_compute. split; reflexivity. Qed.

(** The clients of one site: the [site-id] of the call is sent again with
    every cursor, the [limit] is not, and every client is tagged. *)
Example clients_run :
  queries (trace (snd (list_clients_single_site 5 false "s1"
                         (Sample.holding Sample.bearer_cfg "tok" 3600
                            Sample.cursor_vendor))))
  = [[("site-id", JStr "s1"); ("limit", JNum 2)];
     [("next", JStr "c1"); ("site-id", JStr "s1")];
     [("next", JStr "c2"); ("site-id", JStr "s1")]]
  /\ option_map (map (fun c => match c with
                               | JDict d => dict_get d "_site_id"
                               | _ => None
                               end))
       (match fst (list_clients_single_site 5 false "s1"
                     (Sample.holding Sample.bearer_cfg "tok" 3600
                        Sample.cursor_vendor)) with
        | Ret items => Some items
        | _ => None
        end)
     = Some (repeat (Some (JStr "s1")) 5).
Proof. vm_compute. split; reflexivity. Qed.

(* ------------------------------------------------------------------ *)
(** ** No offset mode in the collector *)

(** A first page without [next] ends [_cursor_or_offset_collect]: its
    items are the result and nothing more is requested. *)
Lemma collect_stops_without_next fuel endpoint root_keys params annotate
      delay st js st1 :
  _do_request fuel
    (Request (_build_url st endpoint
                (setdefault params "limit"
                   (JNum (inject_Z (Z.min (page_limit (cfg st)) 100)))))
             (_headers st)) 1 st = (Ret (Json js), st1) ->
  truthy (next_of js) = false ->
  _cursor_or_offset_collect fuel endpoint root_keys params annotate delay st
  = (Ret (map (run_annotate annotate) (_extract_items root_keys js)), st1).
Proof.
  intros Hreq Hnext.
  rewrite (collect_first_page _ _ _ _ _ _ _ _ _ Hreq).
  apply cursor_loop_no_next, Hnext.
Qed.

(** C1 (defect).  Against a vendor that pages by offset (a full page of
    [page_limit] = 2 items without [next], then a short page),
    [_cursor_or_offset_collect] makes one request, with [limit] and no
    [offset], and returns the first page only; the short page is never
    asked for.  The offset loop [_paged_collect] does ask for it, with
    offsets 0, 2, 4: it stops at the empty page, not at the short one. *)
Theorem no_offset_fallback :
  fst Sample.offset_run = Ret [Sample.item 1; Sample.item 2]
  /\ queries (trace (snd Sample.offset_run)) = [[("limit", JNum 2)]]
  /\ script (snd Sample.offset_run) = tl Sample.offset_vendor
  /\ fst Sample.paged_run = Ret [Sample.item 1; Sample.item 2; Sample.item 3]
  /\ queries (trace (snd Sample.paged_run))
     = [[("limit", JNum 2); ("offset", JNum 0)];
        [("limit", JNum 2); ("offset", JNum 2)];
        [("limit", JNum 2); ("offset", JNum 4)]].
Proof. vm_compute. repeat split. Qed.

(* ------------------------------------------------------------------ *)
(** ** Requests sent without asking for a token *)

Lemma emits_any_request req : goes_to (fun _ => True) req.
Proof. right. exact I. Qed.

(** The first physical request of a call of [_do_request] is the request
    it was given, as it was given. *)
Lemma do_request_first_send fuel req attempt st resp rest :
  script st = resp :: rest ->
  exists evs,
    trace (snd (_do_request (S fuel) req attempt st))
    = (trace (throttled st) ++ EvSend req attempt :: evs)%list.
Proof.
  intro Hs. rewrite (do_request_unfold _ _ _ _ _ _ Hs).
  destruct (keeps_on_response (R := emits (goes_to (fun _ => True)))
              (_do_request fuel) req attempt resp
              (fun r a _ => keeps_do_request fuel r a (emits_any_request r))
              (emits_any_request req)
              (exchanged req attempt rest st)) as (evs & E & _).
  exists evs. rewrite E.
  destruct (exchanged_fields req attempt rest st) as (_ & _ & _ & ->).
  rewrite <- app_assoc. reflexivity.
Qed.

(** [_cursor_or_offset_collect] sends its first request with the token the
    client happens to hold: [_ensure_token] is not called. *)
Lemma collect_uses_held_token fuel endpoint root_keys params annotate delay
      st resp rest :
  script st = resp :: rest ->
  exists evs,
    trace (snd (_cursor_or_offset_collect (S fuel) endpoint root_keys params
                  annotate delay st))
    = (trace (throttled st)
       ++ EvSend (Request
                    (_build_url st endpoint
                       (setdefault params "limit"
                          (JNum (inject_Z (Z.min (page_limit (cfg st)) 100)))))
                    (_headers st)) 1
       :: evs)%list.
Proof.
  intro Hs.
  set (req := Request _ _).
  destruct (do_request_first_send fuel req 1 st resp rest Hs) as (evs1 & E1).
  destruct (_do_request (S fuel) req 1 st) as [r st1] eqn:Hreq. simpl in E1.
  destruct r as [raw | e | w].
  - rewrite (collect_first_page _ _ _ _ _ _ _ _ _ Hreq).
    destruct raw as [js | text |]; [| exists evs1; exact E1 ..].
    pose proof (keeps_cursor_loop
                  (R := emits (goes_to (fun _ => True)))
                  (S fuel) endpoint root_keys (site_id_params params) annotate
                  delay (fun tok s _ => emits_any_request _) (S fuel)
                  (next_of js) 1
                  (map (run_annotate annotate) (_extract_items root_keys js))
                  st1) as (evs2 & E2 & _).
    exists (evs1 ++ evs2)%list. rewrite E2, E1, <- app_assoc. reflexivity.
  - rewrite (collect_first_fails _ _ _ _ _ _ _ _ _ Hreq) by discriminate.
    exists evs1. exact E1.
  - rewrite (collect_first_fails _ _ _ _ _ _ _ _ _ Hreq) by discriminate.
    exists evs1. exact E1.
Qed.

Lemma headers_carry_held_token st :
  In ("Authorization", HBearer (_access_token st)) (_headers st).
Proof.
  unfold _headers. destruct (customer_id (cfg st)) as [c |]; simpl; auto.
  destruct (str_truthy c); simpl; auto.
Qed.

(** [_get_json], by contrast, starts with [_ensure_token]. *)
Lemma get_json_ensures_token fuel endpoint params st :
  _get_json fuel endpoint params st
  = (_ensure_token fuel ;;
     s <- get ;;
     raw <- _do_request fuel
              (Request (_build_url s endpoint params) (_headers s)) 1 ;;
     try_except (json_loads raw)
       (fun e => match e with
                 | JSONDecodeError => ret (JDict [])
                 | _ => raise e
                 end)) st.
Proof. reflexivity. Qed.

(** C2 (defect).  On a client just constructed, [_cursor_or_offset_collect]
    and [list_devices] send their first request with
    [Authorization: Bearer None]: no token was asked for.  The token is
    only obtained after the vendor's 401, and the request is then sent
    again with it.  [_get_json] authenticates first and sends its request
    with the token. *)
Theorem collect_sends_without_token :
  authorizations (trace (snd Sample.first_collect))
  = [Some (HBearer JNull); None; Some (HBearer (JStr "NEW"))]
  /\ attempts (trace (snd Sample.first_collect)) = [1; 1; 2]
  /\ authorizations (trace (snd Sample.first_list_devices))
     = [Some (HBearer JNull); None; Some (HBearer (JStr "NEW"))]
  /\ authorizations (trace (snd Sample.first_get_json))
     = [None; Some (HBearer (JStr "NEW"))]
  /\ token_fresh (Sample.fresh Sample.oauth_cfg Sample.strict_vendor) = false.
Proof. vm_compute. repeat split. Qed.

(* ------------------------------------------------------------------ *)
(** ** Enough fuel: more than the responses left in the script *)

#[export] Instance script_shrinks_respects :
  Respects script_shrinks (fun _ => True).
Proof.
  split; unfold script_shrinks; simpl; intros; auto; try lia.
  rewrite H0. simpl. lia.
Qed.

Section Within.

Variable b : nat.

Lemma within_ret {A} (a : A) : within b (ret a).
Proof. intros st H. simpl. split; [discriminate | exact H]. Qed.

Lemma within_raise {A} e : within b (@raise A e).
Proof. intros st H. simpl. split; [discriminate | exact H]. Qed.

Lemma within_get : within b get.
Proof. intros st H. simpl. split; [discriminate | exact H]. Qed.

Lemma within_time_time : within b time_time.
Proof. intros st H. simpl. split; [discriminate | exact H]. Qed.

Lemma within_modify f :
  (forall st, script (f st) = script st) -> within b (modify f).
Proof.
  intros Hf st H. simpl. rewrite Hf. split; [discriminate | exact H].
Qed.

Lemma within_bind {A B} (m : M A) (k : A -> M B) :
  within b m -> (forall a, within b (k a)) -> within b (bind m k).
Proof.
  intros Hm Hk st H. unfold bind.
  destruct (Hm st H) as [Hr Hl].
  destruct (m st) as [[a | e | w] st1]; simpl in *.
  - apply Hk, Hl.
  - split; [discriminate | exact Hl].
  - split; [| exact Hl]. intros [= ->]. apply Hr. reflexivity.
Qed.

Lemma within_try_except {A} (m : M A) (h : exn -> M A) :
  within b m -> (forall e, within b (h e)) -> within b (try_except m h).
Proof.
  intros Hm Hh st H. unfold try_except.
  destruct (Hm st H) as [Hr Hl].
  destruct (m st) as [[a | e | w] st1]; simpl in *.
  - split; [discriminate | exact Hl].
  - apply Hh, Hl.
  - split; [exact Hr | exact Hl].
Qed.

Lemma within_if {A} (c : bool) (m1 m2 : M A) :
  within b m1 -> within b m2 -> within b (if c then m1 else m2).
Proof. destruct c; auto. Qed.

Lemma within_time_sleep d : within b (time_sleep d).
Proof.
  intros st H. unfold time_sleep.
  destruct (Qltb d 0); simpl; (split; [discriminate | exact H]).
Qed.

Lemma within_when c (m : M unit) : within b m -> within b (when c m).
Proof. intro Hm. destruct c; simpl; [exact Hm | apply within_ret]. Qed.

Lemma within_json_loads raw : within b (json_loads raw).
Proof. destruct raw; simpl; [apply within_ret | apply within_raise ..]. Qed.

Lemma within_try_loads raw : within b (try_loads raw).
Proof.
  unfold try_loads. apply within_try_except.
  - apply within_bind; [apply within_json_loads | intro; apply within_ret].
  - intro; apply within_ret.
Qed.

Lemma within_lacks_access_token js : within b (lacks_access_token js).
Proof.
  unfold lacks_access_token.
  destruct (negb (truthy js)); [apply within_ret |].
  destruct js; first [apply within_ret | apply within_raise].
Qed.

Lemma within_seconds_of ttl : within b (seconds_of ttl).
Proof. destruct ttl; simpl; first [apply within_ret | apply within_raise]. Qed.

Lemma within_authenticate_with (dr : request -> Z -> M bytes) :
  (forall req a, within b (dr req a)) -> within b (_authenticate_with dr).
Proof.
  intro Hdr. unfold _authenticate_with.
  apply within_bind; [apply within_get | intro st0].
  apply within_if; [apply within_raise |].
  assert (Hbearer : within b
            (modify (set_token (JStr (client_secret (cfg st0)))) ;;
             now <- time_time ;;
             modify (set_expires_at (Some (now + 7200)%Q)))).
  { apply within_bind; [apply within_modify; reflexivity | intros _].
    apply within_bind; [apply within_time_time | intro now].
    apply within_modify; reflexivity. }
  assert (Hpost : forall req,
            within b (try_except (raw <- dr req 1 ;; json_loads raw)
                                 (fun _ => ret JNull))).
  { intros req. apply within_try_except.
    - apply within_bind; [apply Hdr | apply within_json_loads].
    - intro; apply within_ret. }
  destruct (client_id (cfg st0)) as [cid |]; [| exact Hbearer].
  destruct cid as [| c cid']; [exact Hbearer |].
  apply within_bind; [apply Hpost | intro js].
  apply within_bind; [apply within_lacks_access_token | intro missing].
  apply within_bind.
  { apply within_if; [apply Hpost | apply within_ret]. }
  intro js'.
  apply within_bind; [apply within_lacks_access_token | intro missing'].
  apply within_if; [apply within_raise |].
  destruct js'; try apply within_raise.
  apply within_bind; [apply within_modify; reflexivity | intros _].
  apply within_bind; [apply within_seconds_of | intro ttl].
  apply within_bind; [apply within_time_time | intro now].
  apply within_modify; reflexivity.
Qed.

Lemma within_on_response (dr : request -> Z -> M bytes) req attempt resp :
  (forall r a, within b (dr r a)) -> within b (on_response dr req attempt resp).
Proof.
  intros IH. unfold on_response.
  destruct resp as [raw | status ra body | reason | name].
  - apply within_ret.
  - apply within_if.
    + apply within_try_except; [| intro; apply within_raise].
      apply within_bind; [apply within_modify; reflexivity | intros _].
      apply within_bind; [apply within_modify; reflexivity | intros _].
      apply within_bind; [apply within_authenticate_with, IH | intros _].
      apply within_bind; [apply within_get | intro st1]. apply IH.
    + apply within_bind.
      { apply within_if; [| apply within_ret].
        apply within_bind; [apply within_get | intro st1].
        apply within_bind; [apply within_time_sleep | intros _].
        apply within_modify; reflexivity. }
      intros _.
      apply within_bind; [apply within_get | intro st1].
      apply within_if; [| apply within_raise].
      apply within_bind; [apply within_when, within_time_sleep | intros _].
      apply IH.
  - apply within_bind; [apply within_get | intro st1].
    apply within_if; [| apply within_raise].
    apply within_bind; [apply within_time_sleep | intros _].
    apply IH.
  - apply within_raise.
Qed.

End Within.

Lemma within_do_request fuel :
  forall b req attempt,
    (b < fuel)%nat -> within b (_do_request fuel req attempt).
Proof.
  induction fuel as [| fuel IH]; intros b req attempt Hb; [lia |].
  intros st Hlen.
  destruct (script st) as [| resp rest] eqn:Hs.
  - rewrite (do_request_no_response _ _ _ _ Hs). cbn [fst snd].
    destruct (throttled_fields st) as (_ & _ & _ & _ & ->). rewrite Hs.
    split; [discriminate | exact Hlen].
  - rewrite (do_request_unfold _ _ _ _ _ _ Hs).
    simpl in Hlen.
    destruct (within_on_response (length rest) (_do_request fuel) req attempt
                resp (fun r a => IH (length rest) r a ltac:(lia))
                (exchanged req attempt rest st)) as [Hr Hl].
    { destruct (exchanged_fields req attempt rest st) as (_ & _ & -> & _).
      lia. }
    split; [exact Hr | lia].
Qed.

(** A call that returns has consumed at least one response. *)
Lemma do_request_consumes fuel req attempt st raw st1 :
  _do_request fuel req attempt st = (Ret raw, st1) ->
  (length (script st1) < length (script st))%nat.
Proof.
  destruct fuel as [| fuel]; [discriminate |].
  destruct (script st) as [| resp rest] eqn:Hs.
  - rewrite (do_request_no_response _ _ _ _ Hs). discriminate.
  - rewrite (do_request_unfold _ _ _ _ _ _ Hs). intro H.
    pose proof (keeps_on_response (R := script_shrinks) (_do_request fuel)
                  req attempt resp
                  (fun r a _ => keeps_do_request fuel r a I) I
                  (exchanged req attempt rest st)) as Hk.
    rewrite H in Hk. unfold script_shrinks in Hk. cbn [snd] in Hk.
    destruct (exchanged_fields req attempt rest st) as (_ & _ & Hx & _).
    rewrite Hx in Hk. simpl. lia.
Qed.

Lemma time_sleep_script d st : script (snd (time_sleep d st)) = script st.
Proof. unfold time_sleep. destruct (Qltb d 0); reflexivity. Qed.

Lemma do_request_enough fuel req attempt st :
  (length (script st) < fuel)%nat ->
  fst (_do_request fuel req attempt st) <> Abort OutOfFuel.
Proof.
  intro H. apply (within_do_request fuel (length (script st)) req attempt H st).
  lia.
Qed.

Lemma cursor_loop_enough fuel endpoint root_keys sp annotate delay n :
  forall next_token page collected st,
    (length (script st) < n)%nat ->
    (length (script st) < fuel)%nat ->
    fst (cursor_loop fuel endpoint root_keys sp annotate delay n next_token
           page collected st) <> Abort OutOfFuel.
Proof.
  induction n as [| n IH]; intros next_token page collected st Hn Hf; [lia |].
  cbn [cursor_loop]. unfold bind at 1. cbn [get].
  destruct (truthy next_token && (page <? max_pages_per_call (cfg st)));
    [| discriminate].
  unfold bind at 1.
  pose proof (do_request_enough fuel
                (Request (_build_url st endpoint (("next", next_token) :: sp))
                         (_headers st)) 1 st Hf) as Hoof.
  destruct (_do_request fuel _ 1 st) as [[raw | e | w] st1] eqn:Hreq;
    [| discriminate | intros [= ->]; apply Hoof; reflexivity].
  apply do_request_consumes in Hreq.
  unfold bind at 1. rewrite try_loads_eq.
  destruct raw as [js | text |]; try discriminate.
  destruct (_extract_items root_keys js) as [| it items]; [discriminate |].
  unfold bind at 1.
  destruct delay.
  - unfold bind at 1. cbn [get].
    pose proof (time_sleep_script (page_pause st1) st1) as Hsl.
    destruct (time_sleep (page_pause st1) st1) as [[[] | e | w] st2] eqn:Hs;
      cbn [snd] in Hsl.
    + apply IH; rewrite Hsl; lia.
    + discriminate.
    + unfold time_sleep in Hs. destruct (Qltb (page_pause st1) 0); discriminate.
  - cbn [ret]. apply IH; lia.
Qed.

(** With more fuel than responses left in the script, a pagination call
    never stops for lack of fuel: it returns, raises, or has used up the
    script. *)
Lemma collect_enough fuel endpoint root_keys params annotate delay st :
  (length (script st) < fuel)%nat ->
  fst (_cursor_or_offset_collect fuel endpoint root_keys params annotate
         delay st) <> Abort OutOfFuel.
Proof.
  intro Hf. unfold _cursor_or_offset_collect.
  unfold bind at 1. cbn [get]. unfold bind at 1.
  match goal with
  | |- context [_do_request fuel ?r 1 st] =>
      pose proof (do_request_enough fuel r 1 st Hf) as Hoof;
      destruct (_do_request fuel r 1 st) as [[raw | e | w] st1] eqn:Hreq
  end; [| discriminate | intros [= ->]; apply Hoof; reflexivity].
  apply do_request_consumes in Hreq.
  unfold bind at 1. rewrite try_loads_eq.
  destruct raw as [js | text |]; try discriminate.
  apply cursor_loop_enough; lia.
Qed.


Lemma device_key_state py_str d st : snd (device_key py_str d st) = st.
Proof.
  unfold device_key. destruct d; try reflexivity.
  repeat match goal with
         | |- context [if ?c then _ else _] => destruct c
         end; reflexivity.
Qed.

Lemma dedup_page_state py_str page_items :
  forall collected seen_keys st,
    snd (dedup_page py_str page_items collected seen_keys st) = st
    /\ fst (dedup_page py_str page_items collected seen_keys st)
       <> Abort OutOfFuel.
Proof.
  induction page_items as [| d rest IH]; intros collected seen_keys st;
    cbn [dedup_page].
  - split; [reflexivity | discriminate].
  - unfold bind.
    pose proof (device_key_state py_str d st) as Hk.
    destruct (device_key py_str d st) as [[key | e | w] st1] eqn:Hd;
      cbn [snd] in Hk; subst st1.
    + repeat match goal with
             | |- context [if ?c then _ else _] => destruct c
             end; try apply IH.
      split; [reflexivity | discriminate].
    + split; [reflexivity | discriminate].
    + unfold device_key in Hd. destruct d; try discriminate.
      repeat match type of Hd with
             | context [if ?c then _ else _] => destruct c
             end; discriminate.
Qed.

Lemma devices_loop_enough py_str fuel sort_expr n :
  forall page next_token collected seen_keys st,
    (length (script st) < n)%nat ->
    (length (script st) < fuel)%nat ->
    fst (devices_loop py_str fuel sort_expr n page next_token collected
           seen_keys st) <> Abort OutOfFuel.
Proof.
  induction n as [| n IH];
    intros page next_token collected seen_keys st Hn Hf; [lia |].
  cbn [devices_loop]. unfold bind at 1. cbn [get]. unfold bind at 1.
  match goal with
  | |- context [_do_request fuel ?r 1 st] =>
      pose proof (do_request_enough fuel r 1 st Hf) as Hoof;
      destruct (_do_request fuel r 1 st) as [[raw | e | w] st1] eqn:Hreq
  end; [| discriminate | intros [= ->]; apply Hoof; reflexivity].
  apply do_request_consumes in Hreq.
  unfold bind at 1. rewrite try_loads_eq.
  destruct raw as [js | text |]; try discriminate.
  destruct (device_items js) as [| it items]; [discriminate |].
  unfold bind at 1.
  destruct (dedup_page_state py_str (it :: items) collected seen_keys st1)
    as [Hst Hres].
  destruct (dedup_page py_str (it :: items) collected seen_keys st1)
    as [[[c s] | e | w] st2]; cbn [fst snd] in *; subst st2;
    [| discriminate | intros [= ->]; apply Hres; reflexivity].
  destruct (negb (truthy (next_of js))); [discriminate |].
  unfold bind at 1. cbn [get].
  destruct (max_pages_per_call (cfg st1) <=? page + 1); [discriminate |].
  unfold bind at 1.
  pose proof (time_sleep_script (page_pause st1) st1) as Hsl.
  destruct (time_sleep (page_pause st1) st1) as [[[] | e | w] st2] eqn:Hs;
    cbn [snd] in Hsl.
  - apply IH; rewrite Hsl; lia.
  - discriminate.
  - unfold time_sleep in Hs. destruct (Qltb (page_pause st1) 0); discriminate.
Qed.

Lemma list_devices_enough py_str fuel sort_expr st :
  (length (script st) < fuel)%nat ->
  fst (list_devices py_str fuel sort_expr st) <> Abort OutOfFuel.
Proof. intro Hf. apply devices_loop_enough; exact Hf. Qed.

(* ------------------------------------------------------------------ *)
(** ** Statuses that are not retried, server errors, network errors *)

Lemma fatal_status_now fuel req attempt st status ra body rest :
  script st = RespHTTPError status ra body :: rest ->
  retriable_status status = false ->
  (status =? 401) && (attempt =? 1) && token_problem body = false ->
  _do_request (S fuel) req attempt st
  = (Raise (HTTPError status ra body), exchanged req attempt rest st).
Proof.
  intros Hs Hr H401.
  rewrite (do_request_unfold _ _ _ _ _ _ Hs). unfold on_response.
  rewrite H401, Hr.
  assert (H429 : (status =? 429) = false).
  { destruct (status =? 429) eqn:E; [| reflexivity].
    apply Z.eqb_eq in E. subst. discriminate. }
  rewrite H429. reflexivity.
Qed.



(** X3.  A 500, 502, 503 or 504 is retried as attempt + 1 after the
    plain backoff [min(2^(attempt-1) * min_interval, max_backoff)] while
    [attempt < max_retries], and raised without any sleep otherwise; in
    both cases [min_interval] stays as it was. *)
Theorem server_error_backoff (fuel : nat) (req : request) (attempt : Z)
  (st : state) (status : Z) (ra : option header_value) (body : string)
  (rest : list response) :
  1 <= attempt ->
  script st = RespHTTPError status ra body :: rest ->
  server_error status = true ->
  (0 <= backoff_delay attempt (min_interval st) (max_backoff (cfg st)))%Q ->
  _do_request (S fuel) req attempt st
  = (if attempt <? max_retries (cfg st)
     then _do_request fuel req (attempt + 1) (after_backoff req attempt rest st)
     else (Raise (HTTPError status ra body), exchanged req attempt rest st))
  /\ trace (after_backoff req attempt rest st)
     = (trace (throttled st)
        ++ [EvSend req attempt;
            EvSleep (backoff_delay attempt (min_interval st)
                                   (max_backoff (cfg st)))])%list
  /\ min_interval (after_backoff req attempt rest st) = min_interval st.
Proof.
  intros _ Hs Hse Hd.
  destruct (exchanged_fields req attempt rest st) as (Hcfg & Hmi & _ & Htr).
  assert (Hcodes : status = 500 \/ status = 502 \/ status = 503 \/ status = 504).
  { unfold server_error in Hse. cbn [existsb] in Hse.
    repeat (apply orb_true_iff in Hse; destruct Hse as [Hse | Hse];
            [apply Z.eqb_eq in Hse; auto |]).
    discriminate. }
  split; [| split].
  - rewrite (do_request_unfold _ _ _ _ _ _ Hs). unfold on_response.
    assert (H401 : (status =? 401) = false)
      by (destruct Hcodes as [-> | [-> | [-> | ->]]]; reflexivity).
    assert (H429 : (status =? 429) = false)
      by (destruct Hcodes as [-> | [-> | [-> | ->]]]; reflexivity).
    assert (Hr : retriable_status status = true)
      by (destruct Hcodes as [-> | [-> | [-> | ->]]]; reflexivity).
    rewrite H401, H429, Hr. cbn [andb negb when].
    unfold bind at 1. cbn [ret]. unfold bind at 1. cbn [get].
    rewrite Hcfg, Hmi.
    destruct (attempt <? max_retries (cfg st)); [| reflexivity].
    unfold bind at 1. rewrite time_sleep_nonneg by exact Hd. reflexivity.
  - unfold after_backoff, slept. cbn [trace set_world].
    rewrite Htr, <- app_assoc. reflexivity.
  - unfold after_backoff, slept. cbn [min_interval set_world]. exact Hmi.
Qed.

Lemma server_error_backoff_witness :
  _do_request 2 (Sample.sites_request (JStr "tok")) 1
    (Cases.ready [Sample.unavailable; RespOk Sample.one_page])
  = (if 1 <? max_retries Sample.bearer_cfg
     then _do_request 1 (Sample.sites_request (JStr "tok")) 2
            (after_backoff (Sample.sites_request (JStr "tok")) 1
               [RespOk Sample.one_page]
               (Cases.ready [Sample.unavailable; RespOk Sample.one_page]))
     else (Raise (HTTPError 503 None EmptyString),
           exchanged (Sample.sites_request (JStr "tok")) 1
             [RespOk Sample.one_page]
             (Cases.ready [Sample.unavailable; RespOk Sample.one_page]))).
Proof.
  apply (server_error_backoff 1 (Sample.sites_request (JStr "tok")) 1
           (Cases.ready [Sample.unavailable; RespOk Sample.one_page])
           503 None EmptyString [RespOk Sample.one_page]).
  - lia.
  - reflexivity.
  - reflexivity.
  - vm_compute. discriminate.
Defined.

(** X4.  A network error ([URLError]) is retried after the same backoff
    while [attempt < max_retries] and raised otherwise; any other
    exception of [urlopen] is raised at once. *)
Theorem network_error_backoff (fuel : nat) (req : request) (attempt : Z)
  (st : state) (reason : string) (rest : list response) :
  1 <= attempt ->
  script st = RespURLError reason :: rest ->
  (0 <= backoff_delay attempt (min_interval st) (max_backoff (cfg st)))%Q ->
  _do_request (S fuel) req attempt st
  = (if attempt <? max_retries (cfg st)
     then _do_request fuel req (attempt + 1) (after_backoff req attempt rest st)
     else (Raise (URLError reason), exchanged req attempt rest st)).
Proof.
  intros _ Hs Hd.
  destruct (exchanged_fields req attempt rest st) as (Hcfg & Hmi & _ & Htr).
  rewrite (do_request_unfold _ _ _ _ _ _ Hs). unfold on_response.
  unfold bind at 1. cbn [get]. rewrite Hcfg, Hmi.
  destruct (attempt <? max_retries (cfg st)); [| reflexivity].
  unfold bind at 1. rewrite time_sleep_nonneg by exact Hd. reflexivity.
Qed.

Lemma network_error_backoff_witness :
  _do_request 2 (Sample.sites_request (JStr "tok")) 1
    (Cases.ready [Cases.timed_out; RespOk Sample.one_page])
  = (if 1 <? max_retries Sample.bearer_cfg
     then _do_request 1 (Sample.sites_request (JStr "tok")) 2
            (after_backoff (Sample.sites_request (JStr "tok")) 1
               [RespOk Sample.one_page]
               (Cases.ready [Cases.timed_out; RespOk Sample.one_page]))
     else (Raise (URLError "timed out"),
           exchanged (Sample.sites_request (JStr "tok")) 1
             [RespOk Sample.one_page]
             (Cases.ready [Cases.timed_out; RespOk Sample.one_page]))).
Proof.
  apply (network_error_backoff 1 (Sample.sites_request (JStr "tok")) 1
           (Cases.ready [Cases.timed_out; RespOk Sample.one_page])
           "timed out" [RespOk Sample.one_page]).
  - lia.
  - reflexivity.
  - vm_compute. discriminate.
Defined.

(* ------------------------------------------------------------------ *)
(** ** The minimum interval between requests *)

(** Whatever the client's history, an exchange is stamped no earlier than
    the previous stamp plus [min_interval], and its stamp is the clock. *)
Lemma exchanged_stamp req attempt rest st :
  (_last_request_ts st + min_interval st
   <= _last_request_ts (exchanged req attempt rest st))%Q
  /\ _last_request_ts (exchanged req attempt rest st)
     == clock (exchanged req attempt rest st).
Proof.
  unfold exchanged, sent, throttled.
  destruct (Qltb 0 (min_interval st - (clock st - _last_request_ts st)))
    eqn:Hw;
    cbn [_last_request_ts clock set_world set_last_request_ts slept].
  - apply Qltb_lt in Hw. split; lra.
  - apply Qltb_ge in Hw. split; lra.
Qed.

(** X5.  Two requests in a row that are both answered are sent at least
    [min_interval] apart: the second is stamped no earlier than the
    first one's stamp plus the interval, whatever happened in between. *)
Theorem requests_spaced_by_min_interval (fuel1 fuel2 : nat)
  (req1 req2 : request) (a1 a2 : Z) (raw1 raw2 : bytes)
  (rest : list response) (st : state) :
  script st = RespOk raw1 :: RespOk raw2 :: rest ->
  fst (_do_request (S fuel1) req1 a1 st) = Ret raw1
  /\ fst (_do_request (S fuel2) req2 a2
            (snd (_do_request (S fuel1) req1 a1 st))) = Ret raw2
  /\ (_last_request_ts (snd (_do_request (S fuel1) req1 a1 st))
      + min_interval st
      <= _last_request_ts
           (snd (_do_request (S fuel2) req2 a2
                   (snd (_do_request (S fuel1) req1 a1 st)))))%Q.
Proof.
  intro Hs.
  rewrite (do_request_ok _ _ _ _ _ _ Hs). cbn [fst snd].
  destruct (exchanged_fields req1 a1 (RespOk raw2 :: rest) st)
    as (_ & Hmi & Hscript & _).
  rewrite (do_request_ok _ _ _ _ _ _ Hscript). cbn [fst snd].
  split; [reflexivity |]. split; [reflexivity |].
  rewrite <- Hmi. apply exchanged_stamp.
Qed.

Lemma requests_spaced_by_min_interval_witness :
  (_last_request_ts
     (snd (_do_request 1 (Sample.sites_request (JStr "tok")) 1
             (Cases.ready [RespOk Sample.one_page; RespOk Sample.one_page])))
   + min_interval
       (Cases.ready [RespOk Sample.one_page; RespOk Sample.one_page])
   <= _last_request_ts
        (snd (_do_request 1 (Sample.sites_request (JStr "tok")) 1
                (snd (_do_request 1 (Sample.sites_request (JStr "tok")) 1
                        (Cases.ready [RespOk Sample.one_page;
                                      RespOk Sample.one_page]))))))%Q.
Proof.
  apply (requests_spaced_by_min_interval 0 0
           (Sample.sites_request (JStr "tok"))
           (Sample.sites_request (JStr "tok")) 1 1 Sample.one_page
           Sample.one_page []
           (Cases.ready [RespOk Sample.one_page; RespOk Sample.one_page])).
  reflexivity.
Defined.

(* ------------------------------------------------------------------ *)
(** ** The retry budget of one logical request *)

Lemma resource_attempts_app tr1 tr2 :
  resource_attempts (tr1 ++ tr2)
  = (resource_attempts tr1 ++ resource_attempts tr2)%list.
Proof.
  unfold resource_attempts, attempts.
  rewrite filter_app, flat_map_app. reflexivity.
Qed.

#[export] Instance quiet_respects : Respects quiet is_post.
Proof.
  split; unfold quiet, is_post; simpl; intros.
  - split; [reflexivity | exists []; rewrite app_nil_r; auto].
  - destruct H as (C1 & e1 & E1 & F1), H0 as (C2 & e2 & E2 & F2).
    split; [congruence |].
    exists (e1 ++ e2)%list. rewrite E2, E1, app_assoc.
    split; [reflexivity |]. rewrite resource_attempts_app, F1, F2. reflexivity.
  - split; [reflexivity | exists []; rewrite app_nil_r; auto].
  - split; [reflexivity | exists []; rewrite app_nil_r; auto].
  - split; [reflexivity | exists []; rewrite app_nil_r; auto].
  - split; [reflexivity | exists []; rewrite app_nil_r; auto].
  - split; [reflexivity | exists [EvSleep d]; auto].
  - split; [reflexivity | exists [EvSend req a]].
    split; [reflexivity |].
    unfold resource_attempts. cbn [filter resource_send]. rewrite H.
    reflexivity.
  - exact H.
  - exact H.
Qed.

Lemma quiet_retries a bound st st' :
  a - 1 <= bound -> quiet st st' -> retries_from a bound st st'.
Proof.
  intros Hb (C & evs & E & F). split; [exact C |].
  exists evs, 0%nat. rewrite F. simpl. split; [exact E | split; [reflexivity | lia]].
Qed.

Lemma quiet_then_retries a bound st s st' :
  quiet st s -> retries_from a bound s st' -> retries_from a bound st st'.
Proof.
  intros (C1 & e1 & E1 & F1) (C2 & e2 & k & E2 & F2 & B).
  split; [congruence |].
  exists (e1 ++ e2)%list, k. rewrite E2, E1, app_assoc.
  split; [reflexivity |]. rewrite resource_attempts_app, F1.
  split; [exact F2 | exact B].
Qed.

Lemma retries_weaken a b b' st st' :
  b <= b' -> retries_from a b st st' -> retries_from a b' st st'.
Proof.
  intros Hb (C & evs & k & E & F & B). split; [exact C |].
  exists evs, k. repeat split; try assumption. lia.
Qed.

(** A quiet prefix followed by a continuation that retries. *)
Lemma retries_bind {A B} a bound (m : M A) (k : A -> M B) st :
  a - 1 <= bound ->
  keeps quiet m ->
  (forall x s, cfg s = cfg st -> retries_from a bound s (snd (k x s))) ->
  retries_from a bound st (snd (bind m k st)).
Proof.
  intros Hb Hm Hk. unfold bind. specialize (Hm st).
  destruct (m st) as [[x | e | w] s]; simpl in *.
  - eapply quiet_then_retries; [exact Hm |]. apply Hk. apply Hm.
  - apply quiet_retries; assumption.
  - apply quiet_retries; assumption.
Qed.

Lemma retries_try_raise {A} a bound (m : M A) (f : exn -> exn) st :
  retries_from a bound st (snd (m st)) ->
  retries_from a bound st (snd (try_except m (fun e => raise (f e)) st)).
Proof.
  unfold try_except. destruct (m st) as [[x | e | w] s]; simpl; auto.
Qed.

Lemma keeps_quiet_modify_inflate : keeps quiet (modify inflate_interval).
Proof. intro st. apply (R_inflate (R := quiet)). Qed.

(** What [_do_request] does after the exchange of attempt [a]: further
    resource requests, if any, are attempts [a + 1], [a + 2], ... *)
Lemma on_response_retries (dr : request -> Z -> M bytes) req a resp st :
  method req = None ->
  1 <= a ->
  (forall req' s, method req' = None -> cfg s = cfg st ->
     retries_from (a + 1) (Z.max (a + 1) (max_retries (cfg st))) s
                  (snd (dr req' (a + 1) s))) ->
  keeps quiet (_authenticate_with dr) ->
  retries_from (a + 1)
    (Z.max (if a =? 1 then 2 else a) (max_retries (cfg st)))
    st (snd (on_response dr req a resp st)).
Proof.
  intros Hm Ha Hdr Hauth.
  set (bound := Z.max (if a =? 1 then 2 else a) (max_retries (cfg st))).
  assert (Hb : a + 1 - 1 <= bound)
    by (unfold bound; destruct (Z.eqb_spec a 1); lia).
  unfold on_response. destruct resp as [raw | status ra body | reason | name].
  - apply quiet_retries; [exact Hb | apply (R_refl (R := quiet))].
  - destruct ((status =? 401) && (a =? 1) && token_problem body) eqn:H401.
    + apply andb_true_iff in H401. destruct H401 as [H401 _].
      apply andb_true_iff in H401. destruct H401 as [_ Ha1].
      apply retries_try_raise.
      apply retries_bind; [exact Hb | apply keeps_set_token | intros _ s1 C1].
      apply retries_bind; [lia | apply keeps_set_expires_at | intros _ s2 C2].
      apply retries_bind; [lia | exact Hauth | intros _ s3 C3].
      change (retries_from (a + 1) bound s3
                (snd (dr (rebuild req (_headers s3)) (a + 1) s3))).
      eapply retries_weaken; [| apply Hdr; [exact Hm | congruence]].
      unfold bound. rewrite Ha1. apply Z.eqb_eq in Ha1. lia.
    + apply retries_bind; [exact Hb | | intros _ s1 C1].
      { apply keeps_if; [| apply keeps_ret].
        apply keeps_bind; [apply keeps_get | intro s0].
        apply keeps_bind; [apply keeps_time_sleep | intros _].
        apply keeps_quiet_modify_inflate. }
      change (retries_from (a + 1) bound s1
                (snd ((if retriable_status status
                          && (a <? max_retries (cfg s1))
                       then when (negb (status =? 429))
                              (time_sleep (backoff_delay a (min_interval s1)
                                             (max_backoff (cfg s1)))) ;;
                            dr req (a + 1)
                       else raise (HTTPError status ra body)) s1))).
      destruct (retriable_status status && (a <? max_retries (cfg s1)))
        eqn:Hretry.
      * apply andb_true_iff in Hretry. destruct Hretry as [_ Hlt].
        apply Z.ltb_lt in Hlt. rewrite C1 in Hlt.
        apply retries_bind;
          [lia | apply keeps_when, keeps_time_sleep | intros _ s2 C2].
        eapply retries_weaken; [| apply Hdr; [exact Hm | congruence]].
        unfold bound. destruct (Z.eqb_spec a 1); lia.
      * apply quiet_retries; [lia | apply (R_refl (R := quiet))].
  - change (retries_from (a + 1) bound st
              (snd ((if a <? max_retries (cfg st)
                     then time_sleep (backoff_delay a (min_interval st)
                                        (max_backoff (cfg st))) ;;
                          dr req (a + 1)
                     else raise (URLError reason)) st))).
    destruct (a <? max_retries (cfg st)) eqn:Hlt.
    + apply Z.ltb_lt in Hlt.
      apply retries_bind; [lia | apply keeps_time_sleep | intros _ s2 C2].
      eapply retries_weaken; [| apply Hdr; [exact Hm | congruence]].
      unfold bound. destruct (Z.eqb_spec a 1); lia.
    + apply quiet_retries; [lia | apply (R_refl (R := quiet))].
  - apply quiet_retries; [lia | apply (R_refl (R := quiet))].
Qed.

Lemma quiet_throttled st : quiet st (throttled st).
Proof.
  assert (H := keeps_throttle (R := quiet) st).
  rewrite throttle_eq in H. exact H.
Qed.

Lemma do_request_retries fuel : forall req a st,
  method req = None ->
  1 <= a ->
  retries_from a (Z.max (if a =? 1 then 2 else a) (max_retries (cfg st)))
    st (snd (_do_request fuel req a st)).
Proof.
  induction fuel as [| fuel IH]; intros req a st Hm Ha.
  - apply quiet_retries; [destruct (Z.eqb_spec a 1); lia | apply (R_refl (R := quiet))].
  - destruct (script st) as [| resp rest] eqn:Hs.
    + rewrite (do_request_no_response _ _ _ _ Hs). simpl.
      apply quiet_retries; [destruct (Z.eqb_spec a 1); lia |].
      apply quiet_throttled.
    + rewrite (do_request_unfold _ _ _ _ _ _ Hs).
      destruct (exchanged_fields req a rest st) as (Hcfg & _ & _ & Htr).
      destruct (quiet_throttled st) as (Cq & eq & Eq & Fq).
      assert (Hon := on_response_retries (_do_request fuel) req a resp
                       (exchanged req a rest st) Hm Ha).
      rewrite Hcfg in Hon.
      destruct Hon as (C & evs & k & E & F & B).
      * intros req' s Hm' Cs.
        assert (H := IH req' (a + 1) s Hm' ltac:(lia)).
        replace (a + 1 =? 1) with false in H
          by (symmetry; apply Z.eqb_neq; lia).
        rewrite Cs in H. exact H.
      * apply keeps_authenticate.
      * split; [congruence |].
        exists (eq ++ [EvSend req a] ++ evs)%list, (S k).
        rewrite E, Htr, Eq. repeat rewrite <- app_assoc.
        split; [reflexivity |].
        rewrite resource_attempts_app, Fq.
        rewrite resource_attempts_app, F.
        unfold resource_attempts at 1. cbn [filter resource_send].
        rewrite Hm. cbn [attempts flat_map app].
        cbn [seq map]. rewrite <- seq_shift, map_map.
        split.
        -- f_equal; [f_equal; lia |].
           apply map_ext. intro i. lia.
        -- lia.
Qed.

(** X1.  One logical resource request makes at most [max(max_retries,
    2)] physical attempts, numbered 1, 2, ... without a gap; the
    requests to the token endpoint made in between are not resource
    requests. *)
Theorem retry_budget (fuel : nat) (req : request) (st : state) :
  method req = None ->
  exists evs k,
    trace (snd (_do_request fuel req 1 st)) = (trace st ++ evs)%list
    /\ resource_attempts evs = map Z.of_nat (seq 1 k)
    /\ Z.of_nat k <= Z.max 2 (max_retries (cfg st)).
Proof.
  intro Hm.
  destruct (do_request_retries fuel req 1 st Hm ltac:(lia))
    as (_ & evs & k & E & F & B).
  exists evs, k. split; [exact E |]. split.
  - rewrite F, <- seq_shift, map_map. apply map_ext. intro i. lia.
  - cbn [Z.eqb Pos.eqb] in B. lia.
Qed.

Lemma retry_budget_witness :
  exists evs k,
    trace (snd (_do_request 5 (Sample.sites_request JNull) 1
                  Sample.unauthorized_then_503))
    = (trace Sample.unauthorized_then_503 ++ evs)%list
    /\ resource_attempts evs = map Z.of_nat (seq 1 k)
    /\ Z.of_nat k <= Z.max 2 (max_retries (cfg Sample.unauthorized_then_503)).
Proof.
  apply (retry_budget 5 (Sample.sites_request JNull)
           Sample.unauthorized_then_503).
  reflexivity.
Defined.

(* ------------------------------------------------------------------ *)
(** ** Counting the pages a run asks for *)

Lemma pages_requested_app tr1 tr2 :
  pages_requested (tr1 ++ tr2)
  = (pages_requested tr1 + pages_requested tr2)%nat.
Proof.
  unfold pages_requested.
  rewrite resource_attempts_app, filter_app, length_app. reflexivity.
Qed.

Lemma asks_refl c st : asks_at_most c st st.
Proof.
  split; [reflexivity |]. exists []. rewrite app_nil_r.
  split; [reflexivity | apply Nat.le_0_l].
Qed.

Lemma asks_trans c1 c2 a b c :
  asks_at_most c1 a b -> asks_at_most c2 b c -> asks_at_most (c1 + c2) a c.
Proof.
  intros (C1 & e1 & E1 & L1) (C2 & e2 & E2 & L2).
  split; [congruence |].
  exists (e1 ++ e2)%list. rewrite E2, E1, app_assoc.
  split; [reflexivity |]. rewrite pages_requested_app. lia.
Qed.

Lemma asks_weaken c c' st st' :
  (c <= c')%nat -> asks_at_most c st st' -> asks_at_most c' st st'.
Proof.
  intros Hc (C & evs & E & L). split; [exact C |].
  exists evs. split; [exact E | lia].
Qed.

Lemma quiet_asks st st' : quiet st st' -> asks_at_most 0 st st'.
Proof.
  intros (C & evs & E & F). split; [exact C |].
  exists evs. split; [exact E |]. unfold pages_requested. rewrite F.
  apply Nat.le_refl.
Qed.

Lemma first_attempts_once a k :
  1 <= a ->
  (length (filter (Z.eqb 1) (map (fun i => (a + Z.of_nat i)%Z) (seq 0 k)))
   <= 1)%nat.
Proof.
  intro Ha. destruct k as [| k]; [simpl; lia |].
  cbn [seq map filter]. rewrite <- seq_shift, map_map.
  assert (Hnone : filter (Z.eqb 1)
                    (map (fun i => a + Z.of_nat (S i)) (seq 0 k)) = []).
  { induction (seq 0 k) as [| i l IH]; [reflexivity |].
    cbn [map filter].
    replace (1 =? a + Z.of_nat (S i)) with false
      by (symmetry; apply Z.eqb_neq; lia).
    exact IH. }
  rewrite Hnone. destruct (1 =? a + Z.of_nat 0); simpl; lia.
Qed.

Lemma retries_asks bound st st' :
  retries_from 1 bound st st' -> asks_at_most 1 st st'.
Proof.
  intros (C & evs & k & E & F & _). split; [exact C |].
  exists evs. split; [exact E |]. unfold pages_requested. rewrite F.
  apply first_attempts_once. lia.
Qed.

Section Asks.

Variable cf : config.

Lemma asks_in_ret {A} (a : A) c : asks_in cf c (ret a).
Proof. intros st _. apply asks_weaken with 0%nat; [lia | apply asks_refl]. Qed.

Lemma asks_in_raise {A} e c : asks_in cf c (@raise A e).
Proof. intros st _. apply asks_weaken with 0%nat; [lia | apply asks_refl]. Qed.

Lemma asks_in_abort {A} w c : asks_in cf c (@abort A w).
Proof. intros st _. apply asks_weaken with 0%nat; [lia | apply asks_refl]. Qed.

Lemma asks_in_weaken {A} c c' (m : M A) :
  (c <= c')%nat -> asks_in cf c m -> asks_in cf c' m.
Proof. intros Hc Hm st Hst. eapply asks_weaken; [exact Hc | apply Hm, Hst]. Qed.

Lemma asks_in_quiet {A} (m : M A) c : keeps quiet m -> asks_in cf c m.
Proof.
  intros Hm st _. apply asks_weaken with 0%nat; [lia |].
  apply quiet_asks, Hm.
Qed.

Lemma asks_in_bind {A B} c1 c2 (m : M A) (k : A -> M B) :
  asks_in cf c1 m -> (forall a, asks_in cf c2 (k a)) ->
  asks_in cf (c1 + c2) (bind m k).
Proof.
  intros Hm Hk st Hst. unfold bind. specialize (Hm st Hst).
  destruct (m st) as [[a | e | w] s]; simpl in *.
  - eapply asks_trans; [exact Hm |]. apply Hk.
    destruct Hm as (C & _). congruence.
  - eapply asks_weaken; [| exact Hm]. lia.
  - eapply asks_weaken; [| exact Hm]. lia.
Qed.

Lemma asks_in_try_except {A} c1 c2 (m : M A) (h : exn -> M A) :
  asks_in cf c1 m -> (forall e, asks_in cf c2 (h e)) ->
  asks_in cf (c1 + c2) (try_except m h).
Proof.
  intros Hm Hh st Hst. unfold try_except. specialize (Hm st Hst).
  destruct (m st) as [[a | e | w] s]; simpl in *.
  - eapply asks_weaken; [| exact Hm]. lia.
  - eapply asks_trans; [exact Hm |]. apply Hh.
    destruct Hm as (C & _). congruence.
  - eapply asks_weaken; [| exact Hm]. lia.
Qed.

(** After [st <- get], the continuation runs from [st] itself. *)
Lemma asks_in_get {B} c (k : state -> M B) :
  (forall s, cfg s = cf -> asks_in cf c (k s)) ->
  asks_in cf c (bind get k).
Proof. intros Hk st Hst. exact (Hk st Hst st Hst). Qed.

Lemma asks_in_seq {A B} c (m : M A) (k : A -> M B) :
  keeps quiet m -> (forall a, asks_in cf c (k a)) ->
  asks_in cf c (bind m k).
Proof.
  intros Hm Hk. change c with (0 + c)%nat.
  apply asks_in_bind; [apply asks_in_quiet, Hm | exact Hk].
Qed.

Lemma asks_in_do_request fuel req :
  method req = None -> asks_in cf 1 (_do_request fuel req 1).
Proof.
  intros Hm st _. eapply retries_asks.
  apply (do_request_retries fuel req 1 st Hm). lia.
Qed.

(** A page request followed by what is done with the page. *)
Lemma asks_in_page {B} fuel req c (k : bytes -> M B) :
  method req = None -> (forall raw, asks_in cf c (k raw)) ->
  asks_in cf (S c) (bind (_do_request fuel req 1) k).
Proof.
  intros Hm Hk. change (S c) with (1 + c)%nat.
  apply asks_in_bind; [apply asks_in_do_request, Hm | exact Hk].
Qed.

Lemma cursor_loop_asks fuel endpoint root_keys sp annotate delay n :
  forall next_token page collected,
    asks_in cf (Z.to_nat (max_pages_per_call cf - page))
      (cursor_loop fuel endpoint root_keys sp annotate delay n next_token
                   page collected).
Proof.
  induction n as [| n IH]; intros next_token page collected; simpl.
  - apply asks_in_get. intros s Hs.
    destruct (truthy next_token && (page <? max_pages_per_call (cfg s)));
      [apply asks_in_abort | apply asks_in_ret].
  - apply asks_in_get. intros s Hs.
    destruct (truthy next_token && (page <? max_pages_per_call (cfg s)))
      eqn:Hc; [| apply asks_in_ret].
    apply andb_true_iff in Hc. destruct Hc as [_ Hlt].
    apply Z.ltb_lt in Hlt. rewrite Hs in Hlt.
    replace (Z.to_nat (max_pages_per_call cf - page))
      with (S (Z.to_nat (max_pages_per_call cf - (page + 1)))) by lia.
    apply asks_in_page; [reflexivity | intro raw].
    apply asks_in_seq; [apply keeps_try_loads | intros [js |]];
      [| apply asks_in_ret].
    destruct (_extract_items root_keys js); [apply asks_in_ret |].
    apply asks_in_seq; [| intros _; apply IH].
    apply keeps_if; [| apply keeps_ret].
    apply keeps_bind; [apply keeps_get | intro; apply keeps_time_sleep].
Qed.

Lemma collect_asks fuel endpoint root_keys params annotate delay :
  asks_in cf (Z.to_nat (Z.max 1 (max_pages_per_call cf)))
    (_cursor_or_offset_collect fuel endpoint root_keys params annotate delay).
Proof.
  unfold _cursor_or_offset_collect.
  apply asks_in_get. intros s Hs.
  apply asks_in_weaken with (S (Z.to_nat (max_pages_per_call cf - 1)));
    [lia |].
  apply asks_in_page; [reflexivity | intro raw].
  apply asks_in_seq; [apply keeps_try_loads | intros [js |]];
    [| apply asks_in_ret].
  apply cursor_loop_asks.
Qed.

End Asks.

(** X12.  One call of the collector asks for at most [max(1,
    max_pages_per_call)] pages, whatever the vendor answers: retries and
    token requests aside, that many resource requests go out. *)
Theorem collect_page_cap (fuel : nat) (endpoint : string)
  (root_keys : list string) (params : pydict) (annotate : callback)
  (delay : bool) (st : state) :
  exists evs,
    trace (snd (_cursor_or_offset_collect fuel endpoint root_keys params
                  annotate delay st))
    = (trace st ++ evs)%list
    /\ Z.of_nat (pages_requested evs) <= Z.max 1 (max_pages_per_call (cfg st)).
Proof.
  destruct (collect_asks (cfg st) fuel endpoint root_keys params annotate
              delay st eq_refl) as (_ & evs & E & L).
  exists evs. split; [exact E | lia].
Qed.

(* ------------------------------------------------------------------ *)
(** ** The page cap of the other loops *)

Lemma devices_loop_asks cf py_str fuel sort_expr n :
  forall page next_token collected seen_keys,
    asks_in cf (Z.to_nat (Z.max 1 (max_pages_per_call cf - page)))
      (devices_loop py_str fuel sort_expr n page next_token collected
                    seen_keys).
Proof.
  induction n as [| n IH]; intros page next_token collected seen_keys; simpl.
  - apply asks_in_abort.
  - apply asks_in_get. intros s Hs.
    destruct (Z_le_gt_dec (max_pages_per_call cf) (page + 1)) as [Hcap | Hgo].
    + apply asks_in_weaken with 1%nat; [lia |].
      apply asks_in_page; [reflexivity | intro raw].
      apply asks_in_seq; [apply keeps_try_loads | intros [js |]];
        [| apply asks_in_ret].
      destruct (device_items js) as [| it items]; [apply asks_in_ret |].
      apply asks_in_seq;
        [apply (keeps_dedup_page py_str (it :: items)) | intros [c k]].
      cbn [fst snd].
      destruct (negb (truthy (next_of js))); [apply asks_in_ret |].
      apply asks_in_get. intros s1 Hs1. rewrite Hs1.
      replace (max_pages_per_call cf <=? page + 1) with true
        by (symmetry; apply Z.leb_le; lia).
      apply asks_in_ret.
    + replace (Z.to_nat (Z.max 1 (max_pages_per_call cf - page)))
        with (S (Z.to_nat (Z.max 1 (max_pages_per_call cf - (page + 1)))))
        by lia.
      apply asks_in_page; [reflexivity | intro raw].
      apply asks_in_seq; [apply keeps_try_loads | intros [js |]];
        [| apply asks_in_ret].
      destruct (device_items js) as [| it items]; [apply asks_in_ret |].
      apply asks_in_seq;
        [apply (keeps_dedup_page py_str (it :: items)) | intros [c k]].
      cbn [fst snd].
      destruct (negb (truthy (next_of js))); [apply asks_in_ret |].
      apply asks_in_get. intros s1 Hs1.
      destruct (max_pages_per_call (cfg s1) <=? page + 1);
        [apply asks_in_ret |].
      apply asks_in_seq; [apply keeps_time_sleep | intros _]. apply IH.
Qed.

(** X13.  [list_devices] asks for at most [max(1, max_pages_per_call)]
    pages, whatever the vendor answers. *)
Theorem list_devices_page_cap (py_str : json -> string) (fuel : nat)
  (sort_expr : string) (st : state) :
  exists evs,
    trace (snd (list_devices py_str fuel sort_expr st))
    = (trace st ++ evs)%list
    /\ Z.of_nat (pages_requested evs) <= Z.max 1 (max_pages_per_call (cfg st)).
Proof.
  destruct (devices_loop_asks (cfg st) py_str fuel sort_expr fuel 0 JNull [] []
              st eq_refl) as (_ & evs & E & L).
  exists evs. split; [exact E | lia].
Qed.

Lemma keeps_quiet_ensure_token fuel : keeps quiet (_ensure_token fuel).
Proof. apply keeps_ensure_token. Qed.

(** One turn's request in the status loop: a page costs one request; the
    404 fallback costs the devices listing on top. *)
Lemma status_page_asks cf (exn_str : exn -> string) py_str fuel sort_expr
  (fallback : bool) req st :
  method req = None ->
  cfg st = cf ->
  sat (try_except
         (raw <- _do_request fuel req 1 ;; ret (@inl bytes (list json) raw))
         (fun e =>
            if contains "HTTP Error 404" (exn_str e) && fallback then
              try_except
                (legacy <- list_devices py_str fuel sort_expr ;;
                 ret (inr legacy))
                (fun _ => raise e)
            else raise e)) st
      (fun r s =>
         match r with
         | Ret (inl _) => asks_at_most 1 st s
         | _ => asks_at_most
                  (1 + (if fallback
                        then Z.to_nat (Z.max 1 (max_pages_per_call cf))
                        else 0))%nat st s
         end).
Proof.
  intros Hm Hst. unfold sat, try_except, bind.
  assert (H1 := asks_in_do_request cf fuel req Hm st Hst).
  destruct (_do_request fuel req 1 st) as [[raw | e | w] s1]; simpl in *.
  - exact H1.
  - destruct (contains "HTTP Error 404" (exn_str e) && fallback) eqn:Hf;
      simpl.
    + apply andb_true_iff in Hf. destruct Hf as [_ ->].
      assert (H2 := devices_loop_asks cf py_str fuel sort_expr fuel 0 JNull
                      [] [] s1 ltac:(destruct H1; congruence)).
      fold (list_devices py_str fuel sort_expr) in H2.
      destruct (list_devices py_str fuel sort_expr s1) as [[l | e' | w'] s2];
        simpl in *;
        (eapply asks_weaken; [| eapply asks_trans; [exact H1 | exact H2]]);
        lia.
    + eapply asks_weaken; [| exact H1]. lia.
  - eapply asks_weaken; [| exact H1]. lia.
Qed.

Lemma status_loop_asks cf exn_str py_str fuel sort_expr endpoint
  (fallback : bool) limit n :
  forall page offset events,
    asks_in cf
      (Z.to_nat (Z.max 1 (max_pages_per_call cf - page))
       + (if fallback then Z.to_nat (Z.max 1 (max_pages_per_call cf)) else 0))%nat
      (status_loop exn_str py_str fuel sort_expr endpoint fallback limit
                   (max_pages_per_call cf) n page offset events).
Proof.
  set (extra := if fallback then Z.to_nat (Z.max 1 (max_pages_per_call cf))
                else 0%nat).
  induction n as [| n IH]; intros page offset events; simpl.
  - apply asks_in_abort.
  - apply asks_in_get. intros s Hs.
    apply asks_in_seq; [apply keeps_quiet_ensure_token | intros _].
    apply asks_in_get. intros s1 Hs1.
    intros st Hst. unfold bind at 1.
    assert (Hpage := status_page_asks cf exn_str py_str fuel sort_expr
                       fallback
                       (Request
                          (_build_url s endpoint
                             [("limit", JNum (inject_Z limit));
                              ("offset", JNum (inject_Z offset))])
                          (_headers s1)) st eq_refl Hst).
    unfold sat in Hpage. fold extra in Hpage.
    match goal with
    | |- context [match ?run st with _ => _ end] =>
        destruct (run st) as [[[raw | legacy] | e | w] s2]
    end; simpl in Hpage |- *.
    + (* a page came back *)
      assert (Hs2 : cfg s2 = cf) by (destruct Hpage; congruence).
      assert (Hrest : asks_in cf
                (Z.to_nat (Z.max 1 (max_pages_per_call cf - page)) - 1 + extra)%nat
                (parsed <- try_loads raw ;;
                 match parsed with
                 | Some js =>
                     if Z.of_nat (length (status_items js)) =? 0
                     then ret events
                     else
                       if (Z.of_nat (length (status_items js)) <? limit)
                          || (max_pages_per_call cf <=? page + 1)
                       then ret (events ++ status_items js)%list
                       else
                         st0 <- get ;;
                         time_sleep (page_delay_seconds (cfg st0)) ;;
                         status_loop exn_str py_str fuel sort_expr endpoint
                           fallback limit (max_pages_per_call cf) n
                           (page + 1) (offset + limit)
                           (events ++ status_items js)%list
                 | None => ret events
                 end)).
      { apply asks_in_seq; [apply keeps_try_loads | intros [js |]];
          [| apply asks_in_ret].
        destruct (Z.of_nat (length (status_items js)) =? 0);
          [apply asks_in_ret |].
        destruct ((Z.of_nat (length (status_items js)) <? limit)
                  || (max_pages_per_call cf <=? page + 1)) eqn:Hstop;
          [apply asks_in_ret |].
        apply orb_false_iff in Hstop. destruct Hstop as [_ Hgo].
        apply Z.leb_gt in Hgo.
        apply asks_in_get. intros s3 Hs3.
        apply asks_in_seq; [apply keeps_time_sleep | intros _].
        eapply asks_in_weaken; [| apply IH]. lia. }
      eapply asks_weaken; [| eapply asks_trans; [exact Hpage |]].
      2: { apply Hrest, Hs2. }
      lia.
    + eapply asks_weaken; [| exact Hpage]. lia.
    + eapply asks_weaken; [| exact Hpage]. lia.
    + eapply asks_weaken; [| exact Hpage]. lia.
Qed.

(** X21.  [_fetch_device_status_events] asks for at most [max(1,
    max_pages_per_call)] pages; when the 404 fallback is on, the devices
    listing it falls back to may ask for as many again. *)
Theorem device_status_page_cap (exn_str : exn -> string)
  (py_str : json -> string) (fuel : nat) (sort_expr : string) (use_v2 : bool)
  (endpoint : string) (fallback : bool) (st : state) :
  exists evs,
    trace (snd (_fetch_device_status_events exn_str py_str fuel sort_expr
                  use_v2 endpoint fallback st))
    = (trace st ++ evs)%list
    /\ Z.of_nat (pages_requested evs)
       <= Z.max 1 (max_pages_per_call (cfg st))
          + (if use_v2 && fallback
             then Z.max 1 (max_pages_per_call (cfg st)) else 0).
Proof.
  unfold _fetch_device_status_events.
  destruct (negb use_v2 || contains "/v1alpha1/devices" endpoint) eqn:Hd.
  - assert (H : asks_in (cfg st)
                  (Z.to_nat (Z.max 1 (max_pages_per_call (cfg st) - 0)) + 0)%nat
                  (try_except (list_devices py_str fuel sort_expr)
                     (fun _ => ret []))).
    { apply asks_in_try_except; [| intro; apply asks_in_ret].
      apply devices_loop_asks. }
    destruct (H st eq_refl) as (_ & evs & E & L).
    exists evs. split; [exact E |].
    destruct (use_v2 && fallback); lia.
  - apply orb_false_iff in Hd. destruct Hd as [Hv2 _].
    apply negb_false_iff in Hv2. subst use_v2.
    change (exists evs,
      trace (snd (status_loop exn_str py_str fuel sort_expr endpoint fallback
                    (page_limit (cfg st)) (max_pages_per_call (cfg st))
                    fuel 0 0 [] st))
      = (trace st ++ evs)%list
      /\ Z.of_nat (pages_requested evs)
         <= Z.max 1 (max_pages_per_call (cfg st))
            + (if true && fallback
               then Z.max 1 (max_pages_per_call (cfg st)) else 0)).
    destruct (status_loop_asks (cfg st) exn_str py_str fuel sort_expr endpoint
                fallback (page_limit (cfg st)) fuel 0 0 [] st eq_refl)
      as (_ & evs & E & L).
    exists evs. split; [exact E |].
    cbn [andb]. destruct fallback; lia.
Qed.

Lemma page_cap_reached_multiple i limit max_pages :
  limit <> 0 ->
  page_cap_reached (i * limit) limit max_pages = (max_pages <=? i + 1).
Proof.
  intro Hl. unfold page_cap_reached.
  assert (Hq : (inject_Z (i * limit) / inject_Z limit + 1
                == inject_Z (i + 1))%Q).
  { rewrite inject_Z_mult, inject_Z_plus. field.
    intro H. apply Hl. apply inject_Z_injective. exact H. }
  destruct (max_pages <=? i + 1) eqn:E.
  - apply Qle_bool_iff. rewrite Hq. rewrite <- Zle_Qle. apply Z.leb_le, E.
  - destruct (Qle_bool (inject_Z max_pages)
                (inject_Z (i * limit) / inject_Z limit + 1)) eqn:F;
      [| reflexivity].
    apply Qle_bool_iff in F. rewrite Hq in F. rewrite <- Zle_Qle in F.
    apply Z.leb_gt in E. lia.
Qed.

Lemma get_json_asks cf fuel endpoint params :
  asks_in cf 1 (_get_json fuel endpoint params).
Proof.
  unfold _get_json.
  apply asks_in_seq; [apply keeps_quiet_ensure_token | intros _].
  apply asks_in_get. intros s Hs.
  change 1%nat with (1 + 0)%nat.
  apply asks_in_page; [reflexivity | intro raw].
  apply asks_in_quiet.
  apply keeps_try_except; [apply keeps_json_loads |].
  intro e. destruct e; first [apply keeps_ret | apply keeps_raise].
Qed.

Lemma paged_loop_asks cf fuel endpoint base_params root_keys n :
  forall i collected,
    asks_in cf (Z.to_nat (Z.max 1 (max_pages_per_call cf - i)))
      (paged_loop fuel endpoint base_params root_keys n
                  (i * page_limit cf) collected).
Proof.
  induction n as [| n IH]; intros i collected; simpl.
  - apply asks_in_abort.
  - apply asks_in_get. intros s Hs. rewrite Hs.
    replace (Z.to_nat (Z.max 1 (max_pages_per_call cf - i)))
      with (1 + (Z.to_nat (Z.max 1 (max_pages_per_call cf - i)) - 1))%nat
      by lia.
    apply asks_in_bind; [apply get_json_asks | intro js].
    destruct js as [| | | | | d]; try apply asks_in_ret.
    destruct (match first_root_key root_keys d with
              | Some l => Some l
              | None => first_list_value d
              end) as [[| it l] |]; try apply asks_in_ret.
    destruct (page_limit cf =? 0) eqn:Hz; [apply asks_in_raise |].
    apply Z.eqb_neq in Hz.
    rewrite (page_cap_reached_multiple _ _ _ Hz).
    destruct (max_pages_per_call cf <=? i + 1) eqn:Hcap;
      [apply asks_in_ret |].
    apply Z.leb_gt in Hcap.
    apply asks_in_get. intros s1 Hs1.
    apply asks_in_seq; [apply keeps_time_sleep | intros _].
    replace (i * page_limit cf + page_limit cf)
      with ((i + 1) * page_limit cf) by lia.
    eapply asks_in_weaken; [| apply IH]. lia.
Qed.

(** X26.  [_paged_collect] asks for at most [max(1, max_pages_per_call)]
    pages, whatever the vendor answers. *)
Theorem paged_collect_page_cap (fuel : nat) (endpoint : string)
  (base_params : pydict) (root_keys : list string) (st : state) :
  exists evs,
    trace (snd (_paged_collect fuel endpoint base_params root_keys st))
    = (trace st ++ evs)%list
    /\ Z.of_nat (pages_requested evs) <= Z.max 1 (max_pages_per_call (cfg st)).
Proof.
  destruct (paged_loop_asks (cfg st) fuel endpoint base_params root_keys fuel
              0 [] st eq_refl) as (_ & evs & E & L).
  exists evs. split; [exact E | lia].
Qed.

(* ------------------------------------------------------------------ *)
(** ** The token manager *)

Lemma bearer_authenticate (dr : request -> Z -> M bytes) st :
  bearer_mode (cfg st) = true ->
  _authenticate_with dr st = (Ret tt, bearer_authenticated st).
Proof.
  unfold bearer_mode. intro H. apply andb_true_iff in H.
  destruct H as [Hsec Hcid].
  unfold _authenticate_with, bind at 1. cbn [get]. rewrite Hsec. cbn [negb].
  destruct (client_id (cfg st)) as [[| c cid] |]; try discriminate;
    reflexivity.
Qed.

(** X9.  In token-as-bearer mode [_ensure_token] never fails and never
    touches the network: it keeps a fresh token, and otherwise installs
    the secret as a token good for 7200 seconds from now. Calling it
    twice is the same as calling it once. *)
Theorem bearer_ensure_token (fuel : nat) (st : state) :
  bearer_mode (cfg st) = true ->
  _ensure_token fuel st
  = (Ret tt, if token_fresh st then st else bearer_authenticated st)
  /\ trace (snd (_ensure_token fuel st)) = trace st
  /\ script (snd (_ensure_token fuel st)) = script st
  /\ (_ensure_token fuel ;; _ensure_token fuel) st = _ensure_token fuel st.
Proof.
  intro Hb.
  assert (E : forall s, bearer_mode (cfg s) = true ->
            _ensure_token fuel s
            = (Ret tt, if token_fresh s then s else bearer_authenticated s)).
  { intros s Hs. unfold _ensure_token, bind. cbn [get].
    destruct (token_fresh s); [reflexivity |].
    apply bearer_authenticate, Hs. }
  split; [apply E, Hb |].
  rewrite (E st Hb).
  split; [destruct (token_fresh st); reflexivity |].
  split; [destruct (token_fresh st); reflexivity |].
  unfold bind. rewrite (E st Hb).
  destruct (token_fresh st) eqn:Hf.
  - rewrite (E st Hb), Hf. reflexivity.
  - rewrite E by exact Hb.
    destruct (token_fresh (bearer_authenticated st)); reflexivity.
Qed.

Lemma bearer_ensure_token_witness :
  _ensure_token 0 (Sample.fresh Sample.bearer_cfg [])
  = (Ret tt, bearer_authenticated (Sample.fresh Sample.bearer_cfg []))
  /\ (_ensure_token 0 ;; _ensure_token 0) (Sample.fresh Sample.bearer_cfg [])
     = _ensure_token 0 (Sample.fresh Sample.bearer_cfg []).
Proof.
  destruct (bearer_ensure_token 0 (Sample.fresh Sample.bearer_cfg [])
              eq_refl) as (H1 & _ & _ & H2).
  split; [exact H1 | exact H2].
Defined.

(** X10.  A client without a secret that holds no fresh token cannot
    authenticate: [_get_json] raises before any request is made and
    leaves the client as it was, and the callers that catch every
    exception return their empty value. *)
Theorem missing_secret_no_request (fuel : nat) (endpoint : string)
  (params : pydict) (serial : string) (site_id : json) (st : state) :
  client_secret (cfg st) = EmptyString ->
  token_fresh st = false ->
  _get_json fuel endpoint params st
  = (Raise (RuntimeError "Missing client_secret (ARUBA_CLIENT_SECRET)" None),
     st)
  /\ get_switch_interfaces fuel serial site_id st = (Ret [], st)
  /\ _fetch_ap_details fuel serial st = (Ret (JDict []), st).
Proof.
  intros Hsec Hf.
  assert (Hauth : _ensure_token fuel st
                  = (Raise (RuntimeError
                              "Missing client_secret (ARUBA_CLIENT_SECRET)"
                              None), st)).
  { unfold _ensure_token, bind. cbn [get]. rewrite Hf.
    unfold _authenticate, _authenticate_with, bind. cbn [get].
    rewrite Hsec. reflexivity. }
  assert (Hget : forall e p,
            _get_json fuel e p st
            = (Raise (RuntimeError
                        "Missing client_secret (ARUBA_CLIENT_SECRET)" None),
               st)).
  { intros e p. unfold _get_json. unfold bind at 1. rewrite Hauth.
    reflexivity. }
  split; [apply Hget |]. split.
  - unfold get_switch_interfaces, try_except. unfold bind at 1.
    rewrite Hget. reflexivity.
  - unfold _fetch_ap_details, try_except, client_get. rewrite Hget.
    reflexivity.
Qed.

Lemma missing_secret_no_request_witness :
  get_switch_interfaces 3 "sw1" JNull Cases.no_secret
  = (Ret [], Cases.no_secret)
  /\ trace Cases.no_secret = [].
Proof.
  split; [| reflexivity].
  apply (missing_secret_no_request 3 EmptyString [] "sw1" JNull
           Cases.no_secret);
    reflexivity.
Defined.











(* ------------------------------------------------------------------ *)
(** ** What a run returns *)

Lemma returns_ret {A} (P : A -> Prop) a : P a -> returns P (ret a).
Proof. intros H st b [= <-]. exact H. Qed.

Lemma returns_raise {A} (P : A -> Prop) e : returns P (raise e).
Proof. intros st b [=]. Qed.

Lemma returns_abort {A} (P : A -> Prop) w : returns P (abort w).
Proof. intros st b [=]. Qed.

Lemma returns_bind {A B} (Q : A -> Prop) (P : B -> Prop) (m : M A)
  (k : A -> M B) :
  returns Q m -> (forall a, Q a -> returns P (k a)) -> returns P (bind m k).
Proof.
  intros Hm Hk st b. unfold bind. specialize (Hm st).
  destruct (m st) as [[a | e | w] s]; simpl in *; try discriminate.
  apply Hk. apply Hm. reflexivity.
Qed.

Lemma returns_seq {A B} (P : B -> Prop) (m : M A) (k : A -> M B) :
  (forall a, returns P (k a)) -> returns P (bind m k).
Proof.
  intro Hk. apply returns_bind with (Q := fun _ => True); [| auto].
  intros st a _. exact I.
Qed.

Lemma returns_try_except {A} (P : A -> Prop) (m : M A) (h : exn -> M A) :
  returns P m -> (forall e, returns P (h e)) -> returns P (try_except m h).
Proof.
  intros Hm Hh st a. unfold try_except. specialize (Hm st).
  destruct (m st) as [[x | e | w] s]; simpl in *; try discriminate.
  - exact (Hm a).
  - apply Hh.
Qed.


(* ------------------------------------------------------------------ *)
(** ** Deduplication in [list_devices] *)

Lemma device_key_dict py_str kv :
  device_key py_str (JDict kv) = ret (stable_key py_str kv).
Proof.
  unfold device_key, stable_key.
  destruct (truthy (py_or (get_or_none kv "id") _)); [reflexivity |].
  destruct (truthy _ || truthy _); reflexivity.
Qed.

Lemma keyed_dict py_str kv k :
  keyed py_str (JDict kv) k <-> stable_key py_str kv = k /\ truthy k = true.
Proof.
  split.
  - intros (kv' & [= <-] & Hk & Ht). auto.
  - intros [Hk Ht]. exists kv. auto.
Qed.

(** The invariant of the loop: the records collected have distinct keys,
    and each of those keys has been recorded. *)
Lemma dedup_page_distinct py_str page :
  forall collected seen,
    distinct_keys py_str collected ->
    (forall d k, In d collected -> keyed py_str d k -> In k seen) ->
    returns (fun cs => distinct_keys py_str (fst cs)
                       /\ (forall d k, In d (fst cs) -> keyed py_str d k ->
                                       In k (snd cs)))
            (dedup_page py_str page collected seen).
Proof.
  induction page as [| d rest IH]; intros collected seen Hdist Hseen.
  - apply returns_ret. split; assumption.
  - cbn [dedup_page].
    destruct d as [| | | | | kv];
      try (intros st a; unfold bind; simpl; discriminate).
    rewrite device_key_dict.
    change (returns
      (fun cs => distinct_keys py_str (fst cs)
                 /\ (forall d k, In d (fst cs) -> keyed py_str d k ->
                                 In k (snd cs)))
      (if truthy (stable_key py_str kv) then
         if hashable (stable_key py_str kv) then
           if existsb (py_eqb (stable_key py_str kv)) seen then
             dedup_page py_str rest collected seen
           else
             dedup_page py_str rest (collected ++ [JDict kv])%list
                        (seen ++ [stable_key py_str kv])%list
         else raise (TypeError "unhashable type")
       else dedup_page py_str rest (collected ++ [JDict kv])%list seen)).
    destruct (truthy (stable_key py_str kv)) eqn:Ht.
    + destruct (hashable (stable_key py_str kv)); [| apply returns_raise].
      destruct (existsb (py_eqb (stable_key py_str kv)) seen) eqn:Hex.
      * apply IH; assumption.
      * apply IH.
        -- intros i j d1 d2 k1 k2 Hij H1 H2 K1 K2.
           destruct (Nat.lt_ge_cases j (length collected)) as [Hj | Hj].
           ++ rewrite nth_error_app1 in H1 by lia.
              rewrite nth_error_app1 in H2 by lia.
              exact (Hdist i j d1 d2 k1 k2 Hij H1 H2 K1 K2).
           ++ assert (Hjl : j = length collected).
              { assert (Hlt : (j < length (collected ++ [JDict kv]))%nat)
                  by (apply nth_error_Some; congruence).
                rewrite length_app in Hlt. simpl in Hlt. lia. }
              subst j. rewrite nth_error_app2 in H2 by lia.
              rewrite Nat.sub_diag in H2. simpl in H2.
              injection H2 as <-.
              apply keyed_dict in K2. destruct K2 as [<- _].
              rewrite nth_error_app1 in H1 by lia.
              assert (Hin : In k1 seen).
              { apply (Hseen d1); [| exact K1].
                eapply nth_error_In; exact H1. }
              destruct (py_eqb (stable_key py_str kv) k1) eqn:E;
                [| reflexivity].
              assert (Hx : existsb (py_eqb (stable_key py_str kv)) seen = true)
                by (apply existsb_exists; exists k1; auto).
              congruence.
        -- intros d k Hin K. apply in_app_or in Hin.
           apply in_or_app. destruct Hin as [Hin | [<- | []]].
           ++ left. exact (Hseen d k Hin K).
           ++ right. apply keyed_dict in K. destruct K as [<- _].
              left. reflexivity.
    + apply IH.
      * intros i j d1 d2 k1 k2 Hij H1 H2 K1 K2.
        destruct (Nat.lt_ge_cases j (length collected)) as [Hj | Hj].
        -- rewrite nth_error_app1 in H1 by lia.
           rewrite nth_error_app1 in H2 by lia.
           exact (Hdist i j d1 d2 k1 k2 Hij H1 H2 K1 K2).
        -- assert (Hjl : j = length collected).
           { assert (Hlt : (j < length (collected ++ [JDict kv]))%nat)
               by (apply nth_error_Some; congruence).
             rewrite length_app in Hlt. simpl in Hlt. lia. }
           subst j. rewrite nth_error_app2 in H2 by lia.
           rewrite Nat.sub_diag in H2. simpl in H2.
           injection H2 as <-.
           apply keyed_dict in K2. destruct K2 as [<- Hk]. congruence.
      * intros d k Hin K. apply in_app_or in Hin.
        destruct Hin as [Hin | [<- | []]].
        -- exact (Hseen d k Hin K).
        -- apply keyed_dict in K. destruct K as [<- Hk]. congruence.
Qed.

Lemma devices_loop_distinct py_str fuel sort_expr n :
  forall page next_token collected seen,
    distinct_keys py_str collected ->
    (forall d k, In d collected -> keyed py_str d k -> In k seen) ->
    returns (distinct_keys py_str)
            (devices_loop py_str fuel sort_expr n page next_token collected
                          seen).
Proof.
  induction n as [| n IH]; intros page next_token collected seen Hdist Hseen;
    simpl.
  - apply returns_abort.
  - apply returns_seq. intro s.
    apply returns_seq. intro raw.
    apply returns_seq. intros [js |]; [| apply returns_ret, Hdist].
    destruct (device_items js) as [| it items]; [apply returns_ret, Hdist |].
    eapply returns_bind;
      [apply (dedup_page_distinct py_str (it :: items)); assumption |].
    intros [c k] [Hd Hs]. cbn [fst snd] in *.
    destruct (negb (truthy (next_of js))); [apply returns_ret, Hd |].
    apply returns_seq. intro s1.
    destruct (max_pages_per_call (cfg s1) <=? page + 1);
      [apply returns_ret, Hd |].
    apply returns_seq. intros _. apply IH; assumption.
Qed.

(** X14.  No device is listed twice: whatever pages the vendor serves,
    two records returned by [list_devices] that both have a key ([id],
    [deviceId], [macAddress], [mac], [serialNumber], or [name|ipv4])
    have different keys. *)
Theorem list_devices_distinct_keys (py_str : json -> string) (fuel : nat)
  (sort_expr : string) (st : state) (l : list json) :
  fst (list_devices py_str fuel sort_expr st) = Ret l ->
  distinct_keys py_str l.
Proof.
  apply (devices_loop_distinct py_str fuel sort_expr fuel 0 JNull [] []).
  - intros i j d1 d2 k1 k2 _ H1. destruct i; discriminate.
  - intros d k [].
Qed.

Lemma list_devices_distinct_keys_witness :
  fst (list_devices Cases.py_str 5 EmptyString
         (Cases.ready Cases.overlapping_devices))
  = Ret [Sample.item 1; Sample.item 2; Sample.item 3]
  /\ distinct_keys Cases.py_str [Sample.item 1; Sample.item 2; Sample.item 3].
Proof.
  assert (H : fst (list_devices Cases.py_str 5 EmptyString
                     (Cases.ready Cases.overlapping_devices))
              = Ret [Sample.item 1; Sample.item 2; Sample.item 3])
    by (vm_compute; reflexivity).
  split; [exact H |].
  exact (list_devices_distinct_keys Cases.py_str 5 EmptyString
           (Cases.ready Cases.overlapping_devices) _ H).
Defined.

(* replaying a page *)

Lemma py_eqb_refl k : hashable k = true -> py_eqb k k = true.
Proof.
  destruct k as [| b | q | s | l | kv]; try discriminate; intros _;
    unfold py_eqb.
  - reflexivity.
  - apply Qeq_bool_iff. reflexivity.
  - apply Qeq_bool_iff. reflexivity.
  - apply String.eqb_refl.
Qed.

Lemma existsb_app_l {A} (f : A -> bool) l1 l2 :
  existsb f l1 = true -> existsb f (l1 ++ l2) = true.
Proof. intro H. rewrite existsb_app, H. reflexivity. Qed.

(** After a page was processed, the key of each of its keyed records is
    among the keys seen. *)
Lemma dedup_page_records py_str page :
  forall collected seen st c1 s1 st1,
    dedup_page py_str page collected seen st = (Ret (c1, s1), st1) ->
    (forall k, existsb (py_eqb k) seen = true -> existsb (py_eqb k) s1 = true)
    /\ Forall (fun d => exists kv,
                 d = JDict kv
                 /\ (truthy (stable_key py_str kv) = true ->
                     hashable (stable_key py_str kv) = true
                     /\ existsb (py_eqb (stable_key py_str kv)) s1 = true))
              page.
Proof.
  induction page as [| d rest IH]; intros collected seen st c1 s1 st1 Hrun.
  - injection Hrun as <- <- <-. split; [auto | constructor].
  - cbn [dedup_page] in Hrun.
    destruct d as [| | | | | kv]; try discriminate.
    rewrite device_key_dict in Hrun. unfold bind at 1 in Hrun.
    cbn [ret] in Hrun.
    destruct (truthy (stable_key py_str kv)) eqn:Ht.
    + destruct (hashable (stable_key py_str kv)) eqn:Hh; [| discriminate].
      destruct (existsb (py_eqb (stable_key py_str kv)) seen) eqn:Hex.
      * destruct (IH _ _ _ _ _ _ Hrun) as [Hmono Hall].
        split; [exact Hmono |]. constructor; [| exact Hall].
        exists kv. split; [reflexivity |]. intros _. split; [exact Hh |].
        apply Hmono, Hex.
      * destruct (IH _ _ _ _ _ _ Hrun) as [Hmono Hall].
        split.
        -- intros k Hk. apply Hmono, existsb_app_l, Hk.
        -- constructor; [| exact Hall].
           exists kv. split; [reflexivity |]. intros _.
           split; [exact Hh |].
           apply Hmono. rewrite existsb_app. cbn [existsb].
           rewrite (py_eqb_refl _ Hh). rewrite orb_true_r. reflexivity.
    + destruct (IH _ _ _ _ _ _ Hrun) as [Hmono Hall].
      split; [exact Hmono |]. constructor; [| exact Hall].
      exists kv. split; [reflexivity |]. congruence.
Qed.

Lemma dedup_page_seen py_str page :
  forall collected seen st,
    Forall (fun d => exists kv,
              d = JDict kv
              /\ (truthy (stable_key py_str kv) = true ->
                  hashable (stable_key py_str kv) = true
                  /\ existsb (py_eqb (stable_key py_str kv)) seen = true))
           page ->
    dedup_page py_str page collected seen st
    = (Ret ((collected ++ filter (unkeyed py_str) page)%list, seen), st).
Proof.
  induction page as [| d rest IH]; intros collected seen st Hall.
  - simpl. rewrite app_nil_r. reflexivity.
  - inversion Hall as [| ? ? (kv & -> & Hk) Hrest]. subst.
    cbn [dedup_page]. rewrite device_key_dict. unfold bind at 1. cbn [ret].
    cbn [filter unkeyed].
    destruct (truthy (stable_key py_str kv)) eqn:Ht; cbn [negb].
    + destruct (Hk eq_refl) as [-> ->]. apply IH, Hrest.
    + rewrite (IH _ _ _ Hrest). rewrite <- app_assoc. reflexivity.
Qed.

(** X15.  A page served twice adds no keyed record the second time: run
    again on the result of its first run, the page adds only its records
    without a key, and records no new key. *)
Theorem dedup_page_replay (py_str : json -> string) (page : list json)
  (collected seen c1 s1 : list json) (st st1 : state) :
  dedup_page py_str page collected seen st = (Ret (c1, s1), st1) ->
  dedup_page py_str page c1 s1 st1
  = (Ret ((c1 ++ filter (unkeyed py_str) page)%list, s1), st1).
Proof.
  intro Hrun. apply dedup_page_seen.
  exact (proj2 (dedup_page_records py_str page _ _ _ _ _ _ Hrun)).
Qed.

Lemma dedup_page_replay_witness :
  dedup_page Cases.py_str Cases.mixed_page Cases.mixed_page [JNum 1]
    (Cases.ready [])
  = (Ret ((Cases.mixed_page
           ++ filter (unkeyed Cases.py_str) Cases.mixed_page)%list,
          [JNum 1]),
     Cases.ready []).
Proof.
  apply (dedup_page_replay Cases.py_str Cases.mixed_page [] []
           Cases.mixed_page [JNum 1] (Cases.ready []) (Cases.ready [])).
  reflexivity.
Defined.

(* ------------------------------------------------------------------ *)
(** ** Site tags on client records *)



















(* ------------------------------------------------------------------ *)
(** ** Fetchers that swallow exceptions, and the status loop *)

Lemma try_except_default_never_raises {A} (m : M A) (x : A) st e :
  fst (try_except m (fun _ => ret x) st) <> Raise e.
Proof.
  unfold try_except. destruct (m st) as [[a | e' | w] s]; discriminate.
Qed.

(** X22.  The fetchers that wrap their call in [except Exception] never
    raise: [get_switch_interfaces], [_fetch_ap_details], and
    [_fetch_device_status_events] when the v2 endpoint is off. *)
Theorem swallowing_fetchers_never_raise (exn_str : exn -> string)
  (py_str : json -> string) (fuel : nat) (serial sort_expr endpoint : string)
  (site_id : json) (fallback : bool) (st : state) (e : exn) :
  fst (get_switch_interfaces fuel serial site_id st) <> Raise e
  /\ fst (_fetch_ap_details fuel serial st) <> Raise e
  /\ fst (_fetch_device_status_events exn_str py_str fuel sort_expr false
            endpoint fallback st) <> Raise e.
Proof.
  repeat split; apply try_except_default_never_raises.
Qed.

Lemma length_zero_nil {A} (l : list A) :
  Z.of_nat (length l) = 0 -> l = [].
Proof. destruct l; [reflexivity | simpl; lia]. Qed.

Lemma ensure_token_fresh fuel st :
  token_fresh st = true -> _ensure_token fuel st = (Ret tt, st).
Proof.
  intro H. unfold _ensure_token, bind. cbn [get]. rewrite H. reflexivity.
Qed.

(** X19.  With the v2 endpoint on, a first page shorter than
    [page_limit] (empty included) ends the run: one request, for offset
    0, and the page is the result. *)
Theorem status_short_page_ends_run (exn_str : exn -> string)
  (py_str : json -> string) (fuel : nat) (sort_expr endpoint : string)
  (fallback : bool) (st : state) (js : json) (rest : list response) :
  contains "/v1alpha1/devices" endpoint = false ->
  token_fresh st = true ->
  script st = RespOk (Json js) :: rest ->
  Z.of_nat (length (status_items js)) < page_limit (cfg st) ->
  _fetch_device_status_events exn_str py_str (S fuel) sort_expr true endpoint
    fallback st
  = (Ret (status_items js),
     exchanged (status_request st endpoint 0) 1 rest st).
Proof.
  intros Hend Hfresh Hs Hshort.
  unfold _fetch_device_status_events. rewrite Hend. cbn [negb orb].
  unfold bind at 1. cbn [get status_loop].
  unfold bind at 1. cbn [get].
  unfold bind at 1. rewrite (ensure_token_fresh _ _ Hfresh).
  unfold bind at 1. cbn [get].
  unfold bind at 1. unfold try_except at 1. unfold bind at 1.
  fold (status_request st endpoint 0).
  rewrite (do_request_ok _ _ _ _ _ _ Hs). cbn [ret].
  unfold bind at 1. rewrite try_loads_eq. cbn [app].
  destruct (Z.of_nat (length (status_items js)) =? 0) eqn:Hz.
  - apply Z.eqb_eq, length_zero_nil in Hz. rewrite Hz. reflexivity.
  - replace (Z.of_nat (length (status_items js)) <? page_limit (cfg st))
      with true by (symmetry; apply Z.ltb_lt; exact Hshort).
    reflexivity.
Qed.

Lemma status_short_page_ends_run_witness :
  _fetch_device_status_events Cases.exn_str Cases.py_str 1 EmptyString true
    "/network-monitoring/v2/devices/status" true
    (Cases.ready [RespOk (Json Cases.status_page)])
  = (Ret [Sample.item 7],
     exchanged
       (status_request (Cases.ready [RespOk (Json Cases.status_page)])
          "/network-monitoring/v2/devices/status" 0)
       1 [] (Cases.ready [RespOk (Json Cases.status_page)])).
Proof.
  apply (status_short_page_ends_run Cases.exn_str Cases.py_str 0 EmptyString
           "/network-monitoring/v2/devices/status" true
           (Cases.ready [RespOk (Json Cases.status_page)])
           Cases.status_page []).
  - reflexivity.
  - reflexivity.
  - reflexivity.
  - vm_compute. reflexivity.
Defined.

(** X20.  With the v2 endpoint on, a 404 on the first page falls back to
    the devices listing when the fallback is on; if that listing raises,
    the 404 itself is raised, not the listing's exception. With the
    fallback off the 404 is raised at once. *)
Theorem status_404_fallback (exn_str : exn -> string)
  (py_str : json -> string) (fuel : nat) (sort_expr endpoint : string)
  (fallback : bool) (st : state) (ra : option header_value) (body : string)
  (rest : list response) :
  contains "/v1alpha1/devices" endpoint = false ->
  token_fresh st = true ->
  script st = RespHTTPError 404 ra body :: rest ->
  contains "HTTP Error 404" (exn_str (HTTPError 404 ra body)) = true ->
  _fetch_device_status_events exn_str py_str (S fuel) sort_expr true endpoint
    fallback st
  = if fallback then
      match list_devices py_str (S fuel) sort_expr
              (exchanged (status_request st endpoint 0) 1 rest st) with
      | (Raise _, s) => (Raise (HTTPError 404 ra body), s)
      | other => other
      end
    else (Raise (HTTPError 404 ra body),
          exchanged (status_request st endpoint 0) 1 rest st).
Proof.
  intros Hend Hfresh Hs H404.
  assert (Hreq : _do_request (S fuel) (status_request st endpoint 0) 1 st
                 = (Raise (HTTPError 404 ra body),
                    exchanged (status_request st endpoint 0) 1 rest st)).
  { apply fatal_status_now; [exact Hs | reflexivity | reflexivity]. }
  unfold _fetch_device_status_events. rewrite Hend. cbn [negb orb].
  unfold bind at 1. cbn [get status_loop].
  unfold bind at 1. cbn [get].
  unfold bind at 1. rewrite (ensure_token_fresh _ _ Hfresh).
  unfold bind at 1. cbn [get].
  unfold bind at 1. unfold try_except at 1. unfold bind at 1.
  fold (status_request st endpoint 0).
  rewrite Hreq. rewrite H404. cbn [andb].
  destruct fallback; [| reflexivity].
  unfold try_except, bind.
  destruct (list_devices py_str (S fuel) sort_expr
              (exchanged (status_request st endpoint 0) 1 rest st))
    as [[l | e | w] s]; reflexivity.
Qed.

Lemma status_404_fallback_witness :
  fst (_fetch_device_status_events Cases.exn_str Cases.py_str 2 EmptyString
         true "/network-monitoring/v2/devices/status" true
         (Cases.ready (Cases.not_found :: Cases.overlapping_devices)))
  = Ret [Sample.item 1; Sample.item 2; Sample.item 3]
  /\ fst (_fetch_device_status_events Cases.exn_str Cases.py_str 2 EmptyString
            true "/network-monitoring/v2/devices/status" true
            (Cases.ready [Cases.not_found; Cases.forbidden]))
     = Raise (HTTPError 404 None "Not Found").
Proof.
  split.
  - rewrite (status_404_fallback Cases.exn_str Cases.py_str 1 EmptyString
               "/network-monitoring/v2/devices/status" true
               (Cases.ready (Cases.not_found :: Cases.overlapping_devices))
               None "Not Found" Cases.overlapping_devices
               eq_refl eq_refl eq_refl eq_refl).
    vm_compute. reflexivity.
  - rewrite (status_404_fallback Cases.exn_str Cases.py_str 1 EmptyString
               "/network-monitoring/v2/devices/status" true
               (Cases.ready [Cases.not_found; Cases.forbidden])
               None "Not Found" [Cases.forbidden]
               eq_refl eq_refl eq_refl eq_refl).
    vm_compute. reflexivity.
Defined.

(* ------------------------------------------------------------------ *)
(** ** The page size of the AP listing *)

(** X23.  [_fetch_all_aps] sends its page size as the [limit] of the
    first request as it is, also above the 100 the client caps its own
    [page_limit] at: the collector only fills in a limit the caller has
    not set. *)
Theorem ap_page_size_sent_as_is (fuel : nat) (endpoint : string)
  (page_size : Z) (st : state) (resp : response) (rest : list response) :
  script st = resp :: rest ->
  exists evs,
    trace (snd (_fetch_all_aps (S fuel) endpoint page_size st))
    = (trace (throttled st)
       ++ EvSend (Request
                    (_build_url st endpoint
                       [("limit", JNum (inject_Z page_size))])
                    (_headers st)) 1
       :: evs)%list.
Proof.
  intro Hs. unfold _fetch_all_aps.
  exact (collect_uses_held_token fuel endpoint ["items"; "aps"; "data"]
           [("limit", JNum (inject_Z page_size))] None false st resp rest Hs).
Qed.

Lemma ap_page_size_sent_as_is_witness :
  exists evs,
    trace (snd (_fetch_all_aps 1 "/network-monitoring/v1alpha1/aps" 250
                  (Cases.ready [RespOk Sample.one_page])))
    = (trace (throttled (Cases.ready [RespOk Sample.one_page]))
       ++ EvSend (Request
                    (_build_url (Cases.ready [RespOk Sample.one_page])
                       "/network-monitoring/v1alpha1/aps"
                       [("limit", JNum 250)])
                    (_headers (Cases.ready [RespOk Sample.one_page]))) 1
       :: evs)%list.
Proof.
  apply (ap_page_size_sent_as_is 0 "/network-monitoring/v1alpha1/aps" 250
           (Cases.ready [RespOk Sample.one_page]) (RespOk Sample.one_page) []).
  reflexivity.
Defined.

(* ------------------------------------------------------------------ *)
(** ** The constructor *)

Lemma rstrip_slash_slashes s :
  exists k, s = (rstrip_slash s ++ slashes k)%string
            /\ (rstrip_slash s = EmptyString -> s = slashes k).
Proof.
  induction s as [| c s (k & E & Hempty)]; simpl.
  - exists 0%nat. split; reflexivity.
  - destruct (rstrip_slash s =? EmptyString)%string eqn:Hr.
    + apply String.eqb_eq in Hr.
      destruct (c =? "/")%char eqn:Hc; simpl.
      * apply Ascii.eqb_eq in Hc. subst c.
        exists (S k). simpl. rewrite <- (Hempty Hr).
        split; [reflexivity | reflexivity].
      * exists k. rewrite Hr in *. simpl in E. rewrite <- E.
        split; [reflexivity | discriminate].
    + simpl. exists k. rewrite <- E. split; [reflexivity | discriminate].
Qed.

Lemma rstrip_slash_no_slash s : ends_with_slash (rstrip_slash s) = false.
Proof.
  induction s as [| c s IH]; simpl; [reflexivity |].
  destruct (rstrip_slash s =? EmptyString)%string eqn:Hr.
  - apply String.eqb_eq in Hr.
    destruct (c =? "/")%char eqn:Hc; simpl; [reflexivity |].
    rewrite Hr. exact Hc.
  - simpl. apply String.eqb_neq in Hr.
    destruct (rstrip_slash s); [contradiction | exact IH].
Qed.

(** X24.  The constructor strips the trailing slashes of [base_url], all
    of them and nothing else, so that endpoint paths can be appended;
    and it caps [page_limit] at 100. *)
Theorem init_base_url (a : arguments) (env : environ) (now : Q)
  (responses : list response) :
  ends_with_slash (base_url (cfg (__init__ a env now responses))) = false
  /\ (exists k,
        arg_base_url a
        = (base_url (cfg (__init__ a env now responses)) ++ slashes k)%string)
  /\ page_limit (cfg (__init__ a env now responses)) <= 100.
Proof.
  cbn [__init__ cfg base_url page_limit].
  split; [apply rstrip_slash_no_slash |]. split.
  - destruct (rstrip_slash_slashes (arg_base_url a)) as (k & E & _).
    exists k. exact E.
  - lia.
Qed.

Lemma prefix_refl s : prefix s s = true.
Proof.
  induction s as [| c s IH]; simpl; [reflexivity |].
  destruct (ascii_dec c c); [exact IH | contradiction].
Qed.

Lemma contains_suffix needle s : contains needle (s ++ needle) = true.
Proof.
  induction s as [| c s IH]; simpl.
  - destruct needle; simpl; [reflexivity |].
    destruct (ascii_dec a a); [| contradiction].
    rewrite prefix_refl. reflexivity.
  - match goal with
    | |- (if ?b then _ else _) = _ => destruct b
    end; [reflexivity | exact IH].
Qed.

(** X25.  Which token URL the constructor settles on:
    [ARUBA_OAUTH_TOKEN_URL] when it is set; else the [oauth_token_url]
    argument when it is given; else the common SSO endpoint when the
    base URL names an [api.central] host, and [base_url +
    "/oauth2/token"] otherwise. *)
Theorem token_url_precedence (a : arguments) (env : environ) (now : Q)
  (responses : list response) :
  (forall u, ARUBA_OAUTH_TOKEN_URL env = Some u -> str_truthy u = true ->
     oauth_token_url (cfg (__init__ a env now responses)) = u)
  /\ (forall u, unset (ARUBA_OAUTH_TOKEN_URL env) = true ->
        arg_oauth_token_url a = Some u -> str_truthy u = true ->
        oauth_token_url (cfg (__init__ a env now responses)) = u)
  /\ (unset (ARUBA_OAUTH_TOKEN_URL env) = true ->
      unset (arg_oauth_token_url a) = true ->
      oauth_token_url (cfg (__init__ a env now responses))
      = if contains "api.central" (rstrip_slash (arg_base_url a))
        then "https://sso.common.cloud.hpe.com/as/token.oauth2"
        else (rstrip_slash (arg_base_url a) ++ "/oauth2/token")%string).
Proof.
  cbn [__init__ cfg oauth_token_url]. unfold unset, getenv.
  split; [| split].
  - intros u -> Hu. rewrite Hu. cbn [negb andb]. rewrite andb_false_r.
    reflexivity.
  - intros u Henv -> Hu. rewrite Hu. cbn [negb]. rewrite andb_false_r.
    destruct (ARUBA_OAUTH_TOKEN_URL env) as [e |].
    + apply negb_true_iff in Henv. rewrite Henv. reflexivity.
    + reflexivity.
  - intros Henv Harg.
    assert (Hg : match arg_oauth_token_url a with
                 | Some u => str_truthy u
                 | None => false
                 end = false).
    { destruct (arg_oauth_token_url a);
        [apply negb_true_iff, Harg | reflexivity]. }
    assert (He : match ARUBA_OAUTH_TOKEN_URL env with
                 | Some u => str_truthy u
                 | None => false
                 end = false).
    { destruct (ARUBA_OAUTH_TOKEN_URL env);
        [apply negb_true_iff, Henv | reflexivity]. }
    rewrite Hg, He. cbn [negb]. rewrite contains_suffix.
    rewrite !andb_true_r. cbn [andb]. reflexivity.
Qed.

Lemma token_url_precedence_witness :
  oauth_token_url (cfg (__init__ (Cases.gateway_args "sec") Cases.no_env
                          1000%Q []))
  = "https://sso.common.cloud.hpe.com/as/token.oauth2".
Proof.
  destruct (token_url_precedence (Cases.gateway_args "sec") Cases.no_env
              1000%Q []) as (_ & _ & H).
  rewrite H; reflexivity.
Defined.

(* ------------------------------------------------------------------ *)
(** ** The body of a 200, and the pages of a clients listing *)

(** X11.  [_get_json] on a 200: a JSON body is returned as parsed; a
    body that is text but not JSON gives the empty dict; bytes that are
    not UTF-8 raise, since only [JSONDecodeError] is caught. *)
Theorem get_json_body (fuel : nat) (endpoint : string) (params : pydict)
  (st : state) (raw : bytes) (rest : list response) :
  token_fresh st = true ->
  script st = RespOk raw :: rest ->
  _get_json (S fuel) endpoint params st
  = (match raw with
     | Json js => Ret js
     | NotJson _ => Ret (JDict [])
     | NotUtf8 => Raise UnicodeDecodeError
     end,
     exchanged (Request (_build_url st endpoint params) (_headers st)) 1 rest
       st).
Proof.
  intros Hfresh Hs. unfold _get_json.
  unfold bind at 1. rewrite (ensure_token_fresh _ _ Hfresh).
  unfold bind at 1. cbn [get].
  unfold bind at 1. rewrite (do_request_ok _ _ _ _ _ _ Hs).
  destruct raw; reflexivity.
Qed.

Lemma get_json_body_witness :
  _get_json 1 "/sites" [] (Cases.ready [RespOk (NotJson "<html>")])
  = (Ret (JDict []),
     exchanged
       (Request (_build_url (Cases.ready [RespOk (NotJson "<html>")])
                   "/sites" [])
                (_headers (Cases.ready [RespOk (NotJson "<html>")])))
       1 [] (Cases.ready [RespOk (NotJson "<html>")])).
Proof.
  apply (get_json_body 0 "/sites" []
           (Cases.ready [RespOk (NotJson "<html>")]) (NotJson "<html>") []);
    reflexivity.
Defined.

Lemma collect_variants_asks cf fuel site_id variants :
  asks_in cf (length variants * Z.to_nat (Z.max 1 (max_pages_per_call cf)))
    (collect_variants fuel site_id variants).
Proof.
  induction variants as [| base rest IH]; simpl.
  - apply asks_in_ret.
  - apply asks_in_bind; [apply collect_asks | intros [| it items]].
    + exact IH.
    + apply asks_in_ret.
Qed.

(** X17.  [list_clients_single_site] asks for at most [max(1,
    max_pages_per_call)] pages per parameter variant it tries: two
    variants, three when [ARUBA_CLIENTS_TRY_GLOBAL] is on. *)
Theorem list_clients_page_cap (fuel : nat) (try_global : bool)
  (site_id : string) (st : state) :
  exists evs,
    trace (snd (list_clients_single_site fuel try_global site_id st))
    = (trace st ++ evs)%list
    /\ Z.of_nat (pages_requested evs)
       <= (if try_global then 3 else 2)
          * Z.max 1 (max_pages_per_call (cfg st)).
Proof.
  unfold list_clients_single_site.
  destruct (collect_variants_asks (cfg st) fuel site_id
              (if try_global
               then ([[("site-id", JStr site_id)]; [("siteId", JStr site_id)]]
                     ++ [[]])%list
               else [[("site-id", JStr site_id)]; [("siteId", JStr site_id)]])
              st eq_refl) as (_ & evs & E & L).
  exists evs. split; [exact E |].
  destruct try_global; simpl length in L; lia.
Qed.

(* ------------------------------------------------------------------ *)
(** ** [min_interval] changes on a 429 only *)

Lemma steady_refl st : steady st st.
Proof. intro H. split; [reflexivity | exact H]. Qed.

Lemma steady_trans a b c : steady a b -> steady b c -> steady a c.
Proof.
  intros Hab Hbc Ha. destruct (Hab Ha) as [E1 Hb].
  destruct (Hbc Hb) as [E2 Hc]. split; [congruence | exact Hc].
Qed.

Lemma steadily_ret {A} (a : A) : steadily (ret a).
Proof. intro st. apply steady_refl. Qed.

Lemma steadily_raise {A} e : steadily (@raise A e).
Proof. intro st. apply steady_refl. Qed.

Lemma steadily_bind {A B} (m : M A) (k : A -> M B) :
  steadily m -> (forall a, steadily (k a)) -> steadily (bind m k).
Proof.
  intros Hm Hk st. unfold bind. specialize (Hm st).
  destruct (m st) as [[a | e | w] s]; simpl in *; auto.
  eapply steady_trans; [exact Hm | apply Hk].
Qed.

Lemma steadily_try_except {A} (m : M A) (h : exn -> M A) :
  steadily m -> (forall e, steadily (h e)) -> steadily (try_except m h).
Proof.
  intros Hm Hh st. unfold try_except. specialize (Hm st).
  destruct (m st) as [[a | e | w] s]; simpl in *; auto.
  eapply steady_trans; [exact Hm | apply Hh].
Qed.

Lemma steadily_same {A} (m : M A) :
  (forall st, min_interval (snd (m st)) = min_interval st
              /\ script (snd (m st)) = script st) ->
  steadily m.
Proof.
  intros H st Hno. destruct (H st) as [E1 E2]. rewrite E1, E2. auto.
Qed.

Lemma steadily_time_sleep d : steadily (time_sleep d).
Proof.
  apply steadily_same. intro st. unfold time_sleep.
  destruct (Qltb d 0); split; reflexivity.
Qed.

Lemma steadily_json_loads raw : steadily (json_loads raw).
Proof. destruct raw; first [apply steadily_ret | apply steadily_raise]. Qed.

Lemma steadily_lacks_access_token js : steadily (lacks_access_token js).
Proof.
  unfold lacks_access_token.
  destruct (negb (truthy js)); [apply steadily_ret |].
  destruct js; first [apply steadily_ret | apply steadily_raise].
Qed.

Lemma steadily_seconds_of ttl : steadily (seconds_of ttl).
Proof. destruct ttl; first [apply steadily_ret | apply steadily_raise]. Qed.

Lemma steadily_authenticate_with (dr : request -> Z -> M bytes) :
  (forall req a, steadily (dr req a)) -> steadily (_authenticate_with dr).
Proof.
  intro Hdr. unfold _authenticate_with.
  apply steadily_bind; [apply steadily_same; split; reflexivity | intro st0].
  destruct (negb (str_truthy (client_secret (cfg st0))));
    [apply steadily_raise |].
  assert (Hpost : forall d h,
            steadily
              (try_except
                 (raw <- dr {| full_url :=
                                 {| u_base := oauth_token_url (cfg st0);
                                    u_endpoint := EmptyString;
                                    u_query := [] |};
                               req_headers := h; method := Some "POST";
                               data := Some d |} 1 ;;
                  json_loads raw)
                 (fun _ => ret JNull))).
  { intros d h. apply steadily_try_except; [| intro; apply steadily_ret].
    apply steadily_bind; [apply Hdr | intro; apply steadily_json_loads]. }
  destruct (client_id (cfg st0)) as [[| c cid] |].
  - apply steadily_same. split; reflexivity.
  - apply steadily_bind; [apply Hpost | intro js].
    apply steadily_bind; [apply steadily_lacks_access_token | intro missing].
    apply steadily_bind.
    { destruct missing; [apply Hpost | apply steadily_ret]. }
    intro js'.
    apply steadily_bind; [apply steadily_lacks_access_token | intro missing'].
    destruct missing'; [apply steadily_raise |].
    destruct js'; try apply steadily_raise.
    apply steadily_bind; [apply steadily_same; split; reflexivity | intros _].
    apply steadily_bind; [apply steadily_seconds_of | intro ttl].
    apply steadily_same. split; reflexivity.
  - apply steadily_same. split; reflexivity.
Qed.

Lemma steadily_on_response (dr : request -> Z -> M bytes) req a resp :
  is_429 resp = false ->
  (forall r k, steadily (dr r k)) ->
  steadily (on_response dr req a resp).
Proof.
  intros Hresp Hdr. unfold on_response.
  destruct resp as [raw | status ra body | reason | name].
  - apply steadily_ret.
  - cbn [is_429] in Hresp. rewrite Hresp.
    destruct ((status =? 401) && (a =? 1) && token_problem body).
    + apply steadily_try_except; [| intro; apply steadily_raise].
      apply steadily_bind;
        [apply steadily_same; split; reflexivity | intros _].
      apply steadily_bind;
        [apply steadily_same; split; reflexivity | intros _].
      apply steadily_bind;
        [apply steadily_authenticate_with, Hdr | intros _].
      apply steadily_bind;
        [apply steadily_same; split; reflexivity | intro s]. apply Hdr.
    + apply steadily_bind; [apply steadily_ret | intros _].
      apply steadily_bind;
        [apply steadily_same; split; reflexivity | intro s].
      destruct (retriable_status status && (a <? max_retries (cfg s)));
        [| apply steadily_raise].
      apply steadily_bind; [| intros _; apply Hdr].
      cbn [negb when]. apply steadily_time_sleep.
  - apply steadily_bind;
      [apply steadily_same; split; reflexivity | intro s].
    destruct (a <? max_retries (cfg s)); [| apply steadily_raise].
    apply steadily_bind; [apply steadily_time_sleep | intros _; apply Hdr].
  - apply steadily_raise.
Qed.

Lemma steadily_do_request fuel : forall req a, steadily (_do_request fuel req a).
Proof.
  induction fuel as [| fuel IH]; intros req a st Hno.
  - split; [reflexivity | exact Hno].
  - destruct (script st) as [| resp rest] eqn:Hs.
    + rewrite (do_request_no_response _ _ _ _ Hs). cbn [snd].
      destruct (throttled_fields st) as (_ & _ & _ & Hmi & Hscr).
      rewrite Hmi, Hscr, Hs. auto.
    + rewrite (do_request_unfold _ _ _ _ _ _ Hs).
      destruct (exchanged_fields req a rest st) as (_ & Hmi & Hscr & _).
      cbn [existsb] in Hno. apply orb_false_iff in Hno.
      destruct Hno as [Hresp Hrest].
      rewrite <- Hmi. apply steadily_on_response; [exact Hresp | exact IH |].
      rewrite Hscr. exact Hrest.
Qed.

(** X27.  [min_interval] changes on a 429 only: a call of [_do_request],
    with all its retries and the re-authentication it may trigger, that
    meets no 429 leaves [min_interval] as it was. *)
Theorem interval_changes_only_on_429 (fuel : nat) (req : request)
  (attempt : Z) (st : state) :
  existsb is_429 (script st) = false ->
  min_interval (snd (_do_request fuel req attempt st)) = min_interval st.
Proof. intro Hno. apply (steadily_do_request fuel req attempt st Hno). Qed.

Lemma interval_changes_only_on_429_witness :
  min_interval (snd (_do_request 5 (Sample.sites_request JNull) 1
                       Sample.unauthorized_then_503))
  = min_interval Sample.unauthorized_then_503.
Proof.
  apply (interval_changes_only_on_429 5 (Sample.sites_request JNull) 1
           Sample.unauthorized_then_503).
  reflexivity.
Defined.

(* ------------------------------------------------------------------ *)
(** ** A token that expires within the buffer *)




(* ------------------------------------------------------------------ *)
(** ** Site enumeration that fails *)

Lemma fatal_now fuel req attempt st r rest :
  script st = r :: rest ->
  fatal r = true ->
  exists e,
    _do_request (S fuel) req attempt st = (Raise e, exchanged req attempt rest st).
Proof.
  intros Hs Hf. destruct r as [| status ra body | |]; try discriminate.
  cbn [fatal] in Hf. apply andb_true_iff in Hf. destruct Hf as [Hr H401].
  apply negb_true_iff in Hr, H401.
  exists (HTTPError status ra body).
  apply fatal_status_now; [exact Hs | exact Hr |].
  rewrite H401. reflexivity.
Qed.

Lemma collect_raises fuel endpoint root_keys params annotate delay st e st1 :
  _do_request fuel
    (Request (_build_url st endpoint
                (setdefault params "limit"
                   (JNum (inject_Z (Z.min (page_limit (cfg st)) 100)))))
             (_headers st))
    1 st = (Raise e, st1) ->
  _cursor_or_offset_collect fuel endpoint root_keys params annotate delay st
  = (Raise e, st1).
Proof.
  intro Hreq. unfold _cursor_or_offset_collect.
  unfold bind at 1. simpl. unfold bind at 1. rewrite Hreq. reflexivity.
Qed.

Lemma list_sites_raises fuel sort_expr st e st1 :
  _do_request fuel (sites_request sort_expr st) 1 st = (Raise e, st1) ->
  list_sites fuel sort_expr st = (Raise e, st1).
Proof. intro Hreq. unfold list_sites. apply collect_raises. exact Hreq. Qed.

(** X29.  Without an override, [list_all_clients] tries the site
    enumeration twice; when both attempts end in an HTTP error that is
    not retried, it returns the empty list instead of raising, after
    exactly these two requests. *)
Theorem site_enumeration_failure_is_silent (fuel : nat) (sort_expr : string)
  (try_global : bool) (st : state) (r1 r2 : response)
  (rest : list response) :
  script st = r1 :: r2 :: rest ->
  fatal r1 = true ->
  fatal r2 = true ->
  list_all_clients (S fuel) sort_expr try_global None st
  = (Ret [],
     exchanged
       (sites_request sort_expr
          (exchanged (sites_request sort_expr st) 1 (r2 :: rest) st))
       1 rest
       (exchanged (sites_request sort_expr st) 1 (r2 :: rest) st)).
Proof.
  intros Hs H1 H2.
  set (st1 := exchanged (sites_request sort_expr st) 1 (r2 :: rest) st).
  destruct (fatal_now fuel (sites_request sort_expr st) 1 st r1 _ Hs H1)
    as (e1 & E1).
  fold st1 in E1.
  assert (Hs1 : script st1 = r2 :: rest).
  { unfold st1.
    destruct (exchanged_fields (sites_request sort_expr st) 1 (r2 :: rest) st)
      as (_ & _ & H & _). exact H. }
  destruct (fatal_now fuel (sites_request sort_expr st1) 1 st1 r2 _ Hs1 H2)
    as (e2 & E2).
  unfold list_all_clients. cbn [str_truthy String.eqb negb].
  unfold bind at 1. unfold enumerate_sites.
  unfold try_except at 1. unfold bind at 1.
  rewrite (list_sites_raises _ _ _ _ _ E1).
  unfold try_except at 1. unfold bind at 1.
  rewrite (list_sites_raises _ _ _ _ _ E2).
  reflexivity.
Qed.

Lemma site_enumeration_failure_is_silent_witness :
  fst (list_all_clients 1 EmptyString false None
         (Cases.ready [Cases.forbidden; Cases.forbidden; Cases.client_page]))
  = Ret []
  /\ script (snd (list_all_clients 1 EmptyString false None
                    (Cases.ready [Cases.forbidden; Cases.forbidden;
                                  Cases.client_page])))
     = [Cases.client_page].
Proof.
  rewrite (site_enumeration_failure_is_silent 0 EmptyString false
             (Cases.ready [Cases.forbidden; Cases.forbidden;
                           Cases.client_page])
             Cases.forbidden Cases.forbidden [Cases.client_page]
             eq_refl eq_refl eq_refl).
  split; reflexivity.
Defined.
